(** * Soap-Bubbles: the escape-time fractal renderer of [fractals.js]

    A shallow embedding of the three revisions of [fractals.js] kept in the
    repository:

    - revision 1.0, the one with the documentation comments: Mandelbrot
      set, smooth colouring, [linear_interpolate], sinusoidal palette, and a
      timer callback that tells an informer when it is done.  It is embedded
      whole in [Module Mandelbrot].
    - the two revisions before it, whose [eval] takes component-wise
      absolute values first (burning ship) and whose palette spreads the
      index over the 24 bits of a colour; the later of the two adds
      [lerpColor].  [Module BurningShip] embeds what they do differently in
      [eval], [palette] and [lerpColor], their loop, which keeps no [m],
      and their [sin].  Their timer callback moves the cursor as the one of
      revision 1.0 does; it keeps the cursor in local variables, paints in
      steps of half a pixel and clears its own timer when it is done.  The
      callbacks of both are embedded whole; the one of the middle revision
      calls a [lerpcolor] that no revision declares, and is embedded over
      the scope in which that name is looked up.

    JavaScript Numbers are idealised as the real numbers [R]: [Math.sin] is
    [sin], [Math.floor] is [Zfloor], [Math.log] is [ln] on positive arguments
    and has no value in [R] elsewhere.  One sum is rounded to a Number
    explicitly, with [to_Number]: the one in [lerpColor] whose rounding, at
    the scale of 2^24, decides a digit of the result.  Integers that the
    code only ever uses as integers (iteration counts, canvas sizes, cursor
    positions, colour channels) are [nat] or [Z]; colours are strings, as in
    the source, of characters below 256. *)

From Stdlib Require Import Reals Lra Lia ZArith List Bool String Ascii Zfloor.
Import ListNotations.

Open Scope R_scope.

(** ** JavaScript built-ins used by the source *)

(** [Math.floor] *)
Definition Math_floor (x : R) : Z := Zfloor x.

(** [Math.round]: to the nearest integer, halves upwards. *)
Definition Math_round (x : R) : Z := Zfloor (x + / 2).

(** [Math.log]: undefined in [R] (NaN or -Infinity) unless the argument is
    positive. *)
Definition Math_log (x : R) : option R :=
  if Rlt_dec 0 x then Some (ln x) else None.

(** Truncation towards zero. *)
Definition Ztrunc (x : R) : Z := if Rle_dec 0 x then Zfloor x else Zceil x.

(** [x % 1]: the remainder has the sign of the dividend. *)
Definition Rmod1 (x : R) : R := x - IZR (Ztrunc x).

(** The signed 32-bit integer with the bits of [n]. *)
Definition wrap32 (n : Z) : Z :=
  ((n + 2147483648) mod 4294967296 - 2147483648)%Z.

(** [ToInt32]: what the bit operators make of a Number. *)
Definition ToInt32 (x : R) : Z := wrap32 (Ztrunc x).

(** [x << k] and [n >> k] for [0 <= k < 32]. *)
Definition shift_left (x : R) (k : Z) : Z := wrap32 (Z.shiftl (ToInt32 x) k).
Definition shift_right (n k : Z) : Z := Z.shiftr (wrap32 n) k.

(** [a & b] *)
Definition bit_and (a b : Z) : Z := Z.land (wrap32 a) (wrap32 b).

(** The integer nearest to [y]; of two that are equally near, the even one. *)
Definition round_half_even (y : R) : Z :=
  let k := Zfloor y in
  if Rlt_dec (y - IZR k) (/ 2) then k
  else if Rlt_dec (/ 2) (y - IZR k) then (k + 1)%Z
  else if Z.even k then k else (k + 1)%Z.

(** The exponent [e] with [2^e <= |x| < 2^(e+1)], for [x <> 0]. *)
Definition binade (x : R) : Z := Zfloor (ln (Rabs x) / ln 2).

(** The Number nearest to the real [x]: 53 significant bits, ties to even.
    Overflow and the subnormal range are left out. *)
Definition to_Number (x : R) : R :=
  if Req_dec_T x 0 then 0
  else
    let e := (binade x - 52)%Z in
    IZR (round_half_even (x * powerRZ 2 (- e))) * powerRZ 2 e.

(** [s.substring(a, b)]: the characters from [min a b] up to [max a b]. *)
Definition substring (s : string) (a b : nat) : string :=
  String.substring (Nat.min a b) (Nat.max a b - Nat.min a b) s.

Definition hex_digit_value (c : ascii) : option Z :=
  let n := Z.of_nat (nat_of_ascii c) in
  if ((48 <=? n) && (n <=? 57))%Z then Some (n - 48)%Z
  else if ((97 <=? n) && (n <=? 102))%Z then Some (n - 87)%Z
  else if ((65 <=? n) && (n <=? 70))%Z then Some (n - 55)%Z
  else None.

Fixpoint parse_hex_prefix (s : string) (acc : option Z) : option Z :=
  match s with
  | EmptyString => acc
  | String c s' =>
      match hex_digit_value c with
      | Some d =>
          parse_hex_prefix s'
            (Some (16 * match acc with Some a => a | None => 0 end + d)%Z)
      | None => acc
      end
  end.

(** The white space that [parseInt] skips, among the characters below 256:
    tab, line feed, vertical tab, form feed, carriage return, space and the
    no-break space. *)
Definition is_white_space (c : ascii) : bool :=
  let n := nat_of_ascii c in
  (((9 <=? n) && (n <=? 13)) || (n =? 32) || (n =? 160))%nat.

Fixpoint skip_white_space (s : string) : string :=
  match s with
  | EmptyString => s
  | String c s' => if is_white_space c then skip_white_space s' else s
  end.

Definition read_sign (s : string) : Z * string :=
  match s with
  | EmptyString => (1%Z, s)
  | String c s' =>
      if Ascii.eqb c "-" then ((-1)%Z, s')
      else if Ascii.eqb c "+" then (1%Z, s')
      else (1%Z, s)
  end.

Definition strip_0x (s : string) : string :=
  match s with
  | String c1 (String c2 s') =>
      if (Ascii.eqb c1 "0" && (Ascii.eqb c2 "x" || Ascii.eqb c2 "X"))%bool
      then s' else s
  | _ => s
  end.

(** An integer as a Number: itself below 2^53, rounded from there on. *)
Definition Number_of_integer (n : Z) : Z :=
  if (n <? 9007199254740992)%Z then n else Zfloor (to_Number (IZR n)).

(** [parseInt(s, 16)]: leading white space is skipped, a sign and then a
    prefix [0x] or [0X] are read, and the value is that of the longest run
    of hexadecimal digits that follows; [None] (NaN) when there is no
    digit. *)
Definition parseInt16 (s : string) : option Z :=
  let (sign, s) := read_sign (skip_white_space s) in
  match parse_hex_prefix (strip_0x s) None with
  | Some n => Some (sign * Number_of_integer n)%Z
  | None => None
  end.

Definition hex_digit (d : Z) : ascii :=
  match d with
  | 0%Z => "0" | 1%Z => "1" | 2%Z => "2" | 3%Z => "3"
  | 4%Z => "4" | 5%Z => "5" | 6%Z => "6" | 7%Z => "7"
  | 8%Z => "8" | 9%Z => "9" | 10%Z => "a" | 11%Z => "b"
  | 12%Z => "c" | 13%Z => "d" | 14%Z => "e" | _ => "f"
  end%char.

Fixpoint toString16_digits (fuel : nat) (n : Z) (acc : string) : string :=
  match fuel with
  | O => acc
  | S fuel' =>
      let acc' := String (hex_digit (n mod 16)) acc in
      if (n <? 16)%Z then acc' else toString16_digits fuel' (n / 16) acc'
  end.

(** [n.toString(16)] for an integer [n >= 0]: lower-case digits, no padding. *)
Definition toString16 (n : Z) : string :=
  toString16_digits (S (Z.to_nat (Z.log2 n))) n EmptyString.

(** [n.toString(16)] for any integer [n]. *)
Definition Number_toString16 (n : Z) : string :=
  if (n <? 0)%Z then String "-" (toString16 (- n)) else toString16 n.

(** [s.slice(1)] *)
Definition slice1 (s : string) : string :=
  match s with
  | EmptyString => EmptyString
  | String _ s' => s'
  end.

(** [s.replace(/#/g, '')] *)
Fixpoint remove_hash (s : string) : string :=
  match s with
  | EmptyString => EmptyString
  | String c s' =>
      if Ascii.eqb c "#" then remove_hash s' else String c (remove_hash s')
  end.

(** A JavaScript array of colours: [None] is a hole ([undefined]). *)
Definition Array := list (option string).

(** [new Array(n)] *)
Definition new_Array (n : nat) : Array := repeat None n.

(** [a[i] = v]: assignment past the end extends the array with holes. *)
Fixpoint array_set (a : Array) (i : nat) (v : string) : Array :=
  match i, a with
  | O, [] => [Some v]
  | O, _ :: t => Some v :: t
  | S i', [] => None :: array_set [] i' v
  | S i', h :: t => h :: array_set t i' v
  end.

(** [a[i]] for an integer-valued Number [i]: [undefined] for a hole, a
    negative index or an index past the end. *)
Definition array_get (a : Array) (i : Z) : option string :=
  if (i <? 0)%Z then None
  else match nth_error a (Z.to_nat i) with
       | Some (Some v) => Some v
       | _ => None
       end.

(** ** Complex numbers

    [{"imaginary": <value>, "real": <value>}] *)

Record Complex : Type := mkComplex { imaginary : R; real : R }.

(** [add(complex1, complex2)] *)
Definition add (complex1 complex2 : Complex) : Complex :=
  {| imaginary := imaginary complex1 + imaginary complex2;
     real := real complex1 + real complex2 |}.

(** [multiply(complex1, complex2)] *)
Definition multiply (complex1 complex2 : Complex) : Complex :=
  {| imaginary := real complex1 * imaginary complex2
                  + imaginary complex1 * real complex2;
     real := real complex1 * real complex2
             - imaginary complex1 * imaginary complex2 |}.

(** [magnitude2(complex)] *)
Definition magnitude2 (complex : Complex) : R :=
  imaginary complex * imaginary complex + real complex * real complex.

(** [var threshold = 4] *)
Definition threshold : R := 4.

(** The state of the escape-time loop: [z], [count] and [m]. *)
Record loop_state : Type := mkLoop { z : Complex; count : nat; m : R }.

(** [while (m < threshold && count < max_iter) { z = eval(z, c); count++;
    m = magnitude2(z); }], for an [eval] given as [P]; [fuel] bounds the
    number of passes. *)
Fixpoint while_loop (P : Complex -> Complex -> Complex) (fuel max_iter : nat)
    (c : Complex) (st : loop_state) : loop_state :=
  match fuel with
  | O => st
  | S fuel' =>
      if Rlt_dec (m st) threshold then
        if (count st <? max_iter)%nat then
          let z' := P (z st) c in
          while_loop P fuel' max_iter c
            {| z := z'; count := S (count st); m := magnitude2 z' |}
        else st
      else st
  end.

(** [{"imaginary": 0, "real": 0}] *)
Definition origin : Complex := {| imaginary := 0; real := 0 |}.

(** The loop from [z = 0], [count = 0], [m = 0]; [max_iter] passes of fuel
    are enough (see [escape_exits]). *)
Definition escape (P : Complex -> Complex -> Complex) (max_iter : nat)
    (c : Complex) : loop_state :=
  while_loop P max_iter max_iter c {| z := origin; count := 0%nat; m := 0 |}.

(** The outcome of evaluating an expression: a value, or a thrown
    [TypeError] (a method called on [undefined]). *)
Inductive completion (A : Type) : Type :=
| Normal (a : A)
| Throw.
Arguments Normal {A} a.
Arguments Throw {A}.

(** What a timer callback does to the outside: calls on the 2D context of
    the canvas, and [informer.value = "hide"].  [fillRect] carries the
    [fillStyle] in force, [None] when the assigned style was [undefined]. *)
Inductive effect : Type :=
| clearRect (x y w h : Z)
| fillRect (fillStyle : option string) (x y w h : Z)
| informer_hide.

(** The cursor [xcurr], [ycurr]. *)
Record cursor : Type := mkCursor { xcurr : Z; ycurr : Z }.

(** The integers [from], [from + 1], ... below [from + len]: the values a
    [for (v = from; v < from + len; v += 1)] loop visits. *)
Definition range (from len : Z) : list Z :=
  map (fun k => (from + Z.of_nat k)%Z) (seq 0 (Z.to_nat len)).

Module Mandelbrot.

(** [eval(variable, constant)] of revision 1.0: the line taking absolute
    values is commented out there. *)
Definition eval (variable constant : Complex) : Complex :=
  let mult := multiply variable variable in
  add constant mult.

(** One channel of [linear_interpolate]: the source repeats these three
    lines for [r] (characters 1 to 3), [g] (3 to 5) and [b] (5 to 7).  A NaN
    operand prints as ["NaN"]. *)
Definition channel (color1 color2 : string) (a b : nat) (slope : R) : string :=
  let r :=
    match parseInt16 (substring color1 a b), parseInt16 (substring color2 a b) with
    | Some r1, Some r2 =>
        toString16 (Math_floor (Rabs (IZR r1 + slope * (IZR r2 - IZR r1))))
    | _, _ => "NaN"%string
    end in
  if (String.length r =? 2)%nat then r else String "0" r.

(** [linear_interpolate(color1, color2, slope)] *)
Definition linear_interpolate (color1 color2 : string) (slope : R) : string :=
  let r := channel color1 color2 1 3 slope in
  let g := channel color1 color2 3 5 slope in
  let b := channel color1 color2 5 7 slope in
  String "#" (r ++ g ++ b)%string.

Definition end_color : string := "#773399".
Definition mid_color : string := "#CCAA66".

(** [palette(max_iter)]; the [console.log] of each entry is left out. *)
Definition palette (max_iter : nat) : Array :=
  let colors := new_Array (max_iter + 1) in
  let factor := PI / (2 * Rmax 1 (INR max_iter - 1)) in
  let colors :=
    fold_left
      (fun colors i =>
         array_set colors i
           (linear_interpolate end_color mid_color (sin (INR i * factor))))
      (seq 0 max_iter) colors in
  array_set colors max_iter "#000000".

(** [var l2 = Math.log(2)] *)
Definition l2 : R := ln 2.

(** The colour of a point from [count] and [m] when the loop has exited:
    the lines from [var color = colors[count]] to the end of the [if].
    [linear_interpolate] called with an [undefined] colour throws; so does
    an undefined logarithm, since the NaN or infinite index it leads to
    reads [undefined] from [colors]. *)
Definition pixel_color (colors : Array) (max_iter count : nat) (m : R)
    : completion (option string) :=
  let color := array_get colors (Z.of_nat count) in
  if (Z.of_nat count <? Z.of_nat max_iter - 1)%Z then
    match Math_log m with
    | None => Throw
    | Some log_m =>
        let log_zn := log_m / 2 in
        match Math_log (log_zn / l2) with
        | None => Throw
        | Some log_log =>
            let nu := log_log / l2 in
            let it := INR count + 1 - nu in
            match array_get colors (Math_floor it),
                  array_get colors (Math_floor it + 1) with
            | Some color, Some color2 =>
                Normal (Some (linear_interpolate color color2 (Rmod1 it)))
            | _, _ => Throw
            end
        end
    end
  else Normal color.

(** What the callback of [setInterval] closes over: the variables [graph]
    computes before it starts the timer. *)
Record session : Type := mkSession {
  xdiff : Z; ydiff : Z;
  xf : R; yf : R;
  xd : Z; yd : Z;
  xc : R; yc : R;
  max_iter : nat;
  colors : Array
}.

(** [var ptw = 1] *)
Definition ptw : Z := 1.

(** The body of [graph] up to [setInterval], for a canvas of the given
    [width] and [height]. *)
Definition graph_session (width height : Z) (max_iter : nat)
    (rxmin rxmax rymin rymax : R) : session :=
  let xdiff := width in
  let ydiff := height in
  let rangex := rxmax - rxmin in
  let rangey := rymax - rymin in
  {| xdiff := xdiff; ydiff := ydiff;
     xf := rangex / IZR xdiff; yf := rangey / IZR ydiff;
     xd := Math_round (IZR xdiff / 40); yd := Math_round (IZR ydiff / 20);
     xc := rxmax; yc := rymax;
     max_iter := max_iter;
     colors := palette max_iter |}.

(** [var c = {"real": xf*x-xc, "imaginary": yf*y-yc}] *)
Definition pixel_constant (s : session) (x y : R) : Complex :=
  let xac := xf s * x - xc s in
  let yac := yf s * y - yc s in
  {| imaginary := yac; real := xac |}.

(** The body of the inner [for] loop up to the assignment of
    [context.fillStyle]. *)
Definition pixel (s : session) (x y : Z) : completion (option string) :=
  let c := pixel_constant s (IZR x) (IZR y) in
  let st := escape eval (max_iter s) c in
  pixel_color (colors s) (max_iter s) (count st) (m st).

(** The points the two nested [for] loops visit, in order. *)
Definition tile_pixels (s : session) (cur : cursor) : list (Z * Z) :=
  flat_map (fun x => map (fun y => (x, y)) (range (ycurr cur) (yd s)))
           (range (xcurr cur) (xd s)).

(** The nested loops: one [fillRect] per point, until a point throws.  The
    flag tells whether the loops ran to their end. *)
Fixpoint paint (s : session) (pixels : list (Z * Z)) : list effect * bool :=
  match pixels with
  | [] => ([], true)
  | (x, y) :: rest =>
      match pixel s x y with
      | Throw => ([], false)
      | Normal color =>
          let (effects, finished) := paint s rest in
          (fillRect color x y ptw ptw :: effects, finished)
      end
  end.

(** One run of the timer callback on the cursor [cur]: the new cursor and
    the effects, in order.  An exception ends the callback before
    [xcurr += xd]. *)
Definition tick (s : session) (cur : cursor) : cursor * list effect :=
  if ((xdiff s <=? xcurr cur) && (ydiff s <=? ycurr cur))%Z then
    (cur, [informer_hide])
  else
    let cur :=
      if (xdiff s <=? xcurr cur)%Z
      then {| xcurr := 0; ycurr := ycurr cur + yd s |}
      else cur in
    let (fills, finished) := paint s (tile_pixels s cur) in
    (if finished then {| xcurr := xcurr cur + xd s; ycurr := ycurr cur |} else cur,
     clearRect (xcurr cur) (ycurr cur) (xd s) (yd s) :: fills).

(** [n] runs of the callback in a row. *)
Fixpoint run (s : session) (n : nat) (cur : cursor) : cursor * list effect :=
  match n with
  | O => (cur, [])
  | S n' =>
      let (cur1, effects1) := tick s cur in
      let (cur2, effects2) := run s n' cur1 in
      (cur2, effects1 ++ effects2)
  end.

(** The session is complete: the callback only hides the informer. *)
Definition complete (s : session) (cur : cursor) : bool :=
  ((xdiff s <=? xcurr cur) && (ydiff s <=? ycurr cur))%Z.

(** ** The host: timers, the shared cursor and the canvas

    Revision 1.0 initialises the cursor with [var x = xcurr = 0], which makes
    [xcurr] and [ycurr] global variables: every session of the page shares
    them. *)
Record host : Type := mkHost {
  timers : list (nat * session);
  next_timer : nat;
  global_cursor : cursor;
  log : list (nat * effect)
}.

(** The arguments of a call of [graph], the canvas given by its size. *)
Record request : Type := mkRequest {
  width : Z; height : Z; req_max_iter : nat;
  rxmin : R; rxmax : R; rymin : R; rymax : R
}.

(** [graph(canvas, max_iter, rxmin, rxmax, rymin, rymax, informer)]: sets up
    the session, resets the cursor, starts the timer and returns its id. *)
Definition graph (h : host) (r : request) : host * nat :=
  let s := graph_session (width r) (height r) (req_max_iter r)
             (rxmin r) (rxmax r) (rymin r) (rymax r) in
  let timer := next_timer h in
  ({| timers := (timer, s) :: timers h;
      next_timer := S timer;
      global_cursor := {| xcurr := 0; ycurr := 0 |};
      log := log h |}, timer).

(** [clearInterval(timer)], which the page calls on the id [graph] returned. *)
Definition clearInterval (h : host) (timer : nat) : host :=
  {| timers := filter (fun t => negb (fst t =? timer)%nat) (timers h);
     next_timer := next_timer h;
     global_cursor := global_cursor h;
     log := log h |}.

Definition find_timer (h : host) (timer : nat) : option session :=
  match find (fun t => (fst t =? timer)%nat) (timers h) with
  | Some t => Some (snd t)
  | None => None
  end.

(** The host runs the callback of [timer], if that timer is still set. *)
Definition fire (h : host) (timer : nat) : host :=
  match find_timer h timer with
  | None => h
  | Some s =>
      let (cur, effects) := tick s (global_cursor h) in
      {| timers := timers h;
         next_timer := next_timer h;
         global_cursor := cur;
         log := (log h ++ map (fun e => (timer, e)) effects)%list |}
  end.

(** What can happen on the page. *)
Inductive event : Type :=
| Graph (r : request)
| ClearInterval (timer : nat)
| Fire (timer : nat).

Definition step (h : host) (e : event) : host :=
  match e with
  | Graph r => fst (graph h r)
  | ClearInterval timer => clearInterval h timer
  | Fire timer => fire h timer
  end.

Definition steps (h : host) (es : list event) : host := fold_left step es h.

(** The writes of [timer]'s session to the canvas recorded in the log. *)
Definition is_write (e : effect) : bool :=
  match e with
  | clearRect _ _ _ _ | fillRect _ _ _ _ _ => true
  | informer_hide => false
  end.

Definition writes_of (timer : nat) (h : host) : list effect :=
  map snd (filter (fun t => (fst t =? timer)%nat && is_write (snd t)) (log h)).

End Mandelbrot.

Module BurningShip.

(** [eval(variable, constant)] of the earlier revisions. *)
Definition eval (variable constant : Complex) : Complex :=
  let z := {| imaginary := Rabs (imaginary variable);
              real := Rabs (real variable) |} in
  let mult := multiply z z in
  add constant mult.

(** [palette(max_iter)] of the earlier revisions.  [toString16] stands for
    [Number.prototype.toString(16)], which prints a fraction when
    [i*colorf] is not an integer. *)
Definition palette (toString16 : R -> string) (max_iter : nat) : Array :=
  let colorf := 256 * 256 * 256 / INR max_iter in
  let colors := new_Array (max_iter + 1) in
  let colors :=
    fold_left
      (fun colors i =>
         let str := ("000000" ++ toString16 (INR i * colorf))%string in
         array_set colors i
           (String "#" (substring str (String.length str - 7) (String.length str - 1))))
      (seq 0 max_iter) colors in
  array_set colors max_iter "#000000".

(** [lerpColor(a, b, amount)].  A colour that does not parse gives NaN, of
    which the bit operators make 0.  The three shifted summands are integers
    and add up exactly; adding [rb] gives a Number near 2^24, where Numbers
    are 2^-28 apart, and it is that Number, not the real sum, that [| 0]
    truncates: a blue channel just below an integer is carried up to it. *)
Definition lerpColor (a b : string) (amount : R) : string :=
  let ah := match parseInt16 (remove_hash a) with Some n => n | None => 0%Z end in
  let ar := shift_right ah 16 in
  let ag := bit_and (shift_right ah 8) 255 in
  let ab := bit_and ah 255 in
  let bh := match parseInt16 (remove_hash b) with Some n => n | None => 0%Z end in
  let br := shift_right bh 16 in
  let bg := bit_and (shift_right bh 8) 255 in
  let bb := bit_and bh 255 in
  let rr := IZR ar + amount * (IZR br - IZR ar) in
  let rg := IZR ag + amount * (IZR bg - IZR ag) in
  let rb := IZR ab + amount * (IZR bb - IZR ab) in
  String "#"
    (slice1
       (Number_toString16
          (ToInt32 (to_Number (IZR (shift_left 1 24) + IZR (shift_left rr 16)
                               + IZR (shift_left rg 8) + rb))))).

(** [while (magnitude2(z) < threshold && count < max_iter) { z = eval(z, c);
    count++; }]: the loop of the earlier revisions, which keep no [m] and
    compute the magnitude anew in the guard. *)
Fixpoint while_loop (fuel max_iter : nat) (c : Complex) (z : Complex)
    (count : nat) : Complex * nat :=
  match fuel with
  | O => (z, count)
  | S fuel' =>
      if Rlt_dec (magnitude2 z) threshold then
        if (count <? max_iter)%nat then
          while_loop fuel' max_iter c (eval z c) (S count)
        else (z, count)
      else (z, count)
  end.

(** That loop from [z = 0] and [count = 0]. *)
Definition escape (max_iter : nat) (c : Complex) : Complex * nat :=
  while_loop max_iter max_iter c origin 0%nat.

(** [sin(complex)], which the two earlier revisions define and never call. *)
Definition sin (complex : Complex) : Complex :=
  {| imaginary := cos (real complex) * sinh (imaginary complex);
     real := Rtrigo_def.sin (real complex) * cosh (imaginary complex) |}.

(** The body of [graph] of the two earlier revisions up to [setInterval]:
    the variables of revision 1.0 without [ptw] and [l2], with the palette
    of these revisions. *)
Definition graph_session (toString16 : R -> string) (width height : Z)
    (max_iter : nat) (rxmin rxmax rymin rymax : R) : Mandelbrot.session :=
  let xdiff := width in
  let ydiff := height in
  let rangex := rxmax - rxmin in
  let rangey := rymax - rymin in
  {| Mandelbrot.xdiff := xdiff; Mandelbrot.ydiff := ydiff;
     Mandelbrot.xf := rangex / IZR xdiff; Mandelbrot.yf := rangey / IZR ydiff;
     Mandelbrot.xd := Math_round (IZR xdiff / 40);
     Mandelbrot.yd := Math_round (IZR ydiff / 20);
     Mandelbrot.xc := rxmax; Mandelbrot.yc := rymax;
     Mandelbrot.max_iter := max_iter;
     Mandelbrot.colors := palette toString16 max_iter |}.

(** The Numbers [from], [from + 0.5], ... below [from + len]: the values a
    [for (v = from; v < from + len; v += 0.5)] loop visits. *)
Definition half_range (from len : Z) : list R :=
  map (fun k => IZR from + INR k * / 2) (seq 0 (Z.to_nat (2 * len))).

(** What the callback of the oldest revision does to the outside: calls on
    the 2D context, with Numbers for the squares of half a pixel, and
    [clearInterval(timer)] on its own timer.  [fillRect] carries the value
    last assigned to [context.fillStyle]. *)
Inductive effect : Type :=
| clearRect (x y w h : Z)
| fillRect (fillStyle : option string) (x y w h : R)
| clearInterval.

(** The body of the inner [for] loop of the oldest revision up to the
    assignment of [context.fillStyle]: the value of [colors[count]]. *)
Definition pixel (s : Mandelbrot.session) (x y : R) : option string :=
  let c := Mandelbrot.pixel_constant s x y in
  let (z, count) := escape (Mandelbrot.max_iter s) c in
  array_get (Mandelbrot.colors s) (Z.of_nat count).

(** The points the two nested [for] loops of the oldest revision visit. *)
Definition tile_pixels (s : Mandelbrot.session) (cur : cursor) : list (R * R) :=
  flat_map (fun x => map (fun y => (x, y))
                       (half_range (ycurr cur) (Mandelbrot.yd s)))
           (half_range (xcurr cur) (Mandelbrot.xd s)).

(** One run of the timer callback of the oldest revision on its cursor
    [cur], which it keeps in variables of its own. *)
Definition tick (s : Mandelbrot.session) (cur : cursor) : cursor * list effect :=
  if ((Mandelbrot.xdiff s <=? xcurr cur) && (Mandelbrot.ydiff s <=? ycurr cur))%Z then
    (cur, [clearInterval])
  else
    let cur :=
      if (Mandelbrot.xdiff s <=? xcurr cur)%Z
      then {| xcurr := 0; ycurr := ycurr cur + Mandelbrot.yd s |}
      else cur in
    ({| xcurr := xcurr cur + Mandelbrot.xd s; ycurr := ycurr cur |},
     clearRect (xcurr cur) (ycurr cur) (Mandelbrot.xd s) (Mandelbrot.yd s)
     :: map (fun p => fillRect (pixel s (fst p) (snd p)) (fst p) (snd p) (/ 2) (/ 2))
          (tile_pixels s cur)).

(** The timer fires up to [n] times: once the callback has cleared its
    timer, it is not run again. *)
Fixpoint run (s : Mandelbrot.session) (n : nat) (cur : cursor)
    : cursor * list effect :=
  match n with
  | O => (cur, [])
  | S n' =>
      let (cur1, effects1) := tick s cur in
      if Mandelbrot.complete s cur then (cur1, effects1)
      else
        let (cur2, effects2) := run s n' cur1 in
        (cur2, effects1 ++ effects2)
  end.

(** ** The callback of the middle revision

    It sweeps the canvas in squares of half a pixel as the oldest revision
    does, but takes the style of a point from a call [lerpcolor(...)]. *)

(** A function that such a call can reach: from two palette entries
    ([None] for [undefined]) and a Number ([None] for NaN) to the value
    assigned to [context.fillStyle], or to an exception. *)
Definition interpolator : Type :=
  option string -> option string -> option R -> completion (option string).

(** A call of [lerpColor] on values that may be [undefined] or NaN:
    [a.replace] and [b.replace] throw a [TypeError] on [undefined]; with NaN
    for [amount] the sum is NaN, of which [| 0] makes 0, printed as ["0"],
    of which [slice(1)] leaves nothing. *)
Definition lerpColor_call : interpolator :=
  fun a b amount =>
    match a, b with
    | Some a, Some b =>
        Normal (Some (match amount with
                      | Some t => lerpColor a b t
                      | None => "#"%string
                      end))
    | _, _ => Throw
    end.

(** The interpolators that [fractals.js] declares, by name: [lerpColor]
    alone.  Its other functions are [graph], [eval], [palette], [add],
    [multiply], [magnitude2] and [sin]; names are case-sensitive. *)
Definition fractals_js (name : string) : option interpolator :=
  if String.eqb name "lerpColor" then Some lerpColor_call else None.

(** [count] after [if (count < max_iter) { count = Math.log(); }]:
    [Math.log()] is NaN. *)
Definition logged_count (max_iter count : nat) : option R :=
  if (count <? max_iter)%nat then None else Some (INR count).

(** [colors[i]] for an index that may be NaN. *)
Definition array_get_Number (colors : Array) (i : option Z) : option string :=
  match i with
  | Some i => array_get colors i
  | None => None
  end.

(** The body of the inner [for] loop of the middle revision up to the
    assignment of [context.fillStyle].  The call looks [lerpcolor] up in the
    scope of the page, [scope], before it evaluates an argument: a name
    that is not bound throws a [ReferenceError]. *)
Definition middle_pixel (scope : string -> option interpolator)
    (s : Mandelbrot.session) (x y : R) : completion (option string) :=
  let c := Mandelbrot.pixel_constant s x y in
  let (z, count) := escape (Mandelbrot.max_iter s) c in
  let count := logged_count (Mandelbrot.max_iter s) count in
  match scope "lerpcolor"%string with
  | None => Throw
  | Some lerpcolor =>
      let index := option_map Math_floor count in
      lerpcolor (array_get_Number (Mandelbrot.colors s) index)
        (array_get_Number (Mandelbrot.colors s)
           (option_map (fun i => (i + 1)%Z) index))
        count
  end.

(** The nested loops of the middle revision: one [fillRect] per point,
    until a point throws.  The flag tells whether the loops ran to their
    end. *)
Fixpoint middle_paint (scope : string -> option interpolator)
    (s : Mandelbrot.session) (pixels : list (R * R)) : list effect * bool :=
  match pixels with
  | [] => ([], true)
  | (x, y) :: rest =>
      match middle_pixel scope s x y with
      | Throw => ([], false)
      | Normal style =>
          let (effects, finished) := middle_paint scope s rest in
          (fillRect style x y (/ 2) (/ 2) :: effects, finished)
      end
  end.

(** One run of the timer callback of the middle revision on its cursor
    [cur].  An exception ends the callback before [xcurr += xd]. *)
Definition middle_tick (scope : string -> option interpolator)
    (s : Mandelbrot.session) (cur : cursor) : cursor * list effect :=
  if ((Mandelbrot.xdiff s <=? xcurr cur) && (Mandelbrot.ydiff s <=? ycurr cur))%Z then
    (cur, [clearInterval])
  else
    let cur :=
      if (Mandelbrot.xdiff s <=? xcurr cur)%Z
      then {| xcurr := 0; ycurr := ycurr cur + Mandelbrot.yd s |}
      else cur in
    let (fills, finished) := middle_paint scope s (tile_pixels s cur) in
    (if finished
     then {| xcurr := xcurr cur + Mandelbrot.xd s; ycurr := ycurr cur |}
     else cur,
     clearRect (xcurr cur) (ycurr cur) (Mandelbrot.xd s) (Mandelbrot.yd s)
     :: fills).

(** The timer fires up to [n] times: once the callback has cleared its
    timer, it is not run again. *)
Fixpoint middle_run (scope : string -> option interpolator)
    (s : Mandelbrot.session) (n : nat) (cur : cursor) : cursor * list effect :=
  match n with
  | O => (cur, [])
  | S n' =>
      let (cur1, effects1) := middle_tick scope s cur in
      if Mandelbrot.complete s cur then (cur1, effects1)
      else
        let (cur2, effects2) := middle_run scope s n' cur1 in
        (cur2, effects1 ++ effects2)
  end.

End BurningShip.

(** ** Colours as the specification sees them

    A colour is a string [#RRGGBB]; its channels are the three numbers that
    [linear_interpolate] reads with [parseInt]. *)

Fixpoint string_forall (p : ascii -> bool) (s : string) : bool :=
  match s with
  | EmptyString => true
  | String c s' => p c && string_forall p s'
  end.

Definition is_hex_digit (c : ascii) : bool :=
  match hex_digit_value c with Some _ => true | None => false end.

(** Digits and lower-case letters only: what [toString(16)] prints. *)
Definition is_lower_hex_digit (c : ascii) : bool :=
  let n := Z.of_nat (nat_of_ascii c) in
  (((48 <=? n) && (n <=? 57)) || ((97 <=? n) && (n <=? 102)))%Z.

(** [#] and six hexadecimal digits, of either case. *)
Definition is_color (s : string) : bool :=
  match s with
  | String "#" digits =>
      (String.length digits =? 6)%nat && string_forall is_hex_digit digits
  | _ => false
  end.

(** The form the program prints: [#] and six lower-case digits. *)
Definition is_canonical_color (s : string) : bool :=
  match s with
  | String "#" digits =>
      (String.length digits =? 6)%nat && string_forall is_lower_hex_digit digits
  | _ => false
  end.

(** The channels of a colour, read as [linear_interpolate] reads them. *)
Definition rgb (color : string) : option (Z * Z * Z) :=
  match parseInt16 (substring color 1 3),
        parseInt16 (substring color 3 5),
        parseInt16 (substring color 5 7) with
  | Some r, Some g, Some b => Some (r, g, b)
  | _, _, _ => None
  end.

(** The channel the code computes: [Math.floor(Math.abs(v1 + t*(v2 - v1)))]. *)
Definition floor_lerp (v1 v2 : Z) (t : R) : Z :=
  Math_floor (Rabs (IZR v1 + t * (IZR v2 - IZR v1))).


(** A channel printed on two digits: [(r.length == 2) ? r : "0" + r]. *)
Definition pad2 (r : string) : string :=
  if (String.length r =? 2)%nat then r else String "0" r.


(** ** Smooth colouring as the specification describes it *)

(** The normalized iteration count [it = count + 1 - nu], with
    [log_zn = ln(m)/2] and [nu = ln(log_zn / ln 2) / ln 2]. *)
Definition normalized_iteration_count (count : nat) (m : R) : R :=
  INR count + 1 - ln (ln m / 2 / ln 2) / ln 2.

(** The palette sampled at [floor(it)] and [floor(it) + 1] and blended with
    weight [it mod 1]; no colour when one of the two entries does not exist. *)
Definition smooth_color (colors : Array) (count : nat) (m : R)
    : completion (option string) :=
  let it := normalized_iteration_count count m in
  match array_get colors (Math_floor it), array_get colors (Math_floor it + 1) with
  | Some color, Some color2 =>
      Normal (Some (Mandelbrot.linear_interpolate color color2 (Rmod1 it)))
  | _, _ => Throw
  end.

(** ** The tiling, as the specification sees it *)

(** The rectangle of a call lies inside [x0 <= x < x1], [y0 <= y < y1]. *)
Definition effect_within (x0 y0 x1 y1 : Z) (e : effect) : Prop :=
  match e with
  | clearRect x y w h | fillRect _ x y w h =>
      (x0 <= x /\ x + w <= x1 /\ y0 <= y /\ y + h <= y1)%Z
  | informer_hide => True
  end.

(** The pixel (x, y) has been filled. *)
Definition painted (effects : list effect) (x y : Z) : Prop :=
  exists color, In (fillRect color x y Mandelbrot.ptw Mandelbrot.ptw) effects.

(** The cursor of a session that no exception has interrupted: what [tick]
    leaves in [xcurr], [ycurr] when the loops run to their end. *)
Definition next_cursor (W H xd yd : Z) (cur : cursor) : cursor :=
  if ((W <=? xcurr cur) && (H <=? ycurr cur))%Z then cur
  else
    let cur :=
      if (W <=? xcurr cur)%Z
      then {| xcurr := 0; ycurr := ycurr cur + yd |}
      else cur in
    {| xcurr := xcurr cur + xd; ycurr := ycurr cur |}.

(** The cursors a session started at (0,0) can reach. *)
Definition cursor_ok (s : Mandelbrot.session) (cur : cursor) : Prop :=
  (0 <= xcurr cur < Mandelbrot.xdiff s + Mandelbrot.xd s
   /\ 0 <= ycurr cur < Mandelbrot.ydiff s + Mandelbrot.yd s)%Z.

(** The pixels of the canvas that lie in tiles not painted yet: to the right
    of the cursor in its row of tiles, or in a row below. *)
Definition remaining (s : Mandelbrot.session) (cur : cursor) (x y : Z) : Prop :=
  (0 <= x < Mandelbrot.xdiff s /\ 0 <= y < Mandelbrot.ydiff s
   /\ ((ycurr cur <= y < ycurr cur + Mandelbrot.yd s /\ xcurr cur <= x)
       \/ ycurr cur + Mandelbrot.yd s <= y))%Z.

(** A bound on the number of ticks left, which every tick lowers. *)
Definition ticks_left (s : Mandelbrot.session) (cur : cursor) : Z :=
  ((Mandelbrot.ydiff s + Mandelbrot.yd s - ycurr cur)
   * (Mandelbrot.xdiff s + Mandelbrot.xd s + 1)
   + (Mandelbrot.xdiff s + Mandelbrot.xd s - xcurr cur))%Z.

(** The cursor after [n] ticks that no exception has interrupted. *)
Fixpoint cursor_after (W H xd yd : Z) (n : nat) (cur : cursor) : cursor :=
  match n with
  | O => cur
  | S n' => cursor_after W H xd yd n' (next_cursor W H xd yd cur)
  end.

(** A page on which [graph] has not been called yet. *)
Definition idle : Mandelbrot.host :=
  {| Mandelbrot.timers := [];
     Mandelbrot.next_timer := 0;
     Mandelbrot.global_cursor := {| xcurr := 0; ycurr := 0 |};
     Mandelbrot.log := [] |}.

(** ** Proof steps used more than once *)

(** A string that passes [is_color] or [is_canonical_color] is [#] and six
    characters: the goal is left with the string taken apart. *)
Ltac split_color s :=
  destruct s as [|h s]; [discriminate|];
  destruct (ascii_dec h "#") as [->|Hh];
  [| destruct h as [[] [] [] [] [] [] [] []]; try discriminate;
     exfalso; apply Hh; reflexivity];
  destruct s as [|a1 [|a2 [|a3 [|a4 [|a5 [|a6 [|a7 s]]]]]]]; try discriminate.

(** The conjunction of boolean tests [H] taken apart. *)
Ltac split_tests H := repeat (apply andb_prop in H as [? H]).

(** [rgb] of a seven-character string, by the three pairs of digits. *)
Ltac rgb_by_pairs a1 a2 a3 a4 a5 a6 :=
  change (rgb (String "#" (String a1 (String a2 (String a3 (String a4
                 (String a5 (String a6 EmptyString))))))))
    with (match parseInt16 (String a1 (String a2 EmptyString)),
                parseInt16 (String a3 (String a4 EmptyString)),
                parseInt16 (String a5 (String a6 EmptyString)) with
          | Some r, Some g, Some b => Some (r, g, b)
          | _, _, _ => None
          end).

(** ** Notions used to state further properties of the code *)

(** The complex conjugate and the opposite. *)
Definition conjugate (v : Complex) : Complex :=
  {| imaginary := - imaginary v; real := real v |}.

Definition opposite (v : Complex) : Complex :=
  {| imaginary := - imaginary v; real := - real v |}.

(** The orbit of 0 under z |-> P(z, c): its [k]-th point. *)
Definition orbit (P : Complex -> Complex -> Complex) (c : Complex) (k : nat)
    : Complex :=
  Nat.iter k (fun v => P v c) origin.

(** [v] lies between [v1] and [v2]. *)
Definition between (v1 v2 v : Z) : Prop := (Z.min v1 v2 <= v <= Z.max v1 v2)%Z.

(** From [v] to [v'] a channel moves from [v1] towards [v2], or stays. *)
Definition toward (v1 v2 v v' : Z) : Prop :=
  ((v1 <= v2 -> v <= v') /\ (v2 <= v1 -> v' <= v))%Z.

(** The effect is a [clearRect]: nothing is drawn and nobody is told. *)
Definition is_clearRect (e : effect) : bool :=
  match e with
  | clearRect _ _ _ _ => true
  | _ => false
  end.

(** ** The sweep of the oldest revision, in half pixels *)

(** The Number [a / 2]: the left or upper edge of a square of half a pixel. *)
Definition half (a : Z) : R := IZR a / 2.

(** The square of half a pixel at ([a]/2, [b]/2) has been filled. *)
Definition quarter_painted (effects : list BurningShip.effect) (a b : Z) : Prop :=
  exists color,
    In (BurningShip.fillRect color (half a) (half b) (/ 2) (/ 2)) effects.

(** The squares of the canvas that lie in tiles not painted yet. *)
Definition remaining_half (s : Mandelbrot.session) (cur : cursor) (a b : Z) : Prop :=
  (0 <= a < 2 * Mandelbrot.xdiff s /\ 0 <= b < 2 * Mandelbrot.ydiff s
   /\ ((2 * ycurr cur <= b < 2 * (ycurr cur + Mandelbrot.yd s)
        /\ 2 * xcurr cur <= a)
       \/ 2 * (ycurr cur + Mandelbrot.yd s) <= b))%Z.

Definition is_clearInterval (e : BurningShip.effect) : bool :=
  match e with
  | BurningShip.clearInterval => true
  | _ => false
  end.

(** The call clears a rectangle: nothing is drawn, no timer is cleared. *)
Definition only_clears (e : BurningShip.effect) : bool :=
  match e with
  | BurningShip.clearRect _ _ _ _ => true
  | _ => false
  end.

(** A call that draws does so with a style that is not [undefined]. *)
Definition styled (e : BurningShip.effect) : bool :=
  match e with
  | BurningShip.fillRect None _ _ _ _ => false
  | _ => true
  end.

(** A call that draws in revision 1.0 does so with a colour in the printed
    form [#rrggbb]. *)
Definition canonical_fill (e : effect) : bool :=
  match e with
  | fillRect (Some color) _ _ _ _ => is_canonical_color color
  | fillRect None _ _ _ _ => false
  | _ => true
  end.

(** ** The length of a sweep *)

(** The number of tiles of width [xd] it takes to get to [W] or beyond. *)
Definition tiles_across (W xd : Z) : Z := ((W + xd - 1) / xd)%Z.

(** The number of runs of the callback that paint: one for every tile of
    every row, and one row more than it takes to get to [H]. *)
Definition sweep_ticks (W H xd yd : Z) : Z :=
  (tiles_across W xd * (tiles_across H yd + 1))%Z.

(** The test that opens the callback: [xcurr >= xdiff && ycurr >= ydiff]. *)
Definition past_canvas (W H : Z) (cur : cursor) : bool :=
  ((W <=? xcurr cur) && (H <=? ycurr cur))%Z.

(** ** Two sessions on one page *)

(** The session [graph] sets up for a request. *)
Definition session_of (r : Mandelbrot.request) : Mandelbrot.session :=
  Mandelbrot.graph_session (Mandelbrot.width r) (Mandelbrot.height r)
    (Mandelbrot.req_max_iter r) (Mandelbrot.rxmin r) (Mandelbrot.rxmax r)
    (Mandelbrot.rymin r) (Mandelbrot.rymax r).

(** A request for a canvas of at least 20 by 10 pixels and a region within
    [-3, 3] by [-3, 3]. *)
Definition moderate (r : Mandelbrot.request) : Prop :=
  (20 <= Mandelbrot.width r)%Z /\ (10 <= Mandelbrot.height r)%Z
  /\ -3 <= Mandelbrot.rxmin r /\ Mandelbrot.rxmin r < Mandelbrot.rxmax r
  /\ Mandelbrot.rxmax r <= 3
  /\ -3 <= Mandelbrot.rymin r /\ Mandelbrot.rymin r < Mandelbrot.rymax r
  /\ Mandelbrot.rymax r <= 3.

(** * Theorems *)

(** ** Real-number helpers *)

Lemma Math_floor_eq (x : R) (k : Z) : IZR k <= x < IZR k + 1 -> Math_floor x = k.
Proof. intros H. unfold Math_floor. now apply Zfloor_eq. Qed.

Lemma Math_floor_IZR (k : Z) : Math_floor (IZR k) = k.
Proof. apply Math_floor_eq; lra. Qed.

Lemma Math_round_eq (x : R) (k : Z) :
  IZR k - / 2 <= x < IZR k + / 2 -> Math_round x = k.
Proof. intros H. unfold Math_round. apply Zfloor_eq; lra. Qed.

Lemma Rabs_sqr_eq (x : R) : Rabs x * Rabs x = x * x.
Proof. unfold Rabs; destruct (Rcase_abs x); lra. Qed.

Lemma complex_eq (a b : Complex) :
  real a = real b -> imaginary a = imaginary b -> a = b.
Proof. destruct a, b; simpl; intros -> ->; reflexivity. Qed.

(** ** C1: one step of the iteration *)



(** ** C2: the constant of a pixel *)

Lemma pixel_constant_graph_session (W H : Z) (n : nat)
    (x_min x_max y_min y_max x y : R) :
  let c := Mandelbrot.pixel_constant
             (Mandelbrot.graph_session W H n x_min x_max y_min y_max) x y in
  real c = (x_max - x_min) / IZR W * x - x_max
  /\ imaginary c = (y_max - y_min) / IZR H * y - y_max.
Proof. simpl. split; reflexivity. Qed.

(** C2, as stated, fails: on a 40 by 20 canvas with the region [1,2] x [1,2]
    the pixel (0,0) gets the constant -2 - 2i, left of and below the region. *)
Lemma C2_pixel_constant_counterexample :
  let c := Mandelbrot.pixel_constant
             (Mandelbrot.graph_session 40 20 10 1 2 1 2) 0 0 in
  real c = -2 /\ imaginary c = -2 /\ real c < 1 /\ imaginary c < 1.
Proof.
  simpl. repeat split; lra.
Qed.

Lemma scale_in_range (range w x : R) :
  0 < w -> 0 < range -> 0 <= x < w -> 0 <= range / w * x < range.
Proof.
  intros Hw Hr [Hx0 Hx1].
  assert (Hq : 0 <= x / w < 1).
  { split.
    - apply Rmult_le_pos; [lra | left; now apply Rinv_0_lt_compat].
    - apply (Rmult_lt_reg_r w); [lra |].
      unfold Rdiv. rewrite Rmult_assoc, Rinv_l by lra. lra. }
  replace (range / w * x) with (range * (x / w)) by (field; lra).
  split; [apply Rmult_le_pos; lra | nra].
Qed.

(** C2 (amended): the constant of a pixel is [xf*x - x_max], [yf*y - y_max]:
    it lies in the region mirrored through the origin,
    -x_max <= re c < -x_min and -y_max <= im c < -y_min. *)
Theorem C2_pixel_constant_mirrored_region (W H : Z) (n : nat)
    (x_min x_max y_min y_max x y : R) :
  (0 < W)%Z -> (0 < H)%Z -> x_min < x_max -> y_min < y_max ->
  0 <= x < IZR W -> 0 <= y < IZR H ->
  let c := Mandelbrot.pixel_constant
             (Mandelbrot.graph_session W H n x_min x_max y_min y_max) x y in
  - x_max <= real c < - x_min /\ - y_max <= imaginary c < - y_min.
Proof.
  intros HW HH Hx Hy Hpx Hpy c.
  destruct (pixel_constant_graph_session W H n x_min x_max y_min y_max x y)
    as [Hre Him].
  fold c in Hre, Him. rewrite Hre, Him.
  assert (0 < IZR W) by now apply IZR_lt.
  assert (0 < IZR H) by now apply IZR_lt.
  pose proof (scale_in_range (x_max - x_min) (IZR W) x) as Sx.
  pose proof (scale_in_range (y_max - y_min) (IZR H) y) as Sy.
  lra.
Qed.

Lemma C2_pixel_constant_witness :
  let c := Mandelbrot.pixel_constant
             (Mandelbrot.graph_session 40 20 10 (-1) (5/2) (-1) 1) 39 19 in
  - (5/2) <= real c < - -1 /\ - 1 <= imaginary c < - -1.
Proof.
  apply (C2_pixel_constant_mirrored_region 40 20 10 (-1) (5/2) (-1) 1 39 19);
    try lia; try lra.
Defined.

(** ** C10: the escape-time loop *)

Lemma while_loop_stop (P : Complex -> Complex -> Complex) (fuel n : nat)
    (c : Complex) (st : loop_state) :
  ~ (m st < threshold /\ (count st < n)%nat) -> while_loop P fuel n c st = st.
Proof.
  intros H. destruct fuel as [|fuel]; simpl; [reflexivity|].
  destruct (Rlt_dec (m st) threshold) as [Hm|Hm]; [|reflexivity].
  destruct (Nat.ltb_spec (count st) n) as [Hc|Hc]; [|reflexivity].
  exfalso. apply H. now split.
Qed.

Lemma while_loop_pass (P : Complex -> Complex -> Complex) (fuel n : nat)
    (c : Complex) (st : loop_state) :
  m st < threshold -> (count st < n)%nat ->
  while_loop P (S fuel) n c st
  = while_loop P fuel n c
      {| z := P (z st) c; count := S (count st); m := magnitude2 (P (z st) c) |}.
Proof.
  intros Hm Hc. simpl.
  destruct (Rlt_dec (m st) threshold) as [_|H]; [|contradiction].
  destruct (Nat.ltb_spec (count st) n) as [_|H]; [reflexivity|lia].
Qed.

(** With fuel for the passes that remain, the loop stops because its guard
    is false, not because fuel ran out; [count] only grows and never passes
    [n]. *)
Lemma while_loop_exits (P : Complex -> Complex -> Complex) (fuel n : nat)
    (c : Complex) (st : loop_state) :
  (n <= count st + fuel)%nat -> (count st <= n)%nat ->
  let r := while_loop P fuel n c st in
  ~ (m r < threshold /\ (count r < n)%nat)
  /\ (count st <= count r <= n)%nat.
Proof.
  revert st. induction fuel as [|fuel IH]; intros st Hfuel Hle; simpl.
  - split; [intros [_ H]; lia | lia].
  - destruct (Rlt_dec (m st) threshold) as [Hm|Hm].
    + destruct (Nat.ltb_spec (count st) n) as [Hc|Hc].
      * specialize (IH {| z := P (z st) c; count := S (count st);
                          m := magnitude2 (P (z st) c) |}).
        simpl in IH. destruct IH as [IH1 IH2]; [lia | lia |].
        split; [exact IH1 | lia].
      * split; [intros [_ H]; lia | lia].
    + split; [intros [H _]; contradiction | lia].
Qed.

Lemma escape_exits (P : Complex -> Complex -> Complex) (n : nat) (c : Complex) :
  let r := escape P n c in
  ~ (m r < threshold /\ (count r < n)%nat) /\ (count r <= n)%nat.
Proof.
  pose proof (while_loop_exits P n n c
                {| z := origin; count := 0; m := 0 |}) as H.
  simpl in H. destruct H as [H1 H2]; [lia | lia |].
  split; [exact H1 | unfold escape; lia].
Qed.

(** The loop body runs at least once when [n > 0]: [m] starts at 0. *)
Lemma escape_count_pos (P : Complex -> Complex -> Complex) (n : nat) (c : Complex) :
  (0 < n)%nat -> (1 <= count (escape P n c))%nat.
Proof.
  intros Hn. destruct n as [|n]; [lia|].
  unfold escape. rewrite while_loop_pass; simpl; [| unfold threshold; lra | lia].
  pose proof (while_loop_exits P n (S n) c
                {| z := P origin c; count := 1;
                   m := magnitude2 (P origin c) |}) as H.
  simpl in H. destruct H as [_ H]; lia.
Qed.

(** A point outside the circle of radius 2 escapes in the first pass. *)
Lemma escape_at_once (P : Complex -> Complex -> Complex) (n : nat) (c : Complex) :
  4 <= magnitude2 (P origin c) ->
  escape P (S n) c
  = {| z := P origin c; count := 1; m := magnitude2 (P origin c) |}.
Proof.
  intros H. unfold escape.
  rewrite while_loop_pass; simpl; [| unfold threshold; lra | lia].
  apply while_loop_stop. simpl. unfold threshold. intros [Hm _]. lra.
Qed.

Lemma eval_origin (c : Complex) :
  magnitude2 (Mandelbrot.eval origin c) = magnitude2 c.
Proof.
  unfold Mandelbrot.eval, magnitude2, add, multiply, origin; simpl. ring.
Qed.

Lemma ln_4 : ln 4 = 2 * ln 2.
Proof.
  replace 4 with (2 * 2) by lra. rewrite ln_mult by lra. lra.
Qed.

Lemma ln_2_pos : 0 < ln 2.
Proof. pose proof ln_lt_2. lra. Qed.

Lemma ln_le_mono (x y : R) : 0 < x -> x <= y -> ln x <= ln y.
Proof.
  intros Hx [H| ->]; [left; now apply ln_increasing | right; reflexivity].
Qed.

Lemma Math_log_pos (x : R) : 0 < x -> Math_log x = Some (ln x).
Proof.
  intros H. unfold Math_log. destruct (Rlt_dec 0 x); [reflexivity|contradiction].
Qed.

(** From the threshold on, both logarithms of the smooth colouring have a
    positive argument, and [nu >= 0]. *)
Lemma smooth_logs_defined (x : R) :
  4 <= x ->
  ln 4 <= ln x /\ 1 <= ln x / 2 / Mandelbrot.l2
  /\ 0 <= ln (ln x / 2 / Mandelbrot.l2) / Mandelbrot.l2.
Proof.
  intros H. pose proof ln_2_pos as H2. pose proof ln_4 as H4.
  assert (Hln : ln 4 <= ln x) by (apply ln_le_mono; lra).
  assert (H1 : 1 <= ln x / 2 / Mandelbrot.l2).
  { unfold Mandelbrot.l2.
    apply (Rmult_le_reg_r (ln 2)); [lra|].
    unfold Rdiv. rewrite Rmult_assoc, Rinv_l by lra. lra. }
  repeat split; try assumption.
  unfold Mandelbrot.l2 in *.
  apply Rmult_le_pos; [| left; now apply Rinv_0_lt_compat].
  rewrite <- ln_1. apply ln_le_mono; lra.
Qed.

(** A property that the initial state has and every pass keeps holds when
    the loop stops. *)
Lemma while_loop_invariant (P : Complex -> Complex -> Complex)
    (J : loop_state -> Prop) (n : nat) (c : Complex) :
  (forall st, J st -> m st < threshold -> (count st < n)%nat ->
     J {| z := P (z st) c; count := S (count st); m := magnitude2 (P (z st) c) |}) ->
  forall fuel st, J st -> J (while_loop P fuel n c st).
Proof.
  intros Hstep. induction fuel as [|fuel IH]; intros st HJ; simpl; [exact HJ|].
  destruct (Rlt_dec (m st) threshold) as [Hm|Hm]; [|exact HJ].
  destruct (Nat.ltb_spec (count st) n) as [Hc|Hc]; [|exact HJ].
  apply IH. now apply Hstep.
Qed.

(** The orbit of 0 stays at 0: the loop uses up its [n] passes. *)
Lemma escape_origin (n : nat) :
  count (escape Mandelbrot.eval n origin) = n
  /\ m (escape Mandelbrot.eval n origin) = 0.
Proof.
  set (J := fun st : loop_state =>
              m st = 0 /\ real (z st) = 0 /\ imaginary (z st) = 0).
  assert (HJ : J (escape Mandelbrot.eval n origin)).
  { unfold escape. apply while_loop_invariant.
    - intros st (_ & Hre & Him) _ _. unfold J; simpl.
      unfold magnitude2, Mandelbrot.eval, add, multiply, origin; simpl.
      rewrite Hre, Him. repeat split; ring.
    - unfold J; simpl. repeat split; reflexivity. }
  destruct HJ as (Hm & _).
  destruct (escape_exits Mandelbrot.eval n origin) as [Hexit Hle].
  split; [|exact Hm].
  destruct (Nat.lt_ge_cases (count (escape Mandelbrot.eval n origin)) n)
    as [Hlt|Hge]; [|lia].
  exfalso. apply Hexit. split; [rewrite Hm; unfold threshold; lra | exact Hlt].
Qed.

(** The point 2 is outside at once: one pass, whatever the bound. *)
Lemma escape_two (n : nat) :
  count (escape Mandelbrot.eval (S n) {| imaginary := 0; real := 2 |}) = 1%nat
  /\ m (escape Mandelbrot.eval (S n) {| imaginary := 0; real := 2 |}) = 4.
Proof.
  rewrite escape_at_once.
  - simpl. split; [reflexivity|]. rewrite eval_origin. unfold magnitude2; simpl. lra.
  - rewrite eval_origin. unfold magnitude2; simpl. lra.
Qed.

(** The loop can only stop short of [n] passes on [m >= 4]. *)
Lemma escape_threshold (P : Complex -> Complex -> Complex) (n : nat) (c : Complex) :
  (count (escape P n c) < n)%nat -> 4 <= m (escape P n c).
Proof.
  intros Hcount.
  destruct (escape_exits P n c) as [Hexit _].
  destruct (Rle_dec 4 (m (escape P n c))) as [H|H]; [exact H|].
  exfalso. apply Hexit. split; [unfold threshold; lra | exact Hcount].
Qed.

(** C10: when the loop exits with [count < max_iter], [m >= 4]; hence
    ln m >= ln 4 > 0, and the two logarithms of the smooth colouring are
    taken of positive numbers. *)
Theorem C10_escape_magnitude (c : Complex) (max_iter : nat) :
  let st := escape Mandelbrot.eval max_iter c in
  (count st < max_iter)%nat ->
  4 <= m st
  /\ ln 4 <= ln (m st) /\ 0 < ln 4
  /\ Math_log (m st) = Some (ln (m st))
  /\ Math_log (ln (m st) / 2 / Mandelbrot.l2)
     = Some (ln (ln (m st) / 2 / Mandelbrot.l2)).
Proof.
  intros st Hcount.
  assert (Hm : 4 <= m st) by now apply escape_threshold.
  destruct (smooth_logs_defined (m st) Hm) as (H1 & H2 & _).
  pose proof ln_2_pos. pose proof ln_4.
  repeat split; try assumption; try lra; apply Math_log_pos; lra.
Qed.

Lemma C10_escape_magnitude_witness :
  let st := escape Mandelbrot.eval 100 {| imaginary := 0; real := 2 |} in
  (count st < 100)%nat /\ 4 <= m st.
Proof.
  assert (H : escape Mandelbrot.eval 100 {| imaginary := 0; real := 2 |}
              = {| z := Mandelbrot.eval origin {| imaginary := 0; real := 2 |};
                   count := 1;
                   m := magnitude2
                          (Mandelbrot.eval origin {| imaginary := 0; real := 2 |}) |}).
  { apply (escape_at_once Mandelbrot.eval 99).
    rewrite eval_origin. unfold magnitude2; simpl. lra. }
  assert (Hc : (count (escape Mandelbrot.eval 100 {| imaginary := 0; real := 2 |})
                < 100)%nat) by (rewrite H; simpl; lia).
  split; [exact Hc|].
  exact (proj1 (C10_escape_magnitude {| imaginary := 0; real := 2 |} 100 Hc)).
Defined.

(** ** Colour strings *)

Lemma hex_digit_value_range (c : ascii) (d : Z) :
  hex_digit_value c = Some d -> (0 <= d < 16)%Z.
Proof.
  unfold hex_digit_value.
  set (n := Z.of_nat (nat_of_ascii c)).
  destruct ((48 <=? n)%Z && (n <=? 57)%Z) eqn:E1.
  { intros [= <-]. apply andb_prop in E1 as [A B]. lia. }
  destruct ((97 <=? n)%Z && (n <=? 102)%Z) eqn:E2.
  { intros [= <-]. apply andb_prop in E2 as [A B]. lia. }
  destruct ((65 <=? n)%Z && (n <=? 70)%Z) eqn:E3.
  { intros [= <-]. apply andb_prop in E3 as [A B]. lia. }
  discriminate.
Qed.

Lemma is_hex_digit_value (c : ascii) :
  is_hex_digit c = true -> exists d, hex_digit_value c = Some d /\ (0 <= d < 16)%Z.
Proof.
  unfold is_hex_digit. destruct (hex_digit_value c) as [d|] eqn:E; [|discriminate].
  intros _. exists d. split; [reflexivity | now apply hex_digit_value_range with c].
Qed.

Lemma hex_digit_not_white_space (c : ascii) (d : Z) :
  hex_digit_value c = Some d -> is_white_space c = false.
Proof.
  destruct c as [[] [] [] [] [] [] [] []]; intros H;
    first [reflexivity | discriminate H].
Qed.

(** On a string that starts with a hexadecimal digit and goes on with
    another one, if it goes on, [parseInt] has nothing to skip. *)
Lemma parseInt16_plain (c : ascii) (s : string) (d : Z) :
  hex_digit_value c = Some d ->
  (forall c2 s2, s = String c2 s2 -> is_hex_digit c2 = true) ->
  parseInt16 (String c s)
  = match parse_hex_prefix (String c s) None with
    | Some n => Some (Number_of_integer n)
    | None => None
    end.
Proof.
  intros Hc Hs. unfold parseInt16. cbn [skip_white_space].
  rewrite (hex_digit_not_white_space c d Hc). cbn [read_sign].
  assert (Em : Ascii.eqb c "-" = false)
    by (destruct (Ascii.eqb_spec c "-") as [->|_]; [discriminate | reflexivity]).
  assert (Ep : Ascii.eqb c "+" = false)
    by (destruct (Ascii.eqb_spec c "+") as [->|_]; [discriminate | reflexivity]).
  rewrite Em, Ep.
  assert (E0 : strip_0x (String c s) = String c s).
  { destruct s as [|c2 s2]; [reflexivity|]. cbn [strip_0x].
    specialize (Hs c2 s2 eq_refl).
    assert (Ex : Ascii.eqb c2 "x" = false)
      by (destruct (Ascii.eqb_spec c2 "x") as [->|_]; [discriminate | reflexivity]).
    assert (EX : Ascii.eqb c2 "X" = false)
      by (destruct (Ascii.eqb_spec c2 "X") as [->|_]; [discriminate | reflexivity]).
    rewrite Ex, EX, andb_false_r. reflexivity. }
  rewrite E0.
  destruct (parse_hex_prefix (String c s) None) as [n|]; [|reflexivity].
  now rewrite Z.mul_1_l.
Qed.

Lemma Number_of_integer_small (n : Z) :
  (n < 9007199254740992)%Z -> Number_of_integer n = n.
Proof.
  intros H. unfold Number_of_integer.
  destruct (Z.ltb_spec n 9007199254740992); [reflexivity | lia].
Qed.

Lemma parseInt16_two_digits (a b : ascii) (da db : Z) :
  hex_digit_value a = Some da -> hex_digit_value b = Some db ->
  parseInt16 (String a (String b EmptyString)) = Some (16 * da + db)%Z.
Proof.
  intros Ha Hb.
  pose proof (hex_digit_value_range a da Ha).
  pose proof (hex_digit_value_range b db Hb).
  rewrite (parseInt16_plain a _ da Ha).
  - cbn [parse_hex_prefix]. rewrite Ha, Hb.
    rewrite Number_of_integer_small by lia. f_equal.
  - intros c2 s2 [= <- <-]. unfold is_hex_digit. now rewrite Hb.
Qed.

(** A colour string has three channels, each in 0..255. *)
Lemma is_color_rgb (s : string) :
  is_color s = true ->
  exists r g b, rgb s = Some (r, g, b)
    /\ (0 <= r <= 255)%Z /\ (0 <= g <= 255)%Z /\ (0 <= b <= 255)%Z.
Proof.
  unfold is_color. split_color s.
  simpl. intros H. split_tests H.
  repeat match goal with
         | Hd : is_hex_digit _ = true |- _ =>
             apply is_hex_digit_value in Hd as (? & ? & ?)
         end.
  rgb_by_pairs a1 a2 a3 a4 a5 a6.
  erewrite !parseInt16_two_digits by eassumption.
  do 3 eexists. split; [reflexivity|]. lia.
Qed.

(** Every number in 0..255 prints on two lower-case digits that read back
    as the number. *)
Lemma pad2_toString16_table :
  forallb
    (fun k =>
       let n := Z.of_nat k in
       let s := pad2 (toString16 n) in
       (String.length s =? 2)%nat
       && string_forall is_lower_hex_digit s
       && match parseInt16 s with Some v => (v =? n)%Z | None => false end)
    (seq 0 256) = true.
Proof. vm_compute. reflexivity. Qed.

Lemma pad2_toString16 (n : Z) :
  (0 <= n <= 255)%Z ->
  String.length (pad2 (toString16 n)) = 2%nat
  /\ string_forall is_lower_hex_digit (pad2 (toString16 n)) = true
  /\ parseInt16 (pad2 (toString16 n)) = Some n.
Proof.
  intros Hn.
  pose proof pad2_toString16_table as T.
  rewrite forallb_forall in T.
  specialize (T (Z.to_nat n)).
  rewrite Z2Nat.id in T by lia.
  assert (Hin : In (Z.to_nat n) (seq 0 256)) by (apply in_seq; lia).
  apply T in Hin.
  apply andb_prop in Hin as [Hin H3]. apply andb_prop in Hin as [H1 H2].
  repeat split.
  - now apply Nat.eqb_eq.
  - exact H2.
  - destruct (parseInt16 (pad2 (toString16 n))) as [v|]; [|discriminate].
    apply Z.eqb_eq in H3. now subst.
Qed.

Lemma lower_is_hex_digit (c : ascii) :
  is_lower_hex_digit c = true -> is_hex_digit c = true.
Proof.
  unfold is_lower_hex_digit, is_hex_digit, hex_digit_value.
  set (n := Z.of_nat (nat_of_ascii c)).
  destruct ((48 <=? n)%Z && (n <=? 57)%Z); [reflexivity|].
  destruct ((97 <=? n)%Z && (n <=? 102)%Z); [reflexivity|].
  discriminate.
Qed.

Lemma string_forall_impl (p q : ascii -> bool) (s : string) :
  (forall c, p c = true -> q c = true) ->
  string_forall p s = true -> string_forall q s = true.
Proof.
  intros Hpq. induction s as [|c s IH]; simpl; [reflexivity|].
  intros H. apply andb_prop in H as [H1 H2].
  rewrite (Hpq c H1), (IH H2). reflexivity.
Qed.

Lemma string_forall_app (p : ascii -> bool) (s1 s2 : string) :
  string_forall p (s1 ++ s2) = string_forall p s1 && string_forall p s2.
Proof.
  induction s1 as [|c s1 IH]; simpl; [reflexivity|].
  rewrite IH. now rewrite andb_assoc.
Qed.

Lemma length_two (s : string) :
  String.length s = 2%nat -> exists a b, s = String a (String b EmptyString).
Proof.
  destruct s as [|a [|b [|c s]]]; simpl; try discriminate.
  intros _. now exists a, b.
Qed.

(** The string [#] r g b of three two-digit channels is a colour, and its
    channels read back. *)
Lemma rgb_of_channels (r g b : string) (vr vg vb : Z) :
  String.length r = 2%nat -> String.length g = 2%nat -> String.length b = 2%nat ->
  parseInt16 r = Some vr -> parseInt16 g = Some vg -> parseInt16 b = Some vb ->
  rgb (String "#" (r ++ g ++ b)) = Some (vr, vg, vb).
Proof.
  intros Lr Lg Lb Pr Pg Pb.
  destruct (length_two r Lr) as (r1 & r2 & ->).
  destruct (length_two g Lg) as (g1 & g2 & ->).
  destruct (length_two b Lb) as (b1 & b2 & ->).
  unfold rgb, substring. simpl.
  simpl in Pr, Pg, Pb. rewrite Pr, Pg, Pb. reflexivity.
Qed.

Lemma canonical_of_channels (r g b : string) :
  String.length r = 2%nat -> String.length g = 2%nat -> String.length b = 2%nat ->
  string_forall is_lower_hex_digit r = true ->
  string_forall is_lower_hex_digit g = true ->
  string_forall is_lower_hex_digit b = true ->
  is_canonical_color (String "#" (r ++ g ++ b)) = true.
Proof.
  intros Lr Lg Lb Hr Hg Hb.
  unfold is_canonical_color.
  rewrite !string_forall_app, Hr, Hg, Hb.
  destruct (length_two r Lr) as (r1 & r2 & ->).
  destruct (length_two g Lg) as (g1 & g2 & ->).
  destruct (length_two b Lb) as (b1 & b2 & ->).
  reflexivity.
Qed.

Lemma canonical_is_color (s : string) :
  is_canonical_color s = true -> is_color s = true.
Proof.
  unfold is_canonical_color, is_color.
  destruct s as [|h s]; [discriminate|].
  destruct h as [[] [] [] [] [] [] [] []]; try discriminate.
  intros H. apply andb_prop in H as [H1 H2].
  rewrite H1. simpl.
  exact (string_forall_impl _ _ _ lower_is_hex_digit H2).
Qed.

(** ** [linear_interpolate] *)

Lemma linear_interpolate_eq (color1 color2 : string) (r1 g1 b1 r2 g2 b2 : Z)
    (t : R) :
  rgb color1 = Some (r1, g1, b1) -> rgb color2 = Some (r2, g2, b2) ->
  Mandelbrot.linear_interpolate color1 color2 t
  = String "#" (pad2 (toString16 (floor_lerp r1 r2 t))
                ++ pad2 (toString16 (floor_lerp g1 g2 t))
                ++ pad2 (toString16 (floor_lerp b1 b2 t))).
Proof.
  unfold rgb. intros H1 H2.
  destruct (parseInt16 (substring color1 1 3)) as [x1|] eqn:E1; [|discriminate].
  destruct (parseInt16 (substring color1 3 5)) as [y1|] eqn:E2; [|discriminate].
  destruct (parseInt16 (substring color1 5 7)) as [z1|] eqn:E3; [|discriminate].
  destruct (parseInt16 (substring color2 1 3)) as [x2|] eqn:F1; [|discriminate].
  destruct (parseInt16 (substring color2 3 5)) as [y2|] eqn:F2; [|discriminate].
  destruct (parseInt16 (substring color2 5 7)) as [z2|] eqn:F3; [|discriminate].
  injection H1 as -> -> ->. injection H2 as -> -> ->.
  unfold Mandelbrot.linear_interpolate, Mandelbrot.channel.
  rewrite E1, E2, E3, F1, F2, F3. reflexivity.
Qed.

Lemma floor_lerp_eq (v1 v2 k : Z) (t : R) :
  (0 <= k)%Z ->
  IZR k <= IZR v1 + t * (IZR v2 - IZR v1) < IZR k + 1 ->
  floor_lerp v1 v2 t = k.
Proof.
  intros Hk H. unfold floor_lerp.
  assert (0 <= IZR k) by now apply IZR_le.
  rewrite Rabs_right by lra. now apply Math_floor_eq.
Qed.

(** For a weight in [0,1] the channel lies between the two channels. *)
Lemma floor_lerp_range (v1 v2 : Z) (t : R) :
  (0 <= v1 <= 255)%Z -> (0 <= v2 <= 255)%Z -> 0 <= t <= 1 ->
  (0 <= floor_lerp v1 v2 t <= 255)%Z.
Proof.
  intros H1 H2 Ht. unfold floor_lerp, Math_floor.
  assert (A1 : 0 <= IZR v1 <= 255) by (split; apply IZR_le; lia).
  assert (A2 : 0 <= IZR v2 <= 255) by (split; apply IZR_le; lia).
  set (x := IZR v1 + t * (IZR v2 - IZR v1)).
  assert (Hx : 0 <= x <= 255) by (unfold x; nra).
  rewrite Rabs_right by lra.
  split.
  - apply Zfloor_lub. simpl. lra.
  - pose proof (Zfloor_bound x) as [Hb _].
    apply le_IZR. lra.
Qed.

Lemma floor_lerp_same (v : Z) (t : R) : (0 <= v)%Z -> floor_lerp v v t = v.
Proof.
  intros Hv. apply floor_lerp_eq; [exact Hv | lra].
Qed.

Lemma floor_lerp_0 (v1 v2 : Z) : (0 <= v1)%Z -> floor_lerp v1 v2 0 = v1.
Proof.
  intros Hv. apply floor_lerp_eq; [exact Hv | lra].
Qed.

Lemma floor_lerp_1 (v1 v2 : Z) : (0 <= v2)%Z -> floor_lerp v1 v2 1 = v2.
Proof.
  intros Hv. apply floor_lerp_eq; [exact Hv | lra].
Qed.

(** The result for three channels in 0..255: a canonical colour with these
    channels. *)
Lemma color_of_channels (r g b : Z) :
  (0 <= r <= 255)%Z -> (0 <= g <= 255)%Z -> (0 <= b <= 255)%Z ->
  let c := String "#" (pad2 (toString16 r) ++ pad2 (toString16 g)
                       ++ pad2 (toString16 b)) in
  is_canonical_color c = true /\ rgb c = Some (r, g, b).
Proof.
  intros Hr Hg Hb c.
  destruct (pad2_toString16 r Hr) as (Lr & Cr & Pr).
  destruct (pad2_toString16 g Hg) as (Lg & Cg & Pg).
  destruct (pad2_toString16 b Hb) as (Lb & Cb & Pb).
  split.
  - now apply canonical_of_channels.
  - now apply rgb_of_channels.
Qed.

Lemma lower_hex_digit_value (a : ascii) :
  is_lower_hex_digit a = true ->
  exists d, hex_digit_value a = Some d /\ hex_digit d = a /\ (0 <= d < 16)%Z.
Proof.
  destruct a as [[] [] [] [] [] [] [] []]; intros H; vm_compute in H;
    try discriminate H;
    match goal with
    | |- exists d, hex_digit_value ?a = _ /\ _ =>
        let v := eval vm_compute in (hex_digit_value a) in
        match v with
        | Some ?d => exists d; split; [reflexivity | split; [reflexivity | lia]]
        end
    end.
Qed.

Lemma pad2_hex_digits_table :
  forallb
    (fun d1 =>
       forallb
         (fun d2 =>
            String.eqb
              (pad2 (toString16 (16 * Z.of_nat d1 + Z.of_nat d2)))
              (String (hex_digit (Z.of_nat d1))
                 (String (hex_digit (Z.of_nat d2)) EmptyString)))
         (seq 0 16))
    (seq 0 16) = true.
Proof. vm_compute. reflexivity. Qed.

Lemma pad2_hex_digits (d1 d2 : Z) :
  (0 <= d1 < 16)%Z -> (0 <= d2 < 16)%Z ->
  pad2 (toString16 (16 * d1 + d2))
  = String (hex_digit d1) (String (hex_digit d2) EmptyString).
Proof.
  intros H1 H2.
  pose proof pad2_hex_digits_table as T.
  rewrite forallb_forall in T.
  specialize (T (Z.to_nat d1)).
  rewrite forallb_forall in T.
  assert (I1 : In (Z.to_nat d1) (seq 0 16)) by (apply in_seq; lia).
  assert (I2 : In (Z.to_nat d2) (seq 0 16)) by (apply in_seq; lia).
  specialize (T I1 (Z.to_nat d2) I2).
  rewrite !Z2Nat.id in T by lia.
  now apply String.eqb_eq.
Qed.

Lemma Some_triple_inj (a b c a' b' c' : Z) :
  Some (a, b, c) = Some (a', b', c') -> a = a' /\ b = b' /\ c = c'.
Proof. intros [= -> -> ->]. now repeat split. Qed.

(** A canonical colour is the print of its channels. *)
Lemma canonical_color_print (c : string) (r g b : Z) :
  is_canonical_color c = true -> rgb c = Some (r, g, b) ->
  c = String "#" (pad2 (toString16 r) ++ pad2 (toString16 g)
                  ++ pad2 (toString16 b)).
Proof.
  unfold is_canonical_color. split_color c.
  simpl. intros H. split_tests H.
  repeat match goal with
         | Hd : is_lower_hex_digit _ = true |- _ =>
             apply lower_hex_digit_value in Hd as (? & ? & ? & ?)
         end.
  rgb_by_pairs a1 a2 a3 a4 a5 a6.
  erewrite !parseInt16_two_digits by eassumption.
  intros E. apply Some_triple_inj in E as (<- & <- & <-).
  rewrite !pad2_hex_digits by assumption.
  cbn [append]. congruence.
Qed.

(** C8: interpolating a colour with itself returns it, weight 0 returns the
    first colour and weight 1 the second: channel by channel for colour
    strings of either case, and as strings for colours in the lower-case form
    that the program prints. *)
Theorem C8_interpolate_identities (c a b : string) (t : R) :
  is_color c = true -> is_color a = true -> is_color b = true ->
  0 <= t <= 1 ->
  rgb (Mandelbrot.linear_interpolate c c t) = rgb c
  /\ rgb (Mandelbrot.linear_interpolate a b 0) = rgb a
  /\ rgb (Mandelbrot.linear_interpolate a b 1) = rgb b
  /\ (is_canonical_color c = true -> Mandelbrot.linear_interpolate c c t = c)
  /\ (is_canonical_color a = true -> Mandelbrot.linear_interpolate a b 0 = a)
  /\ (is_canonical_color b = true -> Mandelbrot.linear_interpolate a b 1 = b).
Proof.
  intros Hc Ha Hb Ht.
  destruct (is_color_rgb c Hc) as (rc & gc & bc & Ec & Hrc & Hgc & Hbc).
  destruct (is_color_rgb a Ha) as (ra & ga & ba & Ea & Hra & Hga & Hba).
  destruct (is_color_rgb b Hb) as (rb & gb & bb & Eb & Hrb & Hgb & Hbb).
  rewrite (linear_interpolate_eq c c _ _ _ _ _ _ t Ec Ec).
  rewrite (linear_interpolate_eq a b _ _ _ _ _ _ 0 Ea Eb).
  rewrite (linear_interpolate_eq a b _ _ _ _ _ _ 1 Ea Eb).
  rewrite !floor_lerp_same, !floor_lerp_0, !floor_lerp_1 by lia.
  rewrite Ec, Ea, Eb.
  repeat split.
  - now apply color_of_channels.
  - now apply color_of_channels.
  - now apply color_of_channels.
  - intros K. symmetry. now apply canonical_color_print.
  - intros K. symmetry. now apply canonical_color_print.
  - intros K. symmetry. now apply canonical_color_print.
Qed.

Lemma C8_interpolate_identities_witness :
  rgb (Mandelbrot.linear_interpolate "#ccaa66" "#ccaa66" (/ 3)) = rgb "#ccaa66"
  /\ rgb (Mandelbrot.linear_interpolate "#773399" "#CCAA66" 0) = rgb "#773399"
  /\ rgb (Mandelbrot.linear_interpolate "#773399" "#CCAA66" 1) = rgb "#CCAA66"
  /\ (is_canonical_color "#ccaa66" = true ->
      Mandelbrot.linear_interpolate "#ccaa66" "#ccaa66" (/ 3) = "#ccaa66"%string)
  /\ (is_canonical_color "#773399" = true ->
      Mandelbrot.linear_interpolate "#773399" "#CCAA66" 0 = "#773399"%string)
  /\ (is_canonical_color "#CCAA66" = true ->
      Mandelbrot.linear_interpolate "#773399" "#CCAA66" 1 = "#CCAA66"%string).
Proof.
  apply (C8_interpolate_identities "#ccaa66" "#773399" "#CCAA66" (/ 3));
    try reflexivity; lra.
Defined.

(** ** Arrays and the palette *)

Lemma array_set_length (a : Array) (i : nat) (v : string) :
  List.length (array_set a i v) = Nat.max (List.length a) (S i).
Proof.
  revert a. induction i as [|i IH]; intros [|h t]; simpl; rewrite ?IH; simpl; lia.
Qed.

Lemma array_set_nth_same (a : Array) (i : nat) (v : string) :
  nth_error (array_set a i v) i = Some (Some v).
Proof.
  revert a. induction i as [|i IH]; intros [|h t]; simpl; auto.
Qed.

Lemma array_set_nth_other (a : Array) (i j : nat) (v : string) :
  i <> j -> (j < List.length a)%nat ->
  nth_error (array_set a i v) j = nth_error a j.
Proof.
  revert a j. induction i as [|i IH]; intros [|h t] [|j] Hij Hj; simpl in *;
    try lia; try reflexivity.
  apply IH; lia.
Qed.

Lemma array_get_nat (a : Array) (i : nat) :
  array_get a (Z.of_nat i)
  = match nth_error a i with Some (Some v) => Some v | _ => None end.
Proof.
  unfold array_get.
  destruct (Z.ltb_spec (Z.of_nat i) 0) as [H|H]; [lia|].
  now rewrite Nat2Z.id.
Qed.

(** The loop [for (i = 0; i < k; i++) colors[i] = f(i)] on an array that
    has room for it. *)
Lemma fill_loop (f : nat -> string) (k : nat) (a : Array) :
  (k <= List.length a)%nat ->
  let a' := fold_left (fun colors i => array_set colors i (f i)) (seq 0 k) a in
  List.length a' = List.length a
  /\ (forall i, (i < k)%nat -> nth_error a' i = Some (Some (f i)))
  /\ (forall j, (k <= j)%nat -> nth_error a' j = nth_error a j).
Proof.
  induction k as [|k IH]; intros Hk.
  - simpl. repeat split; [intros i Hi; lia].
  - cbv zeta. rewrite seq_S, fold_left_app. cbn [fold_left Nat.add].
    destruct IH as (L & Hin & Hout); [lia|].
    set (a' := fold_left _ (seq 0 k) a) in *.
    repeat split.
    + rewrite array_set_length. lia.
    + intros i Hi. destruct (Nat.eq_dec i k) as [->|Hne].
      * apply array_set_nth_same.
      * rewrite array_set_nth_other by lia. apply Hin. lia.
    + intros j Hj. destruct (Nat.lt_ge_cases j (List.length a)) as [Hlt|Hge].
      * rewrite array_set_nth_other by lia. apply Hout. lia.
      * assert (Hn : nth_error a j = None) by now apply nth_error_None.
        rewrite Hn. apply nth_error_None. rewrite array_set_length. lia.
Qed.

(** An array built as [palette] builds it: [n + 1] entries, none a hole,
    the last one black. *)
Lemma palette_shape (f : nat -> string) (n : nat) :
  let colors :=
    array_set (fold_left (fun colors i => array_set colors i (f i)) (seq 0 n)
                 (new_Array (n + 1))) n "#000000" in
  List.length colors = (n + 1)%nat
  /\ array_get colors (Z.of_nat n) = Some "#000000"%string
  /\ (forall i, (i < n)%nat -> array_get colors (Z.of_nat i) = Some (f i)).
Proof.
  intros colors.
  destruct (fill_loop f n (new_Array (n + 1))) as (L & Hin & Hout).
  { unfold new_Array. rewrite repeat_length. lia. }
  assert (Lr : List.length (new_Array (n + 1)) = (n + 1)%nat)
    by apply repeat_length.
  rewrite Lr in L.
  repeat split.
  - unfold colors. rewrite array_set_length, L. lia.
  - rewrite array_get_nat. unfold colors. now rewrite array_set_nth_same.
  - intros i Hi. rewrite array_get_nat. unfold colors.
    rewrite array_set_nth_other by lia. now rewrite Hin.
Qed.

Lemma palette_black (n : nat) :
  array_get (Mandelbrot.palette n) (Z.of_nat n) = Some "#000000"%string.
Proof. apply (palette_shape _ n). Qed.

(** ** C3: the colour of a point *)

(** From the threshold on, the smooth branch of the code is the smooth
    colouring of the specification. *)
Lemma pixel_color_smooth (colors : Array) (max_iter count : nat) (m : R) :
  (count + 1 < max_iter)%nat -> 4 <= m ->
  Mandelbrot.pixel_color colors max_iter count m = smooth_color colors count m.
Proof.
  intros Hc Hm. unfold Mandelbrot.pixel_color.
  destruct (Z.ltb_spec (Z.of_nat count) (Z.of_nat max_iter - 1)) as [_|H]; [|lia].
  destruct (smooth_logs_defined m Hm) as (_ & H1 & _).
  rewrite Math_log_pos by lra.
  rewrite Math_log_pos by lra.
  reflexivity.
Qed.

Lemma pixel_color_plain (colors : Array) (max_iter count : nat) (m : R) :
  (max_iter <= count + 1)%nat ->
  Mandelbrot.pixel_color colors max_iter count m
  = Normal (array_get colors (Z.of_nat count)).
Proof.
  intros Hc. unfold Mandelbrot.pixel_color.
  destruct (Z.ltb_spec (Z.of_nat count) (Z.of_nat max_iter - 1)) as [H|_]; [lia|].
  reflexivity.
Qed.

Lemma sin_PI2_weight : sin (INR 1 * (PI / (2 * Rmax 1 (INR 2 - 1)))) = 1.
Proof.
  simpl INR. replace (1 + 1 - 1) with 1 by lra.
  rewrite Rmax_left by lra.
  replace (1 * (PI / (2 * 1))) with (PI / 2) by field.
  apply sin_PI2.
Qed.

Lemma palette_2_entries :
  array_get (Mandelbrot.palette 2) 1 = Some "#ccaa66"%string
  /\ array_get (Mandelbrot.palette 2) 2 = Some "#000000"%string
  /\ array_get (Mandelbrot.palette 2) 3 = None.
Proof.
  pose proof (palette_shape
                (fun i => Mandelbrot.linear_interpolate Mandelbrot.end_color
                            Mandelbrot.mid_color
                            (sin (INR i * (PI / (2 * Rmax 1 (INR 2 - 1))))))
                2) as (L & B & E).
  fold (Mandelbrot.palette 2) in L, B, E.
  split; [|split].
  - change 1%Z with (Z.of_nat 1). rewrite (E 1%nat) by lia.
    rewrite sin_PI2_weight.
    rewrite (linear_interpolate_eq _ _ 119 51 153 204 170 102) by reflexivity.
    rewrite !floor_lerp_1 by lia. reflexivity.
  - exact B.
  - unfold array_get. simpl Z.ltb. cbv iota.
    replace (nth_error (Mandelbrot.palette 2) (Z.to_nat 3)) with (@None (option string));
      [reflexivity|].
    symmetry. apply nth_error_None. rewrite L. simpl. lia.
Qed.

Lemma normalized_iteration_count_4 (count : nat) :
  normalized_iteration_count count 4 = INR count + 1.
Proof.
  unfold normalized_iteration_count.
  pose proof ln_2_pos. rewrite ln_4.
  replace (2 * ln 2 / 2 / ln 2) with 1 by (field; lra).
  rewrite ln_1. lra.
Qed.

(** C3, as stated, fails at [count = max_iter - 1]: with [max_iter = 2] the
    point c = 2 escapes in the first pass with m = 4, so [count = 1 < 2];
    the code paints the palette entry 1 as it is, where the smooth colouring
    would read the entries 2 and 3 and find no entry 3. *)
Lemma C3_smooth_guard_counterexample :
  let st := escape Mandelbrot.eval 2 {| imaginary := 0; real := 2 |} in
  count st = 1%nat /\ m st = 4
  /\ Mandelbrot.pixel_color (Mandelbrot.palette 2) 2 1 4
     = Normal (Some "#ccaa66"%string)
  /\ smooth_color (Mandelbrot.palette 2) 1 4 = Throw.
Proof.
  assert (H : escape Mandelbrot.eval 2 {| imaginary := 0; real := 2 |}
              = {| z := Mandelbrot.eval origin {| imaginary := 0; real := 2 |};
                   count := 1;
                   m := magnitude2
                          (Mandelbrot.eval origin {| imaginary := 0; real := 2 |}) |}).
  { apply (escape_at_once Mandelbrot.eval 1).
    rewrite eval_origin. unfold magnitude2; simpl. lra. }
  destruct palette_2_entries as (E1 & E2 & E3).
  cbv zeta. rewrite H. simpl count. simpl m. rewrite eval_origin.
  repeat split.
  - unfold magnitude2; simpl. lra.
  - rewrite pixel_color_plain by lia. simpl Z.of_nat. now rewrite E1.
  - unfold smooth_color. rewrite normalized_iteration_count_4.
    simpl INR. replace (1 + 1) with (IZR 2) by lra.
    rewrite Math_floor_IZR. simpl Z.add. now rewrite E2, E3.
Qed.

(** C3 (amended): the smooth colouring is taken when
    [count < max_iter - 1]; for [count = max_iter - 1] and for
    [count = max_iter] the colour is the palette entry [count] as it is,
    which for [count = max_iter] is the reserved black. *)
Theorem C3_pixel_color_paths (W H : Z) (n : nat) (x_min x_max y_min y_max : R)
    (x y : Z) :
  let s := Mandelbrot.graph_session W H n x_min x_max y_min y_max in
  let st := escape Mandelbrot.eval n (Mandelbrot.pixel_constant s (IZR x) (IZR y)) in
  Mandelbrot.pixel s x y
  = (if (count st + 1 <? n)%nat
     then smooth_color (Mandelbrot.palette n) (count st) (m st)
     else Normal (array_get (Mandelbrot.palette n) (Z.of_nat (count st))))
  /\ (count st = n -> Mandelbrot.pixel s x y = Normal (Some "#000000"%string)).
Proof.
  intros s st. unfold Mandelbrot.pixel.
  change (Mandelbrot.max_iter s) with n.
  change (Mandelbrot.colors s) with (Mandelbrot.palette n).
  fold st.
  split.
  - destruct (Nat.ltb_spec (count st + 1) n) as [Hc|Hc].
    + apply pixel_color_smooth; [exact Hc|].
      apply escape_threshold. fold st. lia.
    + now apply pixel_color_plain.
  - intros E. rewrite pixel_color_plain by lia. rewrite E.
    f_equal. apply palette_black.
Qed.

Lemma ln_pow_2 (k : nat) : ln (2 ^ k) = INR k * ln 2.
Proof. apply ln_pow. lra. Qed.

(** [nu >= 0] from the threshold on: [it <= count + 1]. *)
Lemma normalized_iteration_count_le (count : nat) (m : R) :
  4 <= m -> normalized_iteration_count count m <= INR count + 1.
Proof.
  intros Hm. unfold normalized_iteration_count.
  destruct (smooth_logs_defined m Hm) as (_ & _ & H).
  unfold Mandelbrot.l2 in H. lra.
Qed.

(** The double logarithm against [count + 1]: [nu] compares with
    [count + 1] as [m] compares with [4^(2^(count+1))]. *)
Lemma double_log_bound (count : nat) (m : R) :
  4 <= m ->
  (m <= 4 ^ (2 ^ (count + 1))%nat ->
     ln (ln m / 2 / ln 2) / ln 2 <= INR count + 1)
  /\ (4 ^ (2 ^ (count + 1))%nat < m ->
     INR count + 1 < ln (ln m / 2 / ln 2) / ln 2).
Proof.
  intros Hm. pose proof ln_2_pos as H2. pose proof ln_4 as H4.
  destruct (smooth_logs_defined m Hm) as (_ & H1 & _).
  unfold Mandelbrot.l2 in H1.
  set (N := (2 ^ (count + 1))%nat).
  assert (HN : INR N = 2 ^ (count + 1)).
  { unfold N. rewrite pow_INR. reflexivity. }
  assert (HlnN : ln (INR N) = (INR count + 1) * ln 2).
  { rewrite HN, ln_pow_2, plus_INR. simpl INR. reflexivity. }
  assert (HNpos : 0 < INR N).
  { rewrite HN. apply pow_lt. lra. }
  assert (Hpow : ln (4 ^ N) = INR N * (2 * ln 2)).
  { rewrite ln_pow by lra. now rewrite H4. }
  assert (Hpos : 0 < 4 ^ N) by (apply pow_lt; lra).
  assert (Hscale : forall y, y / 2 / ln 2 * ln 2 = y / 2) by (intros; field; lra).
  assert (Hcancel : forall y, y / ln 2 * ln 2 = y) by (intros; field; lra).
  split; intros Hb.
  - assert (Hle : ln m <= ln (4 ^ N)) by (apply ln_le_mono; lra).
    assert (Hq : ln m / 2 / ln 2 <= INR N).
    { apply (Rmult_le_reg_r (ln 2)); [lra|]. rewrite Hscale. lra. }
    assert (Hl : ln (ln m / 2 / ln 2) <= ln (INR N)) by (apply ln_le_mono; lra).
    apply (Rmult_le_reg_r (ln 2)); [lra|].
    rewrite Hcancel. lra.
  - assert (Hlt : ln (4 ^ N) < ln m) by (apply ln_increasing; lra).
    assert (Hq : INR N < ln m / 2 / ln 2).
    { apply (Rmult_lt_reg_r (ln 2)); [lra|]. rewrite Hscale. lra. }
    assert (Hl : ln (INR N) < ln (ln m / 2 / ln 2)) by (apply ln_increasing; lra).
    apply (Rmult_lt_reg_r (ln 2)); [lra|].
    rewrite Hcancel. lra.
Qed.

Lemma Rmod1_range (x : R) : 0 <= x -> 0 <= Rmod1 x < 1.
Proof.
  intros Hx. unfold Rmod1, Ztrunc.
  destruct (Rle_dec 0 x) as [_|H]; [|contradiction].
  pose proof (Zfloor_bound x). lra.
Qed.

(** The weights of the palette lie in [0,1]. *)
Lemma palette_weight_range (n i : nat) :
  (i < n)%nat -> 0 <= sin (INR i * (PI / (2 * Rmax 1 (INR n - 1)))) <= 1.
Proof.
  intros Hi. pose proof PI_RGT_0 as Hpi.
  set (d := Rmax 1 (INR n - 1)).
  assert (Hd1 : 1 <= d) by apply Rmax_l.
  assert (Hd2 : INR n - 1 <= d) by apply Rmax_r.
  assert (Hi0 : 0 <= INR i) by apply pos_INR.
  assert (Hin : INR i <= INR n - 1).
  { assert (Hs : (S i <= n)%nat) by lia.
    apply le_INR in Hs. rewrite S_INR in Hs. lra. }
  assert (Hq : 0 <= INR i / d <= 1).
  { split.
    - apply Rmult_le_pos; [lra | left; apply Rinv_0_lt_compat; lra].
    - apply (Rmult_le_reg_r d); [lra|].
      unfold Rdiv. rewrite Rmult_assoc, Rinv_l by lra. lra. }
  replace (INR i * (PI / (2 * d))) with (INR i / d * (PI / 2)) by (field; lra).
  split.
  - apply sin_ge_0; nra.
  - apply SIN_bound.
Qed.

Lemma linear_interpolate_canonical (color1 color2 : string) (t : R) :
  is_color color1 = true -> is_color color2 = true -> 0 <= t <= 1 ->
  is_canonical_color (Mandelbrot.linear_interpolate color1 color2 t) = true.
Proof.
  intros H1 H2 Ht.
  destruct (is_color_rgb color1 H1) as (r1 & g1 & b1 & E1 & Hr1 & Hg1 & Hb1).
  destruct (is_color_rgb color2 H2) as (r2 & g2 & b2 & E2 & Hr2 & Hg2 & Hb2).
  rewrite (linear_interpolate_eq color1 color2 _ _ _ _ _ _ t E1 E2).
  apply color_of_channels; now apply floor_lerp_range.
Qed.

(** Every entry of the palette is a colour in the printed form. *)
Lemma palette_entries (n i : nat) :
  (i <= n)%nat ->
  exists color, array_get (Mandelbrot.palette n) (Z.of_nat i) = Some color
                /\ is_canonical_color color = true.
Proof.
  intros Hi.
  pose proof (palette_shape
                (fun i => Mandelbrot.linear_interpolate Mandelbrot.end_color
                            Mandelbrot.mid_color
                            (sin (INR i * (PI / (2 * Rmax 1 (INR n - 1))))))
                n) as (_ & B & E).
  fold (Mandelbrot.palette n) in B, E.
  destruct (Nat.eq_dec i n) as [->|Hne].
  - exists "#000000"%string. split; [exact B | reflexivity].
  - eexists. split; [apply E; lia|].
    apply linear_interpolate_canonical; try reflexivity.
    apply palette_weight_range. lia.
Qed.

(** ** C9: the entries of the palettes *)





Lemma array_get_negative (a : Array) (i : Z) : (i < 0)%Z -> array_get a i = None.
Proof.
  intros H. unfold array_get.
  destruct (Z.ltb_spec i 0); [reflexivity | lia].
Qed.

Lemma normalized_iteration_count_262144 :
  -2 <= normalized_iteration_count 1 262144 < -1.
Proof.
  unfold normalized_iteration_count. pose proof ln_2_pos as H2.
  replace 262144 with (2 ^ 18) by (simpl; lra).
  rewrite ln_pow_2.
  replace (INR 18 * ln 2 / 2 / ln 2) with 9 by (simpl; field; lra).
  assert (H8 : ln (2 ^ 3) < ln 9) by (apply ln_increasing; simpl; lra).
  assert (H16 : ln 9 <= ln (2 ^ 4)) by (apply ln_le_mono; simpl; lra).
  rewrite ln_pow_2 in H8, H16. simpl INR in *.
  assert (Hq : 3 < ln 9 / ln 2 <= 4).
  { split.
    - apply (Rmult_lt_reg_r (ln 2)); [lra|].
      unfold Rdiv. rewrite Rmult_assoc, Rinv_l by lra. lra.
    - apply (Rmult_le_reg_r (ln 2)); [lra|].
      unfold Rdiv. rewrite Rmult_assoc, Rinv_l by lra. lra. }
  lra.
Qed.

(** Within the bound [m <= 4^(2^(count+1))] the smooth colouring reads two
    palette entries and blends them. *)
Lemma smooth_color_defined (max_iter count : nat) (m : R) :
  (count + 1 < max_iter)%nat -> 4 <= m -> m <= 4 ^ (2 ^ (count + 1))%nat ->
  let it := normalized_iteration_count count m in
  (0 <= Math_floor it)%Z /\ (Math_floor it + 1 <= Z.of_nat max_iter)%Z
  /\ exists color color2,
       array_get (Mandelbrot.palette max_iter) (Math_floor it) = Some color
       /\ array_get (Mandelbrot.palette max_iter) (Math_floor it + 1)
          = Some color2
       /\ Mandelbrot.pixel_color (Mandelbrot.palette max_iter) max_iter count m
          = Normal (Some (Mandelbrot.linear_interpolate color color2 (Rmod1 it)))
       /\ is_canonical_color
            (Mandelbrot.linear_interpolate color color2 (Rmod1 it)) = true.
Proof.
  intros Hc Hm Hb it.
  pose proof (normalized_iteration_count_le count m Hm) as Hle. fold it in Hle.
  destruct (double_log_bound count m Hm) as [Hin _]. specialize (Hin Hb).
  assert (Hup : (Math_floor it <= Z.of_nat count + 1)%Z).
  { unfold Math_floor.
    replace (Z.of_nat count + 1)%Z with (Zfloor (IZR (Z.of_nat count + 1)))
      by apply ZfloorZ.
    apply Zfloor_le. rewrite plus_IZR, <- INR_IZR_INZ. exact Hle. }
  assert (H0 : 0 <= it) by (unfold it, normalized_iteration_count; lra).
  assert (Hlo : (0 <= Math_floor it)%Z) by (apply Zfloor_lub; simpl; exact H0).
  split; [exact Hlo|]. split; [lia|].
  destruct (palette_entries max_iter (Z.to_nat (Math_floor it)))
    as (color & E1 & C1); [lia|].
  destruct (palette_entries max_iter (Z.to_nat (Math_floor it + 1)))
    as (color2 & E2 & C2); [lia|].
  rewrite Z2Nat.id in E1, E2 by lia.
  exists color, color2.
  rewrite pixel_color_smooth by assumption.
  unfold smooth_color. fold it. rewrite E1, E2.
  repeat split.
  apply linear_interpolate_canonical; try now apply canonical_is_color.
  pose proof (Rmod1_range it H0). lra.
Qed.

(** ** Points that always get a colour *)

Lemma magnitude2_eval_le (v c : Complex) :
  magnitude2 (Mandelbrot.eval v c)
  <= 2 * (magnitude2 v * magnitude2 v) + 2 * magnitude2 c.
Proof.
  unfold Mandelbrot.eval, magnitude2, add, multiply; simpl.
  set (r := real v). set (i := imaginary v).
  set (a := real c). set (b := imaginary c).
  assert (H1 : 0 <= (b - (r * i + i * r)) * (b - (r * i + i * r)))
    by apply Rle_0_sqr.
  assert (H2 : 0 <= (a - (r * r - i * i)) * (a - (r * r - i * i)))
    by apply Rle_0_sqr.
  nra.
Qed.

(** For a constant of modulus at most 16, an escape leaves [m] within the
    bound under which the smooth colouring has its indices in range. *)
Lemma escape_magnitude_bound (n : nat) (c : Complex) :
  magnitude2 c <= 256 ->
  let st := escape Mandelbrot.eval n c in
  (1 <= count st)%nat -> m st <= 4 ^ (2 ^ (count st + 1))%nat.
Proof.
  intros Hc st.
  set (J := fun st : loop_state =>
              m st = magnitude2 (z st)
              /\ ((count st = 0%nat /\ z st = origin)
                  \/ (count st = 1%nat /\ m st = magnitude2 c)
                  \/ ((2 <= count st)%nat /\ m st <= 544))).
  assert (HJ : J st).
  { unfold st, escape. apply while_loop_invariant.
    - intros st0 (Hm & Hcases) Hlt _. unfold J; simpl. split; [reflexivity|].
      destruct Hcases as [[H0 Hz]|[[H1 _]|[H2 _]]].
      + right; left. rewrite H0, Hz. split; [reflexivity | apply eval_origin].
      + right; right. split; [lia|].
        pose proof (magnitude2_eval_le (z st0) c) as Hle.
        rewrite <- Hm in Hle. unfold threshold in Hlt.
        assert (0 <= m st0).
        { rewrite Hm. unfold magnitude2.
          pose proof (Rle_0_sqr (imaginary (z st0))).
          pose proof (Rle_0_sqr (real (z st0))). unfold Rsqr in *. lra. }
        nra.
      + right; right. split; [lia|].
        pose proof (magnitude2_eval_le (z st0) c) as Hle.
        rewrite <- Hm in Hle. unfold threshold in Hlt.
        assert (0 <= m st0).
        { rewrite Hm. unfold magnitude2.
          pose proof (Rle_0_sqr (imaginary (z st0))).
          pose proof (Rle_0_sqr (real (z st0))). unfold Rsqr in *. lra. }
        nra.
    - unfold J; simpl. split.
      + unfold magnitude2, origin; simpl. lra.
      + left. now split. }
  intros Hcount. destruct HJ as (_ & [[H0 _]|[[H1 Hm]|[H2 Hm]]]).
  - lia.
  - rewrite H1, Hm. simpl. lra.
  - apply Rle_trans with (4 ^ 8).
    + simpl. lra.
    + apply Rle_pow; [lra|].
      change 8%nat with (2 ^ 3)%nat. apply Nat.pow_le_mono_r; lia.
Qed.

(** A point whose constant has modulus at most 16 gets a colour, whatever
    [max_iter] is. *)
Lemma pixel_defined (s : Mandelbrot.session) (x y : Z) :
  Mandelbrot.colors s = Mandelbrot.palette (Mandelbrot.max_iter s) ->
  magnitude2 (Mandelbrot.pixel_constant s (IZR x) (IZR y)) <= 256 ->
  exists color,
    Mandelbrot.pixel s x y = Normal (Some color) /\ is_canonical_color color = true.
Proof.
  intros Hcol Hc. unfold Mandelbrot.pixel. rewrite Hcol.
  set (n := Mandelbrot.max_iter s).
  set (c := Mandelbrot.pixel_constant s (IZR x) (IZR y)) in *.
  set (st := escape Mandelbrot.eval n c).
  assert (Hn : (count st <= n)%nat) by apply escape_exits.
  destruct (Nat.lt_ge_cases (count st + 1) n) as [Hs|Hp].
  - assert (H1 : (1 <= count st)%nat) by (apply escape_count_pos; lia).
    assert (Hm : 4 <= m st) by (apply escape_threshold; fold st; lia).
    pose proof (escape_magnitude_bound n c Hc H1) as Hb. fold st in Hb.
    destruct (smooth_color_defined n (count st) (m st) Hs Hm Hb)
      as (_ & _ & color & color2 & _ & _ & E & C).
    eexists. split; [exact E | exact C].
  - rewrite pixel_color_plain by lia.
    destruct (palette_entries n (count st) Hn) as (color & E & C).
    exists color. now rewrite E.
Qed.

(** ** C5: the tiles *)

Lemma range_In (from len v : Z) :
  In v (range from len) <-> (from <= v < from + len)%Z.
Proof.
  unfold range. rewrite in_map_iff. split.
  - intros (k & <- & Hk). apply in_seq in Hk. lia.
  - intros Hv. exists (Z.to_nat (v - from)). split; [lia | apply in_seq; lia].
Qed.

Lemma tile_pixels_In (s : Mandelbrot.session) (cur : cursor) (x y : Z) :
  In (x, y) (Mandelbrot.tile_pixels s cur)
  <-> (xcurr cur <= x < xcurr cur + Mandelbrot.xd s
       /\ ycurr cur <= y < ycurr cur + Mandelbrot.yd s)%Z.
Proof.
  unfold Mandelbrot.tile_pixels. rewrite in_flat_map. split.
  - intros (x' & Hx & Hin). apply in_map_iff in Hin as (y' & [= <- <-] & Hy).
    apply range_In in Hx. apply range_In in Hy. lia.
  - intros [Hx Hy]. exists x. split; [now apply range_In|].
    apply in_map_iff. exists y. split; [reflexivity | now apply range_In].
Qed.

(** When no point throws, the loops fill every point they visit, and
    nothing else. *)
Lemma paint_all (s : Mandelbrot.session) (pixels : list (Z * Z)) :
  (forall x y, In (x, y) pixels -> exists color, Mandelbrot.pixel s x y = Normal color) ->
  snd (Mandelbrot.paint s pixels) = true
  /\ (forall x y, In (x, y) pixels -> painted (fst (Mandelbrot.paint s pixels)) x y)
  /\ (forall e, In e (fst (Mandelbrot.paint s pixels)) ->
        exists color x y,
          e = fillRect color x y Mandelbrot.ptw Mandelbrot.ptw /\ In (x, y) pixels).
Proof.
  induction pixels as [|[x0 y0] rest IH]; intros Hp; simpl.
  - repeat split; [intros x y [] | intros e []].
  - destruct (Hp x0 y0) as (color & E); [now left|]. rewrite E.
    destruct IH as (F & P & O); [intros x y Hin; apply Hp; now right|].
    destruct (Mandelbrot.paint s rest) as [effects finished]. simpl in *.
    repeat split.
    + exact F.
    + intros x y [[= <- <-]|Hin].
      * exists color. now left.
      * destruct (P x y Hin) as (c & Hc). exists c. now right.
    + intros e [<-|Hin].
      * exists color, x0, y0. split; [reflexivity | now left].
      * destruct (O e Hin) as (c & x & y & -> & Hxy).
        exists c, x, y. split; [reflexivity | now right].
Qed.

Section Tiling.

Variable s : Mandelbrot.session.

Local Abbreviation W := (Mandelbrot.xdiff s).
Local Abbreviation H := (Mandelbrot.ydiff s).
Local Abbreviation xd := (Mandelbrot.xd s).
Local Abbreviation yd := (Mandelbrot.yd s).

Hypothesis canvas_width : (0 < W)%Z.
Hypothesis canvas_height : (0 < H)%Z.
Hypothesis tile_width : (0 < xd)%Z.
Hypothesis tile_height : (0 < yd)%Z.

(** No point that the session visits throws. *)
Hypothesis no_throw :
  forall x y, (0 <= x < W + xd)%Z -> (0 <= y < H + 2 * yd)%Z ->
    exists color, Mandelbrot.pixel s x y = Normal color.

(** The cursor at which the tile of this tick lies: the cursor, or the
    start of the next row. *)
Lemma tick_paints_tile (cur : cursor) :
  cursor_ok s cur -> Mandelbrot.complete s cur = false ->
  let tile := if (W <=? xcurr cur)%Z
              then {| xcurr := 0; ycurr := ycurr cur + yd |} else cur in
  exists fills,
    Mandelbrot.tick s cur
    = ({| xcurr := xcurr tile + xd; ycurr := ycurr tile |},
       clearRect (xcurr tile) (ycurr tile) xd yd :: fills)
    /\ (0 <= xcurr tile < W /\ 0 <= ycurr tile < H + yd)%Z
    /\ (forall x y, In (x, y) (Mandelbrot.tile_pixels s tile) -> painted fills x y)
    /\ (forall e, In e fills ->
          exists color x y,
            e = fillRect color x y Mandelbrot.ptw Mandelbrot.ptw
            /\ In (x, y) (Mandelbrot.tile_pixels s tile)).
Proof.
  intros [Hx Hy] Hc tile.
  unfold Mandelbrot.complete in Hc.
  assert (Ht : (0 <= xcurr tile < W /\ 0 <= ycurr tile < H + yd)%Z).
  { unfold tile. destruct (Z.leb_spec W (xcurr cur)) as [Hw|Hw];
      cbn [xcurr ycurr].
    - rewrite andb_true_l in Hc. apply Z.leb_gt in Hc. lia.
    - lia. }
  destruct (paint_all s (Mandelbrot.tile_pixels s tile)) as (F & P & O).
  { intros x y Hin. apply tile_pixels_In in Hin. apply no_throw; lia. }
  exists (fst (Mandelbrot.paint s (Mandelbrot.tile_pixels s tile))).
  split; [|split; [exact Ht | split; [exact P | exact O]]].
  unfold Mandelbrot.tick. rewrite Hc. fold tile.
  destruct (Mandelbrot.paint s (Mandelbrot.tile_pixels s tile)) as [fills finished].
  simpl in F. subst finished. reflexivity.
Qed.

Lemma ticks_left_pos (cur : cursor) : cursor_ok s cur -> (0 < ticks_left s cur)%Z.
Proof.
  intros [Hx Hy]. unfold ticks_left. nia.
Qed.

(** From any cursor the session can reach, finitely many ticks lead to a
    complete session; by then every pixel of the canvas that was still to
    come has been filled, every call stayed within [W + xd] by [H + 2 yd],
    and, unless the cursor was below the canvas already, the first tile of
    a row that starts at or below the bottom edge has been cleared. *)
Lemma run_to_completion (k : nat) (cur : cursor) :
  (ticks_left s cur < Z.of_nat k)%Z -> cursor_ok s cur ->
  exists n,
    Mandelbrot.complete s (fst (Mandelbrot.run s n cur)) = true
    /\ (forall x y, remaining s cur x y -> painted (snd (Mandelbrot.run s n cur)) x y)
    /\ Forall (effect_within 0 0 (W + xd) (H + 2 * yd)) (snd (Mandelbrot.run s n cur))
    /\ ((ycurr cur < H)%Z ->
        exists ty, (H <= ty)%Z
                   /\ In (clearRect 0 ty xd yd) (snd (Mandelbrot.run s n cur))).
Proof.
  revert cur. induction k as [|k IH]; intros cur Hk Hok.
  { pose proof (ticks_left_pos cur Hok). lia. }
  destruct (Mandelbrot.complete s cur) eqn:Hc.
  - exists 0%nat. cbn [Mandelbrot.run fst snd]. repeat split.
    + exact Hc.
    + intros x y (Hx & Hy & Hr). unfold Mandelbrot.complete in Hc.
      apply andb_prop in Hc as [Hc1 Hc2].
      apply Z.leb_le in Hc1, Hc2. lia.
    + constructor.
    + intros Hy. unfold Mandelbrot.complete in Hc.
      apply andb_prop in Hc as [_ Hc2]. apply Z.leb_le in Hc2. lia.
  - destruct (tick_paints_tile cur Hok Hc) as (fills & Et & Ht & P & O).
    set (tile := if (W <=? xcurr cur)%Z
                 then {| xcurr := 0; ycurr := ycurr cur + yd |} else cur) in *.
    set (cur' := {| xcurr := xcurr tile + xd; ycurr := ycurr tile |}) in *.
    assert (Hok' : cursor_ok s cur') by (unfold cursor_ok, cur'; cbn [xcurr ycurr]; lia).
    assert (Hless : (ticks_left s cur' < Z.of_nat k)%Z).
    { destruct Hok as [Hx Hy]. unfold ticks_left, cur' in *. cbn [xcurr ycurr].
      unfold tile in *. destruct (Z.leb_spec W (xcurr cur)) as [Hw|Hw]; cbn [xcurr ycurr] in *.
      - unfold Mandelbrot.complete in Hc. apply andb_false_iff in Hc as [Hc|Hc];
          apply Z.leb_gt in Hc; nia.
      - nia. }
    destruct (IH cur' Hless Hok') as (n & Cn & Pn & Bn & Ln).
    exists (S n). cbn [Mandelbrot.run]. rewrite Et.
    destruct (Mandelbrot.run s n cur') as [cur2 effects2] eqn:Er. cbn [fst snd] in *.
    repeat split.
    + exact Cn.
    + intros x y (Hx & Hy & Hr).
      destruct (Z.lt_ge_cases x (xcurr tile + xd)) as [Hin|Hout].
      * destruct (Z.lt_ge_cases y (ycurr tile + yd)) as [Hin'|Hout'].
        -- assert (T : In (x, y) (Mandelbrot.tile_pixels s tile)).
           { apply tile_pixels_In. unfold tile in *.
             destruct (Z.leb_spec W (xcurr cur)); cbn [xcurr ycurr] in *; lia. }
           destruct (P x y T) as (color & Hcol).
           exists color. right. apply in_or_app. now left.
        -- destruct (Pn x y) as (color & Hcol).
           { unfold remaining, cur'; cbn [xcurr ycurr]. lia. }
           exists color. right. apply in_or_app. now right.
      * destruct (Pn x y) as (color & Hcol).
        { unfold remaining, cur'; cbn [xcurr ycurr]. unfold tile in *.
          destruct (Z.leb_spec W (xcurr cur)); cbn [xcurr ycurr] in *; lia. }
        exists color. right. apply in_or_app. now right.
    + constructor; [unfold effect_within; lia|].
      apply Forall_app. split; [|exact Bn].
      apply Forall_forall. intros e He.
      destruct (O e He) as (color & x & y & -> & Hxy).
      apply tile_pixels_In in Hxy. unfold Mandelbrot.ptw, effect_within. lia.
    + intros Hy. unfold tile in *.
      destruct (Z.leb_spec W (xcurr cur)) as [Hw|Hw]; cbn [xcurr ycurr] in *.
      * destruct (Z.lt_ge_cases (ycurr cur + yd) H) as [Hlt|Hge].
        -- destruct (Ln Hlt) as (ty & Hty & Hin).
           exists ty. split; [exact Hty|]. right. apply in_or_app. now right.
        -- exists (ycurr cur + yd)%Z. split; [exact Hge | now left].
      * destruct (Ln Hy) as (ty & Hty & Hin).
        exists ty. split; [exact Hty|]. right. apply in_or_app. now right.
Qed.

End Tiling.

(** [Math.round(W/40)] and [Math.round(H/20)] in integer arithmetic. *)
Lemma Math_round_div (w d : Z) :
  (0 < d)%Z -> Math_round (IZR w / IZR (2 * d)) = ((w + d) / (2 * d))%Z.
Proof.
  intros Hd.
  set (q := ((w + d) / (2 * d))%Z).
  set (r := ((w + d) mod (2 * d))%Z).
  assert (Hqr : (w + d = 2 * d * q + r)%Z) by (apply Z.div_mod; lia).
  assert (Hr : (0 <= r < 2 * d)%Z) by (apply Z.mod_pos_bound; lia).
  assert (Hw : IZR w = 2 * IZR d * IZR q + IZR r - IZR d).
  { replace w with (2 * d * q + r - d)%Z by lia.
    rewrite minus_IZR, plus_IZR, !mult_IZR. reflexivity. }
  assert (Hd' : 0 < IZR d) by now apply IZR_lt.
  assert (Hr0 : 0 <= IZR r) by (apply IZR_le; lia).
  assert (Hr1 : IZR r < 2 * IZR d).
  { replace (2 * IZR d) with (IZR (2 * d)) by (rewrite mult_IZR; reflexivity).
    apply IZR_lt. lia. }
  apply Math_round_eq.
  rewrite mult_IZR, Hw.
  replace ((2 * IZR d * IZR q + IZR r - IZR d) / (2 * IZR d))
    with (IZR q + (IZR r - IZR d) / (2 * IZR d)) by (field; lra).
  assert (Hf : - / 2 <= (IZR r - IZR d) / (2 * IZR d) < / 2).
  { assert (Hi : 0 < / (2 * IZR d)) by (apply Rinv_0_lt_compat; lra).
    assert (Hone : 2 * IZR d * / (2 * IZR d) = 1) by (field; lra).
    unfold Rdiv. split; nra. }
  lra.
Qed.

Lemma graph_session_tile (W H : Z) (n : nat) (x_min x_max y_min y_max : R) :
  let s := Mandelbrot.graph_session W H n x_min x_max y_min y_max in
  Mandelbrot.xd s = ((W + 20) / 40)%Z /\ Mandelbrot.yd s = ((H + 10) / 20)%Z.
Proof.
  simpl. split.
  - apply (Math_round_div W 20). lia.
  - apply (Math_round_div H 10). lia.
Qed.

(** Once the session is complete, a tick writes nothing. *)
Lemma tick_complete (s : Mandelbrot.session) (cur : cursor) :
  Mandelbrot.complete s cur = true ->
  Mandelbrot.tick s cur = (cur, [informer_hide]).
Proof.
  unfold Mandelbrot.complete, Mandelbrot.tick. now intros ->.
Qed.

(** When no point throws, the cursor moves as [next_cursor] says. *)
Lemma tick_cursor (s : Mandelbrot.session) (cur : cursor) :
  (forall x y, exists color, Mandelbrot.pixel s x y = Normal color) ->
  fst (Mandelbrot.tick s cur)
  = next_cursor (Mandelbrot.xdiff s) (Mandelbrot.ydiff s)
      (Mandelbrot.xd s) (Mandelbrot.yd s) cur.
Proof.
  intros Hp. unfold Mandelbrot.tick, next_cursor.
  destruct ((Mandelbrot.xdiff s <=? xcurr cur)%Z
            && (Mandelbrot.ydiff s <=? ycurr cur)%Z); [reflexivity|].
  set (tile := if (Mandelbrot.xdiff s <=? xcurr cur)%Z then _ else _).
  destruct (paint_all s (Mandelbrot.tile_pixels s tile)) as (F & _).
  { intros x y _. apply Hp. }
  destruct (Mandelbrot.paint s (Mandelbrot.tile_pixels s tile)) as [fills finished].
  simpl in F. subst finished. reflexivity.
Qed.

Lemma run_cursor (s : Mandelbrot.session) (n : nat) (cur : cursor) :
  (forall x y, exists color, Mandelbrot.pixel s x y = Normal color) ->
  fst (Mandelbrot.run s n cur)
  = cursor_after (Mandelbrot.xdiff s) (Mandelbrot.ydiff s)
      (Mandelbrot.xd s) (Mandelbrot.yd s) n cur.
Proof.
  intros Hp. revert cur. induction n as [|n IH]; intros cur; [reflexivity|].
  cbn [Mandelbrot.run cursor_after].
  rewrite <- (tick_cursor s cur Hp).
  destruct (Mandelbrot.tick s cur) as [cur1 effects1].
  specialize (IH cur1).
  destruct (Mandelbrot.run s n cur1) as [cur2 effects2].
  exact IH.
Qed.

Lemma tick_step (s : Mandelbrot.session) (cur tile : cursor) (fills : list effect) :
  Mandelbrot.complete s cur = false ->
  tile = (if (Mandelbrot.xdiff s <=? xcurr cur)%Z
          then {| xcurr := 0; ycurr := ycurr cur + Mandelbrot.yd s |} else cur) ->
  Mandelbrot.paint s (Mandelbrot.tile_pixels s tile) = (fills, true) ->
  Mandelbrot.tick s cur
  = ({| xcurr := xcurr tile + Mandelbrot.xd s; ycurr := ycurr tile |},
     clearRect (xcurr tile) (ycurr tile) (Mandelbrot.xd s) (Mandelbrot.yd s)
     :: fills).
Proof.
  unfold Mandelbrot.complete, Mandelbrot.tick. intros -> -> ->. reflexivity.
Qed.

(** With [max_iter = 1] every point is black: the loop makes its one pass. *)
Lemma pixel_max_iter_1 (s : Mandelbrot.session) (x y : Z) :
  Mandelbrot.max_iter s = 1%nat ->
  Mandelbrot.colors s = Mandelbrot.palette 1 ->
  Mandelbrot.pixel s x y = Normal (Some "#000000"%string).
Proof.
  intros Hn Hcol. unfold Mandelbrot.pixel. rewrite Hn, Hcol.
  set (st := escape Mandelbrot.eval 1 _).
  assert (H1 : (1 <= count st)%nat) by (apply escape_count_pos; lia).
  assert (H2 : (count st <= 1)%nat) by apply escape_exits.
  rewrite pixel_color_plain by lia.
  replace (count st) with 1%nat by lia.
  now rewrite (palette_black 1).
Qed.

(** C5, as stated, fails, in two ways.  On a 10 by 10 canvas the tile is
    0 wide ([Math.round(10/40) = 0]): a tick clears an empty rectangle and
    leaves the cursor at (0,0), so the session never completes and paints
    nothing.  On a 20 by 10 canvas (tiles of 1 by 1) the cursor is at (20,9)
    after 200 ticks, and the next tick clears and fills the pixel (0,10),
    below the bottom edge. *)
Lemma C5_tiling_counterexample :
  let small := Mandelbrot.graph_session 10 10 1 (-1) (5/2) (-1) 1 in
  let s := Mandelbrot.graph_session 20 10 1 (-1) (5/2) (-1) 1 in
  Mandelbrot.complete small {| xcurr := 0; ycurr := 0 |} = false
  /\ Mandelbrot.tick small {| xcurr := 0; ycurr := 0 |}
     = ({| xcurr := 0; ycurr := 0 |}, [clearRect 0 0 0 1])
  /\ fst (Mandelbrot.run s 200 {| xcurr := 0; ycurr := 0 |})
     = {| xcurr := 20; ycurr := 9 |}
  /\ Mandelbrot.tick s {| xcurr := 20; ycurr := 9 |}
     = ({| xcurr := 1; ycurr := 10 |},
        [clearRect 0 10 1 1; fillRect (Some "#000000"%string) 0 10 1 1]).
Proof.
  intros small s.
  destruct (graph_session_tile 10 10 1 (-1) (5/2) (-1) 1) as [Hxd0 Hyd0].
  destruct (graph_session_tile 20 10 1 (-1) (5/2) (-1) 1) as [Hxd Hyd].
  fold small in Hxd0, Hyd0. fold s in Hxd, Hyd.
  change ((10 + 20) / 40)%Z with 0%Z in Hxd0.
  change ((10 + 10) / 20)%Z with 1%Z in Hyd0, Hyd.
  change ((20 + 20) / 40)%Z with 1%Z in Hxd.
  assert (Hblack : forall x y, Mandelbrot.pixel s x y = Normal (Some "#000000"%string)).
  { intros x y. now apply pixel_max_iter_1. }
  split; [reflexivity|]. split; [|split].
  - rewrite (tick_step small _ {| xcurr := 0; ycurr := 0 |} []).
    + rewrite Hxd0, Hyd0. reflexivity.
    + reflexivity.
    + reflexivity.
    + unfold Mandelbrot.tile_pixels. rewrite Hxd0. reflexivity.
  - rewrite run_cursor by (intros x y; eexists; apply Hblack).
    rewrite Hxd, Hyd. reflexivity.
  - rewrite (tick_step s _ {| xcurr := 0; ycurr := 10 |}
               [fillRect (Some "#000000"%string) 0 10 1 1]).
    + rewrite Hxd, Hyd. reflexivity.
    + reflexivity.
    + rewrite Hyd. reflexivity.
    + unfold Mandelbrot.tile_pixels. rewrite Hxd, Hyd.
      change (flat_map _ _) with [(0%Z, 10%Z)].
      cbn [Mandelbrot.paint]. rewrite Hblack. reflexivity.
Qed.

(** C5 (amended): for a canvas at least 20 wide and 10 high (so that the
    tile, [Math.round(W/40)] by [Math.round(H/20)], is not empty) and a
    session in which no point throws, the session is complete after finitely
    many ticks, from then on a tick writes nothing, and every pixel of the
    canvas has been filled.  The calls are not confined to the canvas: they
    stay within [W + xd] by [H + 2 yd], and the first tile of a row that
    starts at or below the bottom edge is cleared. *)
Theorem C5_tiling_covers (W H : Z) (n : nat) (x_min x_max y_min y_max : R) :
  let s := Mandelbrot.graph_session W H n x_min x_max y_min y_max in
  (20 <= W)%Z -> (10 <= H)%Z ->
  (forall x y,
     (0 <= x < W + Mandelbrot.xd s)%Z -> (0 <= y < H + 2 * Mandelbrot.yd s)%Z ->
     exists color, Mandelbrot.pixel s x y = Normal color) ->
  (0 < Mandelbrot.xd s)%Z /\ (0 < Mandelbrot.yd s)%Z
  /\ exists ticks,
       let cur := fst (Mandelbrot.run s ticks {| xcurr := 0; ycurr := 0 |}) in
       let effects := snd (Mandelbrot.run s ticks {| xcurr := 0; ycurr := 0 |}) in
       Mandelbrot.complete s cur = true
       /\ Mandelbrot.tick s cur = (cur, [informer_hide])
       /\ (forall x y, (0 <= x < W)%Z -> (0 <= y < H)%Z -> painted effects x y)
       /\ Forall (effect_within 0 0 (W + Mandelbrot.xd s) (H + 2 * Mandelbrot.yd s))
            effects
       /\ exists ty, (H <= ty)%Z
            /\ In (clearRect 0 ty (Mandelbrot.xd s) (Mandelbrot.yd s)) effects.
Proof.
  intros s HW HH Hpaint.
  destruct (graph_session_tile W H n x_min x_max y_min y_max) as [Exd Eyd].
  fold s in Exd, Eyd.
  assert (Hxd : (0 < Mandelbrot.xd s)%Z)
    by (rewrite Exd; apply Z.div_str_pos; lia).
  assert (Hyd : (0 < Mandelbrot.yd s)%Z)
    by (rewrite Eyd; apply Z.div_str_pos; lia).
  split; [exact Hxd|]. split; [exact Hyd|].
  set (start := {| xcurr := 0; ycurr := 0 |}).
  assert (Hok : cursor_ok s start).
  { unfold cursor_ok, start. cbn [xcurr ycurr].
    change (Mandelbrot.xdiff s) with W. change (Mandelbrot.ydiff s) with H. lia. }
  assert (HW' : (0 < Mandelbrot.xdiff s)%Z) by (unfold s; simpl; lia).
  assert (HH' : (0 < Mandelbrot.ydiff s)%Z) by (unfold s; simpl; lia).
  destruct (run_to_completion s HW' HH' Hxd Hyd Hpaint
              (S (Z.to_nat (ticks_left s start))) start)
    as (ticks & C & P & B & L).
  { pose proof (ticks_left_pos s HW' HH' Hxd Hyd start Hok). lia. }
  { exact Hok. }
  exists ticks. cbv zeta. split; [exact C|].
  split; [now apply tick_complete|].
  split; [|split; [exact B|]].
  - intros x y Hx Hy. apply P. unfold remaining, start.
    change (Mandelbrot.xdiff s) with W. change (Mandelbrot.ydiff s) with H.
    cbn [xcurr ycurr]. lia.
  - apply L. unfold start. cbn [ycurr]. exact HH'.
Qed.

(** A 40 by 20 canvas, 100 iterations, and the window that the revisions
    before 1.0 note beside the conversion, [-2.5, 1] by [-1, 1]. *)
Lemma C5_tiling_covers_witness :
  let s := Mandelbrot.graph_session 40 20 100 (-1) (5/2) (-1) 1 in
  (0 < Mandelbrot.xd s)%Z /\ (0 < Mandelbrot.yd s)%Z
  /\ exists ticks,
       let cur := fst (Mandelbrot.run s ticks {| xcurr := 0; ycurr := 0 |}) in
       let effects := snd (Mandelbrot.run s ticks {| xcurr := 0; ycurr := 0 |}) in
       Mandelbrot.complete s cur = true
       /\ Mandelbrot.tick s cur = (cur, [informer_hide])
       /\ (forall x y, (0 <= x < 40)%Z -> (0 <= y < 20)%Z -> painted effects x y)
       /\ Forall (effect_within 0 0 (40 + Mandelbrot.xd s) (20 + 2 * Mandelbrot.yd s))
            effects
       /\ exists ty, (20 <= ty)%Z
            /\ In (clearRect 0 ty (Mandelbrot.xd s) (Mandelbrot.yd s)) effects.
Proof.
  apply (C5_tiling_covers 40 20 100 (-1) (5/2) (-1) 1); [lia | lia |].
  intros x y Hx Hy.
  destruct (graph_session_tile 40 20 100 (-1) (5/2) (-1) 1) as [Exd Eyd].
  rewrite Exd in Hx. rewrite Eyd in Hy.
  change ((40 + 20) / 40)%Z with 1%Z in Hx.
  change ((20 + 10) / 20)%Z with 1%Z in Hy.
  destruct (pixel_defined (Mandelbrot.graph_session 40 20 100 (-1) (5/2) (-1) 1) x y)
    as (color & E & _).
  - reflexivity.
  - unfold Mandelbrot.pixel_constant, magnitude2; simpl.
    assert (0 <= IZR x <= 41) by (split; apply IZR_le; lia).
    assert (0 <= IZR y <= 22) by (split; apply IZR_le; lia).
    nra.
  - now exists (Some color).
Defined.

(** ** C4: the lower index of the smooth colouring *)

Lemma normalized_iteration_count_far (m : R) :
  65536 < m -> m <= 4294967296 -> -2 <= normalized_iteration_count 1 m < -1.
Proof.
  intros Hlo Hhi. unfold normalized_iteration_count. pose proof ln_2_pos as H2.
  assert (L16 : ln 65536 = 16 * ln 2).
  { replace 65536 with (2 ^ 16) by (simpl; lra).
    rewrite ln_pow_2. simpl INR. lra. }
  assert (L32 : ln 4294967296 = 32 * ln 2).
  { replace 4294967296 with (2 ^ 32) by (simpl; lra).
    rewrite ln_pow_2. simpl INR. lra. }
  assert (Hl : ln 65536 < ln m) by (apply ln_increasing; lra).
  assert (Hh : ln m <= ln 4294967296) by (apply ln_le_mono; lra).
  assert (Q : 8 < ln m / 2 / ln 2 <= 16).
  { replace (ln m / 2 / ln 2) with (ln m / ln 2 / 2) by (field; lra).
    assert (16 < ln m / ln 2 <= 32); [|lra].
    split.
    - apply (Rmult_lt_reg_r (ln 2)); [lra|].
      unfold Rdiv. rewrite Rmult_assoc, Rinv_l by lra. lra.
    - apply (Rmult_le_reg_r (ln 2)); [lra|].
      unfold Rdiv. rewrite Rmult_assoc, Rinv_l by lra. lra. }
  set (q := ln m / 2 / ln 2) in *.
  assert (L8 : ln 8 = 3 * ln 2).
  { replace 8 with (2 ^ 3) by (simpl; lra). rewrite ln_pow_2. simpl INR. lra. }
  assert (L16' : ln 16 = 4 * ln 2).
  { replace 16 with (2 ^ 4) by (simpl; lra). rewrite ln_pow_2. simpl INR. lra. }
  assert (H8 : ln 8 < ln q) by (apply ln_increasing; lra).
  assert (H16 : ln q <= ln 16) by (apply ln_le_mono; lra).
  assert (Hq : 3 < ln q / ln 2 <= 4).
  { split.
    - apply (Rmult_lt_reg_r (ln 2)); [lra|].
      unfold Rdiv. rewrite Rmult_assoc, Rinv_l by lra. lra.
    - apply (Rmult_le_reg_r (ln 2)); [lra|].
      unfold Rdiv. rewrite Rmult_assoc, Rinv_l by lra. lra. }
  simpl INR. lra.
Qed.

(** C4 fails on the code through a missed case: the guard
    [count < max_iter - 1] bounds the upper index, nothing bounds the lower
    one.  For [graph] on a canvas of 40 by 20 with [max_iter = 3] and the
    region 511..512, 1..2 the first point is c = -512 - 2i; the loop exits
    after one pass with m = 262148, the smooth colouring is entered,
    [it] lies between -2 and -1, [colors[-2]] does not exist and the
    interpolation throws: the callback ends after [clearRect] without
    advancing the cursor, although the entry [colors[1]], the colour without
    smoothing, exists. *)
Theorem C4_lower_index_unguarded :
  let s := Mandelbrot.graph_session 40 20 3 511 512 1 2 in
  let c := Mandelbrot.pixel_constant s 0 0 in
  let st := escape Mandelbrot.eval 3 c in
  c = {| imaginary := -2; real := -512 |}
  /\ count st = 1%nat /\ m st = 262148
  /\ (Z.of_nat (count st) <? Z.of_nat 3 - 1)%Z = true
  /\ Math_floor (normalized_iteration_count (count st) (m st)) = (-2)%Z
  /\ array_get (Mandelbrot.palette 3) (-2) = None
  /\ Mandelbrot.pixel_color (Mandelbrot.palette 3) 3 (count st) (m st) = Throw
  /\ Mandelbrot.pixel s 0 0 = Throw
  /\ Mandelbrot.tick s {| xcurr := 0; ycurr := 0 |}
     = ({| xcurr := 0; ycurr := 0 |}, [clearRect 0 0 1 1])
  /\ exists color,
       array_get (Mandelbrot.palette 3) (Z.of_nat (count st)) = Some color.
Proof.
  intros s c st.
  assert (Hc : c = {| imaginary := -2; real := -512 |}).
  { unfold c, Mandelbrot.pixel_constant, s, Mandelbrot.graph_session.
    cbn [Mandelbrot.xf Mandelbrot.yf Mandelbrot.xc Mandelbrot.yc].
    f_equal; field. }
  assert (Hm : magnitude2 c = 262148).
  { rewrite Hc. unfold magnitude2. cbn [imaginary real]. lra. }
  assert (Hst : st = {| z := Mandelbrot.eval origin c; count := 1;
                        m := magnitude2 (Mandelbrot.eval origin c) |}).
  { apply (escape_at_once Mandelbrot.eval 2 c). rewrite eval_origin. lra. }
  assert (Ecount : count st = 1%nat) by now rewrite Hst.
  assert (Em : m st = 262148) by (rewrite Hst; cbn [m]; now rewrite eval_origin).
  assert (F : Math_floor (normalized_iteration_count 1 262148) = (-2)%Z).
  { apply Math_floor_eq.
    pose proof (normalized_iteration_count_far 262148 ltac:(lra) ltac:(lra)).
    lra. }
  assert (P : Mandelbrot.pixel_color (Mandelbrot.palette 3) 3 1 262148 = Throw).
  { rewrite pixel_color_smooth by (try lia; lra).
    unfold smooth_color. rewrite F. now rewrite array_get_negative by lia. }
  assert (Px : Mandelbrot.pixel s 0 0 = Throw).
  { unfold Mandelbrot.pixel. cbv zeta. fold c. fold st.
    change (Mandelbrot.max_iter s) with 3%nat.
    change (Mandelbrot.colors s) with (Mandelbrot.palette 3).
    fold st. rewrite Ecount, Em. exact P. }
  destruct (graph_session_tile 40 20 3 511 512 1 2) as [Hxd Hyd].
  fold s in Hxd, Hyd.
  change ((40 + 20) / 40)%Z with 1%Z in Hxd.
  change ((20 + 10) / 20)%Z with 1%Z in Hyd.
  rewrite Ecount, Em.
  split; [exact Hc|]. split; [reflexivity|]. split; [reflexivity|].
  split; [reflexivity|]. split; [exact F|].
  split; [apply array_get_negative; lia|].
  split; [exact P|]. split; [exact Px|].
  split.
  - unfold Mandelbrot.tick.
    change (Mandelbrot.xdiff s) with 40%Z. change (Mandelbrot.ydiff s) with 20%Z.
    cbn [xcurr ycurr]. change (40 <=? 0)%Z with false. cbn [andb].
    cbv iota. unfold Mandelbrot.tile_pixels. rewrite Hxd, Hyd.
    cbn [xcurr ycurr].
    change (range 0 1) with [0%Z]. cbn [flat_map map app Mandelbrot.paint].
    rewrite Px. reflexivity.
  - destruct (palette_entries 3 1) as (color & E & _); [lia|].
    now exists color.
Qed.

(** ** C6: a superseded session *)

(** C6 fails on the code: the comment above [setInterval] says that a
    session draws until [graph] is called again, but [graph] never stops the
    timer of an earlier call: every timer set before a call is set after it.
    After two calls of [graph] on a 20 by 10 canvas the timer of
    the first call is still set; when it fires it clears and fills the tile
    at (0,0), and, the cursor being shared, the new session then starts at
    the tile (1,0). *)
Theorem C6_superseded_session_writes :
  let r := {| Mandelbrot.width := 20; Mandelbrot.height := 10;
              Mandelbrot.req_max_iter := 1;
              Mandelbrot.rxmin := -1; Mandelbrot.rxmax := 5/2;
              Mandelbrot.rymin := -1; Mandelbrot.rymax := 1 |} in
  let old := snd (Mandelbrot.graph idle r) in
  let h := fst (Mandelbrot.graph (fst (Mandelbrot.graph idle r)) r) in
  let new := snd (Mandelbrot.graph (fst (Mandelbrot.graph idle r)) r) in
  old = 0%nat /\ new = 1%nat
  /\ Mandelbrot.writes_of old h = []
  /\ Mandelbrot.writes_of old (Mandelbrot.fire h old)
     = [clearRect 0 0 1 1; fillRect (Some "#000000"%string) 0 0 1 1]
  /\ Mandelbrot.writes_of new (Mandelbrot.fire (Mandelbrot.fire h old) new)
     = [clearRect 1 0 1 1; fillRect (Some "#000000"%string) 1 0 1 1]
  /\ (forall (h0 : Mandelbrot.host) (r0 : Mandelbrot.request) (timer : nat),
        (timer < Mandelbrot.next_timer h0)%nat ->
        Mandelbrot.find_timer (fst (Mandelbrot.graph h0 r0)) timer
        = Mandelbrot.find_timer h0 timer).
Proof.
  intros r old h new.
  assert (Kept : forall (h0 : Mandelbrot.host) (r0 : Mandelbrot.request)
                   (timer : nat),
             (timer < Mandelbrot.next_timer h0)%nat ->
             Mandelbrot.find_timer (fst (Mandelbrot.graph h0 r0)) timer
             = Mandelbrot.find_timer h0 timer).
  { intros h0 r0 timer Hlt. unfold Mandelbrot.find_timer; simpl.
    destruct (Nat.eqb_spec (Mandelbrot.next_timer h0) timer) as [E|_];
      [lia | reflexivity]. }
  set (s := Mandelbrot.graph_session 20 10 1 (-1) (5/2) (-1) 1).
  destruct (graph_session_tile 20 10 1 (-1) (5/2) (-1) 1) as [Hxd Hyd].
  fold s in Hxd, Hyd.
  change ((20 + 20) / 40)%Z with 1%Z in Hxd.
  change ((10 + 10) / 20)%Z with 1%Z in Hyd.
  assert (Hblack : forall x y, Mandelbrot.pixel s x y = Normal (Some "#000000"%string)).
  { intros x y. now apply pixel_max_iter_1. }
  assert (T0 : Mandelbrot.tick s {| xcurr := 0; ycurr := 0 |}
               = ({| xcurr := 1; ycurr := 0 |},
                  [clearRect 0 0 1 1; fillRect (Some "#000000"%string) 0 0 1 1])).
  { rewrite (tick_step s _ {| xcurr := 0; ycurr := 0 |}
               [fillRect (Some "#000000"%string) 0 0 1 1]).
    - rewrite Hxd, Hyd. reflexivity.
    - reflexivity.
    - reflexivity.
    - unfold Mandelbrot.tile_pixels. rewrite Hxd, Hyd.
      change (flat_map _ _) with [(0%Z, 0%Z)].
      cbn [Mandelbrot.paint]. rewrite Hblack. reflexivity. }
  assert (T1 : Mandelbrot.tick s {| xcurr := 1; ycurr := 0 |}
               = ({| xcurr := 2; ycurr := 0 |},
                  [clearRect 1 0 1 1; fillRect (Some "#000000"%string) 1 0 1 1])).
  { rewrite (tick_step s _ {| xcurr := 1; ycurr := 0 |}
               [fillRect (Some "#000000"%string) 1 0 1 1]).
    - rewrite Hxd, Hyd. reflexivity.
    - reflexivity.
    - reflexivity.
    - unfold Mandelbrot.tile_pixels. rewrite Hxd, Hyd.
      change (flat_map _ _) with [(1%Z, 0%Z)].
      cbn [Mandelbrot.paint]. rewrite Hblack. reflexivity. }
  split; [reflexivity|]. split; [reflexivity|]. split; [reflexivity|].
  assert (F1 : Mandelbrot.fire h old
               = {| Mandelbrot.timers := [(1%nat, s); (0%nat, s)];
                    Mandelbrot.next_timer := 2;
                    Mandelbrot.global_cursor := {| xcurr := 1; ycurr := 0 |};
                    Mandelbrot.log :=
                      [(0%nat, clearRect 0 0 1 1);
                       (0%nat, fillRect (Some "#000000"%string) 0 0 1 1)] |}).
  { unfold Mandelbrot.fire.
    change (Mandelbrot.find_timer h old) with (Some s).
    change (Mandelbrot.global_cursor h) with {| xcurr := 0; ycurr := 0 |}.
    cbv beta iota. rewrite T0. reflexivity. }
  split; [rewrite F1; reflexivity|].
  split; [|exact Kept].
  rewrite F1. unfold Mandelbrot.fire.
  change (Mandelbrot.find_timer _ new) with (Some s).
  cbv beta iota. cbn [Mandelbrot.global_cursor]. rewrite T1. reflexivity.
Qed.

(** ** [lerpColor] of the revision before 1.0 *)























(** ** C7: the interpolators *)




(** * Further properties of the code *)

(** ** Complex arithmetic *)

(** X1: [add] and [multiply] are commutative, 0 and 1 are neutral, a
    number and its opposite add up to 0, a product with 0 is 0, and both
    operations commute with taking the opposite and the conjugate; the
    imaginary part of a square is twice the product of the two parts. *)
Theorem X1_complex_arithmetic_laws (a b : Complex) :
  add a b = add b a
  /\ multiply a b = multiply b a
  /\ add a origin = a
  /\ multiply a {| imaginary := 0; real := 1 |} = a
  /\ multiply a origin = origin
  /\ add a (opposite a) = origin
  /\ opposite (add a b) = add (opposite a) (opposite b)
  /\ multiply (opposite a) b = opposite (multiply a b)
  /\ conjugate (add a b) = add (conjugate a) (conjugate b)
  /\ conjugate (multiply a b) = multiply (conjugate a) (conjugate b)
  /\ imaginary (multiply a a) = 2 * (real a * imaginary a).
Proof.
  unfold add, multiply, opposite, conjugate, origin.
  repeat split; try apply complex_eq; simpl; ring.
Qed.

(** X2: [magnitude2] is never negative, is 0 at 0, is at least the square
    of either part, and is unchanged by taking the opposite or the
    conjugate; a number times its conjugate is [magnitude2] on the real
    axis; a number with [magnitude2] below the threshold has both parts
    strictly between -2 and 2. *)
Theorem X2_magnitude2_laws (a : Complex) :
  0 <= magnitude2 a
  /\ magnitude2 origin = 0
  /\ real a * real a <= magnitude2 a
  /\ imaginary a * imaginary a <= magnitude2 a
  /\ magnitude2 (opposite a) = magnitude2 a
  /\ magnitude2 (conjugate a) = magnitude2 a
  /\ multiply a (conjugate a) = {| imaginary := 0; real := magnitude2 a |}
  /\ (magnitude2 a < threshold ->
      -2 < real a < 2 /\ -2 < imaginary a < 2).
Proof.
  unfold magnitude2, multiply, conjugate, opposite, origin, threshold.
  pose proof (Rle_0_sqr (real a)) as Hr. pose proof (Rle_0_sqr (imaginary a)) as Hi.
  unfold Rsqr in Hr, Hi. cbn [imaginary real].
  split; [lra|]. split; [ring|]. split; [lra|]. split; [lra|].
  split; [ring|]. split; [ring|].
  split; [apply complex_eq; simpl; ring|].
  intros H. repeat split; nra.
Qed.

(** ** The complex sine of the earlier revisions *)

Lemma cosh2_sinh2 (x : R) : cosh x * cosh x - sinh x * sinh x = 1.
Proof.
  unfold cosh, sinh.
  assert (He : exp x * exp (- x) = 1).
  { rewrite <- exp_plus. replace (x + - x) with 0 by ring. apply exp_0. }
  field_simplify. nra.
Qed.

Lemma sinh_opp (x : R) : sinh (- x) = - sinh x.
Proof. unfold sinh. rewrite Ropp_involutive. field. Qed.

Lemma cosh_opp (x : R) : cosh (- x) = cosh x.
Proof. unfold cosh. rewrite Ropp_involutive. field. Qed.

(** X3: on the real axis [sin] is the real sine; it is an odd function and
    commutes with conjugation. *)
Theorem X3_sin_real_odd (v : Complex) (x : R) :
  BurningShip.sin {| imaginary := 0; real := x |}
  = {| imaginary := 0; real := Rtrigo_def.sin x |}
  /\ BurningShip.sin (opposite v) = opposite (BurningShip.sin v)
  /\ BurningShip.sin (conjugate v) = conjugate (BurningShip.sin v).
Proof.
  unfold BurningShip.sin, opposite, conjugate.
  repeat split; apply complex_eq; simpl;
    rewrite ?sinh_0, ?cosh_0, ?sin_neg, ?cos_neg, ?sinh_opp, ?cosh_opp;
    ring.
Qed.

Lemma cosh_ge_1 (x : R) : 1 <= cosh x.
Proof.
  pose proof (cosh2_sinh2 x) as H.
  assert (P : 0 < cosh x).
  { unfold cosh. pose proof (exp_pos x). pose proof (exp_pos (- x)). lra. }
  pose proof (Rle_0_sqr (sinh x)) as S. unfold Rsqr in S. nra.
Qed.

(** X4: the real part of [sin v] is 0 exactly where the real sine of the
    real part of [v] is 0, and is never smaller in absolute value than that
    sine; [sin v] is 0 exactly at the zeros of the real sine on the real
    axis. *)
Theorem X4_sin_zeros (v : Complex) :
  (real (BurningShip.sin v) = 0 <-> Rtrigo_def.sin (real v) = 0)
  /\ Rabs (Rtrigo_def.sin (real v)) <= Rabs (real (BurningShip.sin v))
  /\ (BurningShip.sin v = origin <->
      Rtrigo_def.sin (real v) = 0 /\ imaginary v = 0).
Proof.
  pose proof (cosh_ge_1 (imaginary v)) as Hc.
  assert (R0 : real (BurningShip.sin v) = 0 <-> Rtrigo_def.sin (real v) = 0).
  { unfold BurningShip.sin; cbn [real]. split; intros H; [nra | rewrite H; ring]. }
  split; [exact R0|]. split.
  { unfold BurningShip.sin; cbn [real]. rewrite Rabs_mult.
    rewrite (Rabs_right (cosh (imaginary v))) by lra.
    pose proof (Rabs_pos (Rtrigo_def.sin (real v))). nra. }
  split.
  2:{ intros [Hs Hi]. unfold BurningShip.sin, origin.
      rewrite Hs, Hi, sinh_0. apply complex_eq; simpl; ring. }
  intros H0.
  assert (Hs : Rtrigo_def.sin (real v) = 0) by (apply R0; now rewrite H0).
  split; [exact Hs|].
  assert (Hi : cos (real v) * sinh (imaginary v) = 0).
  { change (imaginary (BurningShip.sin v) = 0). now rewrite H0. }
  pose proof (sin2_cos2 (real v)) as Ht. unfold Rsqr in Ht. rewrite Hs in Ht.
  assert (Hh : sinh (imaginary v) = 0) by nra.
  destruct (Rtotal_order (imaginary v) 0) as [Hlt|[Heq|Hgt]]; [|exact Heq|].
  - apply sinh_lt in Hlt. rewrite sinh_0 in Hlt. lra.
  - apply sinh_lt in Hgt. rewrite sinh_0 in Hgt. lra.
Qed.

(** ** The escape-time loop *)

(** The loop walks along the orbit: when it stops, [z] is the point of the
    orbit with index [count], [m] its squared modulus, and the points before
    it lie inside the circle. *)
Lemma escape_walks_orbit (P : Complex -> Complex -> Complex) (n : nat) (c : Complex) :
  let st := escape P n c in
  z st = orbit P c (count st)
  /\ m st = magnitude2 (z st)
  /\ (forall k, (k < count st)%nat -> magnitude2 (orbit P c k) < 4).
Proof.
  set (J := fun st : loop_state =>
              z st = orbit P c (count st)
              /\ m st = magnitude2 (z st)
              /\ (forall k, (k < count st)%nat -> magnitude2 (orbit P c k) < 4)).
  change (J (escape P n c)).
  unfold escape. apply while_loop_invariant.
  - intros st (Hz & Hm & Hin) Hlt _. unfold J; simpl.
    split; [now rewrite Hz | split; [reflexivity|]].
    intros k Hk. destruct (Nat.eq_dec k (count st)) as [->|Hne].
    + rewrite <- Hz, <- Hm. exact Hlt.
    + apply Hin. lia.
  - unfold J; simpl. split; [reflexivity | split].
    + unfold magnitude2, origin; simpl. ring.
    + intros k Hk. lia.
Qed.

(** The count is determined by the orbit: it is the only index up to [n]
    with the orbit inside the circle before it and outside at it, unless it
    is [n]. *)
Lemma escape_count_unique (P : Complex -> Complex -> Complex) (n : nat)
    (c : Complex) (k : nat) :
  (k <= n)%nat ->
  (forall j, (j < k)%nat -> magnitude2 (orbit P c j) < 4) ->
  (k = n \/ 4 <= magnitude2 (orbit P c k)) ->
  count (escape P n c) = k.
Proof.
  intros Hk Hbefore Hat.
  destruct (escape_walks_orbit P n c) as (Hz & Hm & Hin).
  destruct (escape_exits P n c) as [_ Hle].
  set (st := escape P n c) in *.
  destruct (Nat.lt_trichotomy (count st) k) as [Hlt|[Heq|Hgt]]; [|exact Heq|].
  - specialize (Hbefore _ Hlt).
    assert (4 <= m st) by (apply escape_threshold; fold st; lia).
    rewrite Hm, Hz in *. lra.
  - specialize (Hin _ Hgt). destruct Hat as [->|Hat]; [lia | lra].
Qed.

(** X5: the escape count is the index of the first point of the orbit of 0
    on or outside the circle of radius 2, or [max_iter] if the points before
    that index all lie inside; [z] and [m] are that point and its squared
    modulus.  This holds whatever [eval] is. *)
Theorem X5_escape_count_is_first_exit (P : Complex -> Complex -> Complex)
    (max_iter : nat) (c : Complex) :
  let st := escape P max_iter c in
  (count st <= max_iter)%nat
  /\ z st = orbit P c (count st)
  /\ m st = magnitude2 (orbit P c (count st))
  /\ (forall k, (k < count st)%nat -> magnitude2 (orbit P c k) < 4)
  /\ ((count st < max_iter)%nat -> 4 <= magnitude2 (orbit P c (count st)))
  /\ (forall k, (k <= max_iter)%nat ->
        (forall j, (j < k)%nat -> magnitude2 (orbit P c j) < 4) ->
        (k = max_iter \/ 4 <= magnitude2 (orbit P c k)) ->
        count st = k).
Proof.
  intros st.
  destruct (escape_walks_orbit P max_iter c) as (Hz & Hm & Hin).
  fold st in Hz, Hm, Hin.
  destruct (escape_exits P max_iter c) as [_ Hle]. fold st in Hle.
  split; [exact Hle|]. split; [exact Hz|].
  split; [now rewrite Hm, Hz|]. split; [exact Hin|]. split.
  - intros Hc. rewrite <- Hz, <- Hm. now apply escape_threshold.
  - intros k. apply escape_count_unique.
Qed.

(** The loop of the earlier revisions and the loop of revision 1.0, started
    on the same [z] and [count] with [m] the magnitude of [z], stop on the
    same [z] and [count]. *)
Lemma burning_ship_loop_cached (fuel n : nat) (c : Complex) (st : loop_state) :
  m st = magnitude2 (z st) ->
  BurningShip.while_loop fuel n c (z st) (count st)
  = (z (while_loop BurningShip.eval fuel n c st),
     count (while_loop BurningShip.eval fuel n c st)).
Proof.
  revert st. induction fuel as [|fuel IH]; intros st Hm; simpl; [reflexivity|].
  rewrite <- Hm.
  destruct (Rlt_dec (m st) threshold) as [Hlt|Hlt]; [|reflexivity].
  destruct (Nat.ltb_spec (count st) n) as [Hc|Hc]; [|reflexivity].
  apply (IH {| z := BurningShip.eval (z st) c; count := S (count st);
               m := magnitude2 (BurningShip.eval (z st) c) |}).
  reflexivity.
Qed.

Lemma burning_ship_escape_cached (n : nat) (c : Complex) :
  BurningShip.escape n c
  = (z (escape BurningShip.eval n c), count (escape BurningShip.eval n c)).
Proof.
  unfold BurningShip.escape, escape.
  apply (burning_ship_loop_cached n n c {| z := origin; count := 0; m := 0 |}).
  unfold magnitude2, origin; simpl. ring.
Qed.

(** X6: keeping the magnitude in [m], as revision 1.0 does, changes nothing:
    the loop of the earlier revisions, which calls [magnitude2] in its
    guard, stops on the same [z] and the same [count], and [count] never
    passes [max_iter]. *)
Theorem X6_loop_with_and_without_m (max_iter : nat) (c : Complex) :
  BurningShip.escape max_iter c
  = (z (escape BurningShip.eval max_iter c),
     count (escape BurningShip.eval max_iter c))
  /\ (snd (BurningShip.escape max_iter c) <= max_iter)%nat
  /\ m (escape BurningShip.eval max_iter c)
     = magnitude2 (fst (BurningShip.escape max_iter c)).
Proof.
  pose proof (burning_ship_escape_cached max_iter c) as E.
  split; [exact E|]. rewrite E; simpl. split.
  - apply escape_exits.
  - apply escape_walks_orbit.
Qed.

Lemma burning_ship_origin (c : Complex) :
  magnitude2 (BurningShip.eval origin c) = magnitude2 c.
Proof.
  unfold BurningShip.eval, magnitude2, add, multiply, origin; simpl.
  rewrite Rabs_R0. ring.
Qed.

(** X7: a constant on or outside the circle of radius 2 escapes in the
    first pass, under either map: [count = 1] and the magnitude is [|c|^2]. *)
Theorem X7_outside_escapes_at_once (max_iter : nat) (c : Complex) :
  (0 < max_iter)%nat -> 4 <= magnitude2 c ->
  count (escape Mandelbrot.eval max_iter c) = 1%nat
  /\ m (escape Mandelbrot.eval max_iter c) = magnitude2 c
  /\ snd (BurningShip.escape max_iter c) = 1%nat
  /\ magnitude2 (fst (BurningShip.escape max_iter c)) = magnitude2 c.
Proof.
  intros Hn Hc. destruct max_iter as [|n]; [lia|].
  rewrite burning_ship_escape_cached. cbn [fst snd].
  rewrite !escape_at_once.
  - simpl. rewrite eval_origin, burning_ship_origin. now repeat split.
  - now rewrite burning_ship_origin.
  - now rewrite eval_origin.
Qed.

Lemma X7_outside_escapes_at_once_witness :
  count (escape Mandelbrot.eval 50 {| imaginary := 3; real := -1 |}) = 1%nat
  /\ m (escape Mandelbrot.eval 50 {| imaginary := 3; real := -1 |})
     = magnitude2 {| imaginary := 3; real := -1 |}
  /\ snd (BurningShip.escape 50 {| imaginary := 3; real := -1 |}) = 1%nat
  /\ magnitude2 (fst (BurningShip.escape 50 {| imaginary := 3; real := -1 |}))
     = magnitude2 {| imaginary := 3; real := -1 |}.
Proof.
  apply (X7_outside_escapes_at_once 50 {| imaginary := 3; real := -1 |});
    [lia | unfold magnitude2; simpl; lra].
Defined.

Lemma magnitude2_burning_ship_le (v c : Complex) :
  magnitude2 (BurningShip.eval v c)
  <= 2 * (magnitude2 v * magnitude2 v) + 2 * magnitude2 c.
Proof.
  unfold BurningShip.eval, magnitude2, add, multiply; simpl.
  pose proof (Rabs_sqr_eq (real v)) as Er.
  pose proof (Rabs_sqr_eq (imaginary v)) as Ei.
  set (r := Rabs (real v)) in *. set (i := Rabs (imaginary v)) in *.
  set (a := real c). set (b := imaginary c).
  rewrite <- Er, <- Ei.
  assert (H1 : 0 <= (b - (r * i + i * r)) * (b - (r * i + i * r)))
    by apply Rle_0_sqr.
  assert (H2 : 0 <= (a - (r * r - i * i)) * (a - (r * r - i * i)))
    by apply Rle_0_sqr.
  nra.
Qed.

(** A constant of modulus at most 1/4 keeps the orbit within modulus 1/2. *)
Lemma small_constant_never_escapes (P : Complex -> Complex -> Complex)
    (n : nat) (c : Complex) :
  (forall v, magnitude2 (P v c)
             <= 2 * (magnitude2 v * magnitude2 v) + 2 * magnitude2 c) ->
  magnitude2 c <= / 16 ->
  count (escape P n c) = n /\ m (escape P n c) <= / 4.
Proof.
  intros HP Hc.
  set (J := fun st : loop_state => m st = magnitude2 (z st) /\ 0 <= m st <= / 4).
  assert (HJ : J (escape P n c)).
  { unfold escape. apply while_loop_invariant.
    - intros st (Hm & H0 & H4) _ _. unfold J; simpl.
      split; [reflexivity|].
      pose proof (HP (z st)) as Hle. rewrite <- Hm in Hle.
      split.
      + unfold magnitude2.
        pose proof (Rle_0_sqr (imaginary (P (z st) c))).
        pose proof (Rle_0_sqr (real (P (z st) c))). unfold Rsqr in *. lra.
      + nra.
    - unfold J; simpl. split; [unfold magnitude2, origin; simpl; ring | lra]. }
  destruct HJ as (_ & _ & H4).
  destruct (escape_exits P n c) as [Hexit Hle].
  split; [|exact H4].
  destruct (Nat.lt_ge_cases (count (escape P n c)) n) as [Hlt|Hge]; [|lia].
  exfalso. apply Hexit. split; [unfold threshold; lra | exact Hlt].
Qed.

(** X8: a constant of modulus at most 1/4 never escapes, under either map:
    the loop uses all [max_iter] passes and ends within modulus 1/2, and
    revision 1.0 paints the point in the black that ends the palette. *)
Theorem X8_small_constant_in_set (max_iter : nat) (c : Complex) :
  magnitude2 c <= / 16 ->
  count (escape Mandelbrot.eval max_iter c) = max_iter
  /\ m (escape Mandelbrot.eval max_iter c) <= / 4
  /\ snd (BurningShip.escape max_iter c) = max_iter
  /\ Mandelbrot.pixel_color (Mandelbrot.palette max_iter) max_iter
       (count (escape Mandelbrot.eval max_iter c))
       (m (escape Mandelbrot.eval max_iter c))
     = Normal (Some "#000000"%string).
Proof.
  intros Hc.
  destruct (small_constant_never_escapes Mandelbrot.eval max_iter c
              (fun v => magnitude2_eval_le v c) Hc) as [E1 M1].
  destruct (small_constant_never_escapes BurningShip.eval max_iter c
              (fun v => magnitude2_burning_ship_le v c) Hc) as [E2 _].
  split; [exact E1|]. split; [exact M1|]. split.
  - rewrite burning_ship_escape_cached. exact E2.
  - rewrite E1. rewrite pixel_color_plain by lia. now rewrite palette_black.
Qed.

Lemma X8_small_constant_in_set_witness :
  count (escape Mandelbrot.eval 1000 {| imaginary := / 8; real := - / 8 |}) = 1000%nat
  /\ m (escape Mandelbrot.eval 1000 {| imaginary := / 8; real := - / 8 |}) <= / 4
  /\ snd (BurningShip.escape 1000 {| imaginary := / 8; real := - / 8 |}) = 1000%nat
  /\ Mandelbrot.pixel_color (Mandelbrot.palette 1000) 1000
       (count (escape Mandelbrot.eval 1000 {| imaginary := / 8; real := - / 8 |}))
       (m (escape Mandelbrot.eval 1000 {| imaginary := / 8; real := - / 8 |}))
     = Normal (Some "#000000"%string).
Proof.
  apply (X8_small_constant_in_set 1000 {| imaginary := / 8; real := - / 8 |}).
  unfold magnitude2; simpl. lra.
Defined.

Lemma eval_conjugate (v c : Complex) :
  Mandelbrot.eval (conjugate v) (conjugate c) = conjugate (Mandelbrot.eval v c).
Proof.
  unfold Mandelbrot.eval, conjugate, add, multiply; simpl.
  apply complex_eq; simpl; ring.
Qed.

Lemma magnitude2_conjugate (v : Complex) : magnitude2 (conjugate v) = magnitude2 v.
Proof. unfold magnitude2, conjugate; simpl. ring. Qed.

Lemma while_loop_conjugate (fuel n : nat) (c : Complex) (st : loop_state) :
  while_loop Mandelbrot.eval fuel n (conjugate c)
    {| z := conjugate (z st); count := count st; m := m st |}
  = {| z := conjugate (z (while_loop Mandelbrot.eval fuel n c st));
       count := count (while_loop Mandelbrot.eval fuel n c st);
       m := m (while_loop Mandelbrot.eval fuel n c st) |}.
Proof.
  revert st. induction fuel as [|fuel IH]; intros st; simpl; [reflexivity|].
  destruct (Rlt_dec (m st) threshold) as [Hm|Hm]; [|reflexivity].
  destruct (Nat.ltb_spec (count st) n) as [Hc|Hc]; [|reflexivity].
  rewrite eval_conjugate, magnitude2_conjugate.
  apply (IH {| z := Mandelbrot.eval (z st) c; count := S (count st);
               m := magnitude2 (Mandelbrot.eval (z st) c) |}).
Qed.

Lemma escape_conjugate (n : nat) (c : Complex) :
  escape Mandelbrot.eval n (conjugate c)
  = {| z := conjugate (z (escape Mandelbrot.eval n c));
       count := count (escape Mandelbrot.eval n c);
       m := m (escape Mandelbrot.eval n c) |}.
Proof.
  unfold escape.
  rewrite <- (while_loop_conjugate n n c {| z := origin; count := 0; m := 0 |}).
  cbn [z count m]. f_equal. f_equal. unfold conjugate, origin.
  apply complex_eq; simpl; ring.
Qed.

(** X9: the quadratic map commutes with conjugation, so the loop of
    revision 1.0 run on the conjugate of [c] ends on the conjugate [z] with
    the same [count] and the same [m]: the set is symmetric about the real
    axis. *)
Theorem X9_escape_conjugate (max_iter : nat) (v c : Complex) :
  Mandelbrot.eval (conjugate v) (conjugate c) = conjugate (Mandelbrot.eval v c)
  /\ z (escape Mandelbrot.eval max_iter (conjugate c))
     = conjugate (z (escape Mandelbrot.eval max_iter c))
  /\ count (escape Mandelbrot.eval max_iter (conjugate c))
     = count (escape Mandelbrot.eval max_iter c)
  /\ m (escape Mandelbrot.eval max_iter (conjugate c))
     = m (escape Mandelbrot.eval max_iter c).
Proof.
  split; [apply eval_conjugate|].
  rewrite escape_conjugate. simpl. now repeat split.
Qed.

(** X11: raising [max_iter] never changes a point that has escaped: with a
    larger bound the loop stops on the same [z], [count] and [m]; and in
    general the count under the smaller bound is the count under the larger
    one cut off at the smaller bound. *)
Theorem X11_larger_bound_same_escape (P : Complex -> Complex -> Complex)
    (n n' : nat) (c : Complex) :
  (n <= n')%nat ->
  count (escape P n c) = Nat.min n (count (escape P n' c))
  /\ ((count (escape P n c) < n)%nat -> escape P n' c = escape P n c).
Proof.
  intros Hn.
  destruct (escape_walks_orbit P n' c) as (Hz' & Hm' & Hin').
  destruct (escape_exits P n' c) as [_ Hle'].
  assert (Hmin : count (escape P n c) = Nat.min n (count (escape P n' c))).
  { apply escape_count_unique.
    - lia.
    - intros j Hj. apply Hin'. lia.
    - destruct (Nat.le_gt_cases n (count (escape P n' c))) as [H|H].
      + left. lia.
      + right. rewrite Nat.min_r by lia. rewrite <- Hz', <- Hm'.
        apply escape_threshold. lia. }
  split; [exact Hmin|].
  intros Hlt.
  assert (Hc : count (escape P n' c) = count (escape P n c)) by lia.
  destruct (escape_walks_orbit P n c) as (Hz & Hm & _).
  clear Hmin.
  destruct (escape P n c) as [z1 c1 m1], (escape P n' c) as [z2 c2 m2].
  simpl in *. subst. reflexivity.
Qed.

Lemma X11_larger_bound_same_escape_witness :
  escape Mandelbrot.eval 500 {| imaginary := 0; real := 2 |}
  = escape Mandelbrot.eval 2 {| imaginary := 0; real := 2 |}.
Proof.
  apply (X11_larger_bound_same_escape Mandelbrot.eval 2 500
           {| imaginary := 0; real := 2 |}); [lia|].
  rewrite (proj1 (escape_two 1)). lia.
Defined.

(** ** The interpolators and the palette *)




Lemma toString16_digits_length (fuel : nat) (n : Z) (acc : string) :
  (String.length acc <= String.length (toString16_digits fuel n acc))%nat.
Proof.
  revert n acc. induction fuel as [|fuel IH]; intros n acc; simpl; [lia|].
  destruct (n <? 16)%Z; simpl; [lia|].
  etransitivity; [|apply IH]. simpl. lia.
Qed.

Lemma toString16_length_pos (n : Z) : (1 <= String.length (toString16 n))%nat.
Proof.
  unfold toString16. cbn [toString16_digits].
  destruct (n <? 16)%Z; [simpl; lia|].
  etransitivity; [|apply toString16_digits_length]. simpl. lia.
Qed.


Lemma string_length_app (s1 s2 : string) :
  String.length (s1 ++ s2) = (String.length s1 + String.length s2)%nat.
Proof.
  induction s1 as [|c s1 IH]; simpl; [reflexivity | now rewrite IH].
Qed.






Lemma floor_lerp_between (v1 v2 : Z) (t : R) :
  (0 <= v1)%Z -> (0 <= v2)%Z -> 0 <= t <= 1 -> between v1 v2 (floor_lerp v1 v2 t).
Proof.
  intros H1 H2 Ht. unfold between, floor_lerp, Math_floor.
  assert (A1 : 0 <= IZR v1) by now apply IZR_le.
  assert (A2 : 0 <= IZR v2) by now apply IZR_le.
  set (x := IZR v1 + t * (IZR v2 - IZR v1)).
  pose proof (Zfloor_bound x) as [Hb _].
  destruct (Z.le_ge_cases v1 v2) as [Hle|Hge].
  - rewrite Z.min_l, Z.max_r by lia. apply IZR_le in Hle.
    assert (Hx : IZR v1 <= x <= IZR v2) by (unfold x; nra).
    rewrite Rabs_right by lra.
    split; [apply Zfloor_lub; lra | apply le_IZR; lra].
  - rewrite Z.min_r, Z.max_l by lia. apply IZR_le in Hge.
    assert (Hx : IZR v2 <= x <= IZR v1) by (unfold x; nra).
    rewrite Rabs_right by lra.
    split; [apply Zfloor_lub; lra | apply le_IZR; lra].
Qed.

Lemma floor_lerp_toward (v1 v2 : Z) (t t' : R) :
  (0 <= v1)%Z -> (0 <= v2)%Z -> 0 <= t <= t' -> t' <= 1 ->
  toward v1 v2 (floor_lerp v1 v2 t) (floor_lerp v1 v2 t').
Proof.
  intros H1 H2 Ht Ht'. unfold toward, floor_lerp, Math_floor.
  assert (A1 : 0 <= IZR v1) by now apply IZR_le.
  assert (A2 : 0 <= IZR v2) by now apply IZR_le.
  split; intros Hle; apply IZR_le in Hle.
  - rewrite !Rabs_right by nra. apply Zfloor_le. nra.
  - rewrite !Rabs_right by nra. apply Zfloor_le. nra.
Qed.

(** X14: for two colours and weights [0 <= t <= t' <= 1], every channel of
    [linear_interpolate] lies between the channels of the two colours, and
    from [t] to [t'] it moves towards the second colour or stays. *)
Theorem X14_interpolate_between (a b : string) (t t' : R) :
  is_color a = true -> is_color b = true -> 0 <= t <= t' -> t' <= 1 ->
  exists r1 g1 b1 r2 g2 b2 r g b_ r' g' b',
    rgb a = Some (r1, g1, b1) /\ rgb b = Some (r2, g2, b2)
    /\ rgb (Mandelbrot.linear_interpolate a b t) = Some (r, g, b_)
    /\ rgb (Mandelbrot.linear_interpolate a b t') = Some (r', g', b')
    /\ between r1 r2 r /\ between g1 g2 g /\ between b1 b2 b_
    /\ toward r1 r2 r r' /\ toward g1 g2 g g' /\ toward b1 b2 b_ b'.
Proof.
  intros Ha Hb Ht Ht'.
  destruct (is_color_rgb a Ha) as (r1 & g1 & b1 & E1 & Hr1 & Hg1 & Hb1).
  destruct (is_color_rgb b Hb) as (r2 & g2 & b2 & E2 & Hr2 & Hg2 & Hb2).
  exists r1, g1, b1, r2, g2, b2.
  exists (floor_lerp r1 r2 t), (floor_lerp g1 g2 t), (floor_lerp b1 b2 t).
  exists (floor_lerp r1 r2 t'), (floor_lerp g1 g2 t'), (floor_lerp b1 b2 t').
  rewrite !(linear_interpolate_eq a b _ _ _ _ _ _ _ E1 E2).
  split; [exact E1|]. split; [exact E2|].
  split; [apply color_of_channels; apply floor_lerp_range; (lia || lra)|].
  split; [apply color_of_channels; apply floor_lerp_range; (lia || lra)|].
  repeat split; try (apply floor_lerp_between; (lia || lra));
    apply floor_lerp_toward; (lia || lra).
Qed.

Lemma X14_interpolate_between_witness :
  exists r1 g1 b1 r2 g2 b2 r g b_ r' g' b',
    rgb "#773399" = Some (r1, g1, b1) /\ rgb "#CCAA66" = Some (r2, g2, b2)
    /\ rgb (Mandelbrot.linear_interpolate "#773399" "#CCAA66" (/ 4)) = Some (r, g, b_)
    /\ rgb (Mandelbrot.linear_interpolate "#773399" "#CCAA66" (/ 2)) = Some (r', g', b')
    /\ between r1 r2 r /\ between g1 g2 g /\ between b1 b2 b_
    /\ toward r1 r2 r r' /\ toward g1 g2 g g' /\ toward b1 b2 b_ b'.
Proof.
  apply (X14_interpolate_between "#773399" "#CCAA66" (/ 4) (/ 2));
    [reflexivity | reflexivity | lra | lra].
Defined.

(** The weight of entry [i] grows with [i]. *)
Lemma palette_weight_mono (n i j : nat) :
  (i <= j)%nat -> (j < n)%nat ->
  sin (INR i * (PI / (2 * Rmax 1 (INR n - 1))))
  <= sin (INR j * (PI / (2 * Rmax 1 (INR n - 1)))).
Proof.
  intros Hij Hj. pose proof PI_RGT_0 as Hpi.
  set (d := Rmax 1 (INR n - 1)).
  assert (Hd1 : 1 <= d) by apply Rmax_l.
  assert (Hd2 : INR n - 1 <= d) by apply Rmax_r.
  assert (Hi0 : 0 <= INR i) by apply pos_INR.
  assert (Hle : INR i <= INR j) by now apply le_INR.
  assert (Hjn : INR j <= INR n - 1).
  { assert (Hs : (S j <= n)%nat) by lia.
    apply le_INR in Hs. rewrite S_INR in Hs. lra. }
  assert (Hq : forall k, 0 <= k <= INR n - 1 -> 0 <= k / d <= 1).
  { intros k Hk. split.
    - apply Rmult_le_pos; [lra | left; apply Rinv_0_lt_compat; lra].
    - apply (Rmult_le_reg_r d); [lra|].
      unfold Rdiv. rewrite Rmult_assoc, Rinv_l by lra. lra. }
  assert (Hqle : INR i / d <= INR j / d).
  { apply Rmult_le_compat_r; [left; apply Rinv_0_lt_compat; lra | exact Hle]. }
  pose proof (Hq (INR i) ltac:(lra)). pose proof (Hq (INR j) ltac:(lra)).
  replace (INR i * (PI / (2 * d))) with (INR i / d * (PI / 2)) by (field; lra).
  replace (INR j * (PI / (2 * d))) with (INR j / d * (PI / 2)) by (field; lra).
  apply sin_incr_1; nra.
Qed.

Lemma palette_entry (n i : nat) :
  (i < n)%nat ->
  array_get (Mandelbrot.palette n) (Z.of_nat i)
  = Some (Mandelbrot.linear_interpolate Mandelbrot.end_color Mandelbrot.mid_color
            (sin (INR i * (PI / (2 * Rmax 1 (INR n - 1)))))).
Proof.
  intros Hi.
  pose proof (palette_shape
                (fun i => Mandelbrot.linear_interpolate Mandelbrot.end_color
                            Mandelbrot.mid_color
                            (sin (INR i * (PI / (2 * Rmax 1 (INR n - 1))))))
                n) as (_ & _ & E).
  fold (Mandelbrot.palette n) in E. now apply E.
Qed.

(** X15: the palette of revision 1.0 is a gradient: entry 0 is [#773399],
    entry [max_iter - 1] is [#ccaa66] (when [max_iter >= 2]), and from one
    entry to a later one red and green never fall and blue never rises,
    within 0x77..0xcc, 0x33..0xaa and 0x66..0x99. *)
Theorem X15_palette_gradient (n i j : nat) :
  (i <= j)%nat -> (j < n)%nat ->
  exists ci cj r g b r' g' b',
    array_get (Mandelbrot.palette n) (Z.of_nat i) = Some ci
    /\ array_get (Mandelbrot.palette n) (Z.of_nat j) = Some cj
    /\ rgb ci = Some (r, g, b) /\ rgb cj = Some (r', g', b')
    /\ (119 <= r <= r' /\ r' <= 204)%Z
    /\ (51 <= g <= g' /\ g' <= 170)%Z
    /\ (102 <= b' <= b /\ b <= 153)%Z
    /\ (i = 0%nat -> ci = "#773399"%string)
    /\ ((2 <= n)%nat -> j = (n - 1)%nat -> cj = "#ccaa66"%string).
Proof.
  intros Hij Hj.
  set (w := fun k => sin (INR k * (PI / (2 * Rmax 1 (INR n - 1))))).
  assert (Hwi : 0 <= w i <= 1) by (apply palette_weight_range; lia).
  assert (Hwj : 0 <= w j <= 1) by (apply palette_weight_range; lia).
  assert (Hw : w i <= w j) by now apply palette_weight_mono.
  assert (E1 : rgb Mandelbrot.end_color = Some (119, 51, 153)%Z) by reflexivity.
  assert (E2 : rgb Mandelbrot.mid_color = Some (204, 170, 102)%Z) by reflexivity.
  exists (Mandelbrot.linear_interpolate Mandelbrot.end_color Mandelbrot.mid_color (w i)),
         (Mandelbrot.linear_interpolate Mandelbrot.end_color Mandelbrot.mid_color (w j)).
  exists (floor_lerp 119 204 (w i)), (floor_lerp 51 170 (w i)),
         (floor_lerp 153 102 (w i)).
  exists (floor_lerp 119 204 (w j)), (floor_lerp 51 170 (w j)),
         (floor_lerp 153 102 (w j)).
  split; [apply palette_entry; lia|]. split; [now apply palette_entry|].
  rewrite !(linear_interpolate_eq _ _ _ _ _ _ _ _ _ E1 E2).
  split; [apply color_of_channels; apply floor_lerp_range; (lia || lra)|].
  split; [apply color_of_channels; apply floor_lerp_range; (lia || lra)|].
  pose proof (floor_lerp_between 119 204 (w i) ltac:(lia) ltac:(lia) Hwi) as Br.
  pose proof (floor_lerp_between 119 204 (w j) ltac:(lia) ltac:(lia) Hwj) as Br'.
  pose proof (floor_lerp_between 51 170 (w i) ltac:(lia) ltac:(lia) Hwi) as Bg.
  pose proof (floor_lerp_between 51 170 (w j) ltac:(lia) ltac:(lia) Hwj) as Bg'.
  pose proof (floor_lerp_between 153 102 (w i) ltac:(lia) ltac:(lia) Hwi) as Bb.
  pose proof (floor_lerp_between 153 102 (w j) ltac:(lia) ltac:(lia) Hwj) as Bb'.
  pose proof (floor_lerp_toward 119 204 (w i) (w j) ltac:(lia) ltac:(lia)
                ltac:(lra) ltac:(lra)) as [Tr _].
  pose proof (floor_lerp_toward 51 170 (w i) (w j) ltac:(lia) ltac:(lia)
                ltac:(lra) ltac:(lra)) as [Tg _].
  pose proof (floor_lerp_toward 153 102 (w i) (w j) ltac:(lia) ltac:(lia)
                ltac:(lra) ltac:(lra)) as [_ Tb].
  unfold between in *.
  split; [lia|]. split; [lia|]. split; [lia|]. split.
  - intros ->. unfold w. simpl INR. rewrite Rmult_0_l, sin_0.
    rewrite !floor_lerp_0 by lia. reflexivity.
  - intros Hn ->. unfold w.
    assert (Hn1 : INR (n - 1) = INR n - 1) by (rewrite minus_INR by lia; simpl; lra).
    assert (H1 : 1 <= INR n - 1).
    { rewrite <- Hn1. change 1 with (INR 1). apply le_INR. lia. }
    rewrite Rmax_right by exact H1. rewrite Hn1.
    replace ((INR n - 1) * (PI / (2 * (INR n - 1)))) with (PI / 2) by (field; lra).
    rewrite sin_PI2. rewrite !floor_lerp_1 by lia. reflexivity.
Qed.

Lemma X15_palette_gradient_witness :
  exists ci cj r g b r' g' b',
    array_get (Mandelbrot.palette 50) (Z.of_nat 3) = Some ci
    /\ array_get (Mandelbrot.palette 50) (Z.of_nat 49) = Some cj
    /\ rgb ci = Some (r, g, b) /\ rgb cj = Some (r', g', b')
    /\ (119 <= r <= r' /\ r' <= 204)%Z
    /\ (51 <= g <= g' /\ g' <= 170)%Z
    /\ (102 <= b' <= b /\ b <= 153)%Z
    /\ (3%nat = 0%nat -> ci = "#773399"%string)
    /\ ((2 <= 50)%nat -> 49%nat = (50 - 1)%nat -> cj = "#ccaa66"%string).
Proof.
  apply (X15_palette_gradient 50 3 49); lia.
Defined.

(** ** The timer callback of revision 1.0 *)

(** Whatever the points do, the nested loops only ever call [fillRect], on
    points of the tile. *)
Lemma paint_fills (s : Mandelbrot.session) (pixels : list (Z * Z)) (e : effect) :
  In e (fst (Mandelbrot.paint s pixels)) ->
  exists color x y,
    e = fillRect color x y Mandelbrot.ptw Mandelbrot.ptw /\ In (x, y) pixels.
Proof.
  induction pixels as [|[x0 y0] rest IH]; simpl; [intros []|].
  destruct (Mandelbrot.pixel s x0 y0) as [color|]; [|intros []].
  destruct (Mandelbrot.paint s rest) as [effects finished]. simpl in *.
  intros [<-|Hin].
  - exists color, x0, y0. split; [reflexivity | now left].
  - destruct (IH Hin) as (c & x & y & -> & Hxy).
    exists c, x, y. split; [reflexivity | now right].
Qed.

Lemma run_complete (s : Mandelbrot.session) (n : nat) (cur : cursor) :
  Mandelbrot.complete s cur = true ->
  Mandelbrot.run s n cur = (cur, repeat informer_hide n).
Proof.
  intros Hc. induction n as [|n IH]; simpl; [reflexivity|].
  rewrite (tick_complete s cur Hc), IH. reflexivity.
Qed.

Lemma tick_hides (s : Mandelbrot.session) (cur : cursor) :
  In informer_hide (snd (Mandelbrot.tick s cur)) -> Mandelbrot.complete s cur = true.
Proof.
  unfold Mandelbrot.tick, Mandelbrot.complete.
  destruct ((Mandelbrot.xdiff s <=? xcurr cur) && (Mandelbrot.ydiff s <=? ycurr cur))%Z;
    [reflexivity|].
  set (tile := if (Mandelbrot.xdiff s <=? xcurr cur)%Z
               then {| xcurr := 0; ycurr := ycurr cur + Mandelbrot.yd s |} else cur).
  pose proof (paint_fills s (Mandelbrot.tile_pixels s tile)) as Hf.
  destruct (Mandelbrot.paint s (Mandelbrot.tile_pixels s tile)) as [fills finished].
  simpl. intros [Hc|Hin]; [discriminate|].
  destruct (Hf _ Hin) as (c & x & y & Hc & _). discriminate.
Qed.

Lemma run_hides (s : Mandelbrot.session) (n : nat) (cur : cursor) :
  In informer_hide (snd (Mandelbrot.run s n cur)) ->
  Mandelbrot.complete s (fst (Mandelbrot.run s n cur)) = true.
Proof.
  revert cur. induction n as [|n IH]; intros cur; simpl; [intros []|].
  destruct (Mandelbrot.tick s cur) as [cur1 effects1] eqn:Et.
  specialize (IH cur1).
  destruct (Mandelbrot.run s n cur1) as [cur2 effects2] eqn:Er.
  simpl in *. intros Hin. apply in_app_or in Hin as [Hin|Hin].
  - assert (Hc : Mandelbrot.complete s cur = true)
      by (apply tick_hides; rewrite Et; exact Hin).
    rewrite (tick_complete s cur Hc) in Et. injection Et as <- _.
    rewrite (run_complete s n cur Hc) in Er. injection Er as <- _.
    exact Hc.
  - now apply IH.
Qed.

(** X16: the callback of revision 1.0 sets [informer.value = "hide"] in a
    run exactly when the sweep is complete; a complete session stays
    complete and does nothing else, however often the timer fires; so the
    informer is never hidden before the end. *)
Theorem X16_informer_hidden_iff_complete (s : Mandelbrot.session) (cur : cursor)
    (n : nat) :
  (In informer_hide (snd (Mandelbrot.tick s cur))
   <-> Mandelbrot.complete s cur = true)
  /\ (Mandelbrot.complete s cur = true ->
      Mandelbrot.run s n cur = (cur, repeat informer_hide n))
  /\ (In informer_hide (snd (Mandelbrot.run s n cur)) ->
      Mandelbrot.complete s (fst (Mandelbrot.run s n cur)) = true).
Proof.
  split; [split; [apply tick_hides|]|split; [apply run_complete | apply run_hides]].
  intros Hc. rewrite (tick_complete s cur Hc). now left.
Qed.

Lemma tick_throws (s : Mandelbrot.session) (cur : cursor) :
  (xcurr cur < Mandelbrot.xdiff s)%Z ->
  snd (Mandelbrot.paint s (Mandelbrot.tile_pixels s cur)) = false ->
  Mandelbrot.tick s cur
  = (cur, clearRect (xcurr cur) (ycurr cur) (Mandelbrot.xd s) (Mandelbrot.yd s)
          :: fst (Mandelbrot.paint s (Mandelbrot.tile_pixels s cur))).
Proof.
  intros Hx Hp. unfold Mandelbrot.tick.
  destruct (Z.leb_spec (Mandelbrot.xdiff s) (xcurr cur)) as [H|_]; [lia|].
  cbn [andb].
  destruct (Mandelbrot.paint s (Mandelbrot.tile_pixels s cur)) as [fills finished].
  simpl in Hp. subst finished. reflexivity.
Qed.

(** X17: an exception stalls a session of revision 1.0 for good.  When a
    point of the tile under the cursor throws, the callback ends before it
    moves the cursor; every later run clears the same tile, fills the same
    points before the failing one and throws again; the sweep never
    completes. *)
Theorem X17_exception_stalls_session (s : Mandelbrot.session) (cur : cursor)
    (n : nat) :
  (xcurr cur < Mandelbrot.xdiff s)%Z ->
  snd (Mandelbrot.paint s (Mandelbrot.tile_pixels s cur)) = false ->
  Mandelbrot.run s n cur
  = (cur,
     List.concat (repeat (clearRect (xcurr cur) (ycurr cur)
                       (Mandelbrot.xd s) (Mandelbrot.yd s)
                     :: fst (Mandelbrot.paint s (Mandelbrot.tile_pixels s cur))) n))
  /\ Mandelbrot.complete s (fst (Mandelbrot.run s n cur)) = false
  /\ ~ In informer_hide (snd (Mandelbrot.run s n cur)).
Proof.
  intros Hx Hp.
  assert (Hrun : Mandelbrot.run s n cur
                 = (cur,
                    List.concat (repeat (clearRect (xcurr cur) (ycurr cur)
                                      (Mandelbrot.xd s) (Mandelbrot.yd s)
                                    :: fst (Mandelbrot.paint s
                                              (Mandelbrot.tile_pixels s cur))) n))).
  { induction n as [|n IH]; [reflexivity|].
    cbn [Mandelbrot.run]. rewrite (tick_throws s cur Hx Hp), IH. reflexivity. }
  assert (Hc : Mandelbrot.complete s cur = false).
  { unfold Mandelbrot.complete.
    destruct (Z.leb_spec (Mandelbrot.xdiff s) (xcurr cur)); [lia | reflexivity]. }
  split; [exact Hrun|]. split; [rewrite Hrun; exact Hc|].
  intros Hin.
  pose proof (run_hides s n cur Hin) as Hc'.
  rewrite Hrun in Hc'. simpl in Hc'. congruence.
Qed.

(** The point 512 on a canvas of 40 by 20: the first point of the first
    tile throws. *)
Lemma far_region_throws :
  let s := Mandelbrot.graph_session 40 20 3 (-513) (-512) (-1) 0 in
  (Mandelbrot.xd s = 1 /\ Mandelbrot.yd s = 1)%Z
  /\ Mandelbrot.pixel s 0 0 = Throw.
Proof.
  intros s. split; [apply graph_session_tile|].
  unfold Mandelbrot.pixel.
  set (c := Mandelbrot.pixel_constant s 0 0).
  assert (Hc : magnitude2 c = 262144).
  { unfold c, Mandelbrot.pixel_constant, s, Mandelbrot.graph_session, magnitude2.
    cbn [Mandelbrot.xf Mandelbrot.yf Mandelbrot.xc Mandelbrot.yc imaginary real].
    field. }
  change (Mandelbrot.max_iter s) with 3%nat.
  change (Mandelbrot.colors s) with (Mandelbrot.palette 3).
  rewrite (escape_at_once Mandelbrot.eval 2 c) by (rewrite eval_origin; lra).
  cbn [count m]. rewrite eval_origin, Hc.
  rewrite pixel_color_smooth by (try lia; lra).
  unfold smooth_color.
  replace (Math_floor (normalized_iteration_count 1 262144)) with (-2)%Z.
  - now rewrite array_get_negative by lia.
  - symmetry. apply Math_floor_eq. pose proof normalized_iteration_count_262144. lra.
Qed.

Lemma X17_exception_stalls_session_witness :
  let s := Mandelbrot.graph_session 40 20 3 (-513) (-512) (-1) 0 in
  Mandelbrot.complete s (fst (Mandelbrot.run s 7 {| xcurr := 0; ycurr := 0 |})) = false.
Proof.
  intros s.
  destruct far_region_throws as [[Ex Ey] Hp]. fold s in Ex, Ey, Hp.
  apply (X17_exception_stalls_session s {| xcurr := 0; ycurr := 0 |} 7).
  - simpl. lia.
  - unfold Mandelbrot.tile_pixels. rewrite Ex, Ey. cbn [xcurr ycurr].
    change (range 0 1) with [0%Z]. cbn [flat_map map app Mandelbrot.paint].
    rewrite Hp. reflexivity.
Defined.

Lemma tile_pixels_empty (s : Mandelbrot.session) (cur : cursor) :
  (Mandelbrot.xd s = 0 \/ Mandelbrot.yd s = 0)%Z -> Mandelbrot.tile_pixels s cur = [].
Proof.
  unfold Mandelbrot.tile_pixels. intros [-> | ->]; [reflexivity|].
  change (range (ycurr cur) 0) with (@nil Z).
  induction (range (xcurr cur) (Mandelbrot.xd s)) as [|x xs IH]; [reflexivity|].
  simpl. exact IH.
Qed.

(** With a tile of width or height 0 a run of the callback clears an empty
    rectangle and leaves the cursor in the row 0 it started in. *)
Lemma run_empty_tiles (s : Mandelbrot.session) (n : nat) (cur : cursor) :
  (0 < Mandelbrot.xdiff s)%Z -> (0 < Mandelbrot.ydiff s)%Z ->
  (0 <= Mandelbrot.xd s)%Z ->
  (Mandelbrot.xd s = 0 \/ Mandelbrot.yd s = 0)%Z ->
  (ycurr cur < Mandelbrot.ydiff s)%Z ->
  (Mandelbrot.xd s = 0 -> xcurr cur < Mandelbrot.xdiff s)%Z ->
  (ycurr (fst (Mandelbrot.run s n cur)) < Mandelbrot.ydiff s)%Z
  /\ forallb is_clearRect (snd (Mandelbrot.run s n cur)) = true.
Proof.
  intros HW HH Hxd H0. revert cur.
  induction n as [|n IH]; intros cur Hy Hx; [now split|].
  cbn [Mandelbrot.run]. unfold Mandelbrot.tick.
  destruct (Z.leb_spec (Mandelbrot.ydiff s) (ycurr cur)) as [H|_]; [lia|].
  rewrite andb_false_r.
  set (tile := if (Mandelbrot.xdiff s <=? xcurr cur)%Z
               then {| xcurr := 0; ycurr := ycurr cur + Mandelbrot.yd s |} else cur).
  rewrite (tile_pixels_empty s tile H0). cbn [Mandelbrot.paint].
  assert (Ht : (ycurr tile < Mandelbrot.ydiff s)%Z
               /\ (Mandelbrot.xd s = 0 ->
                   xcurr tile + Mandelbrot.xd s < Mandelbrot.xdiff s)%Z).
  { unfold tile.
    destruct (Z.leb_spec (Mandelbrot.xdiff s) (xcurr cur)) as [Hw|Hw];
      cbn [xcurr ycurr].
    - destruct H0 as [H0|H0]; [specialize (Hx H0); lia|]. lia.
    - split; [exact Hy | lia]. }
  destruct Ht as [Hty Htx].
  specialize (IH {| xcurr := xcurr tile + Mandelbrot.xd s; ycurr := ycurr tile |}
                Hty Htx).
  destruct (Mandelbrot.run s n _) as [cur2 effects2]. cbn [fst snd] in *.
  split; [apply IH|]. cbn [app forallb is_clearRect andb]. apply IH.
Qed.

(** X18: on a canvas narrower than 20 or lower than 10 pixels the tile of
    revision 1.0 has width or height 0 ([Math.round] of less than a half),
    and the session never draws and never ends: every run of the callback
    only calls [clearRect], no point is filled, the informer is never
    hidden. *)
Theorem X18_small_canvas_never_drawn (W H : Z) (max_iter : nat)
    (rxmin rxmax rymin rymax : R) (n : nat) :
  (0 < W)%Z -> (0 < H)%Z -> (W < 20 \/ H < 10)%Z ->
  let s := Mandelbrot.graph_session W H max_iter rxmin rxmax rymin rymax in
  (Mandelbrot.xd s = 0 \/ Mandelbrot.yd s = 0)%Z
  /\ Mandelbrot.complete s (fst (Mandelbrot.run s n {| xcurr := 0; ycurr := 0 |}))
     = false
  /\ forallb is_clearRect (snd (Mandelbrot.run s n {| xcurr := 0; ycurr := 0 |}))
     = true.
Proof.
  intros HW HH Hsmall s.
  destruct (graph_session_tile W H max_iter rxmin rxmax rymin rymax) as [Ex Ey].
  fold s in Ex, Ey.
  assert (Hxd : (0 <= Mandelbrot.xd s)%Z) by (rewrite Ex; apply Z.div_pos; lia).
  assert (H0 : (Mandelbrot.xd s = 0 \/ Mandelbrot.yd s = 0)%Z).
  { destruct Hsmall as [Hs|Hs]; [left; rewrite Ex | right; rewrite Ey];
      apply Z.div_small; lia. }
  split; [exact H0|].
  destruct (run_empty_tiles s n {| xcurr := 0; ycurr := 0 |}) as [Hy Hc];
    try assumption; try (cbn [xcurr ycurr]; change (Mandelbrot.ydiff s) with H;
                         change (Mandelbrot.xdiff s) with W; lia).
  split; [|exact Hc].
  unfold Mandelbrot.complete.
  destruct (Z.leb_spec (Mandelbrot.ydiff s)
              (ycurr (fst (Mandelbrot.run s n {| xcurr := 0; ycurr := 0 |}))));
    [lia | apply andb_false_r].
Qed.

Lemma X18_small_canvas_never_drawn_witness :
  let s := Mandelbrot.graph_session 300 8 50 (-1) (5/2) (-1) 1 in
  (Mandelbrot.xd s = 0 \/ Mandelbrot.yd s = 0)%Z
  /\ Mandelbrot.complete s (fst (Mandelbrot.run s 1000 {| xcurr := 0; ycurr := 0 |}))
     = false
  /\ forallb is_clearRect (snd (Mandelbrot.run s 1000 {| xcurr := 0; ycurr := 0 |}))
     = true.
Proof.
  apply (X18_small_canvas_never_drawn 300 8 50 (-1) (5/2) (-1) 1 1000); lia.
Defined.

(** ** The oldest revision: its palette index and its sweep *)

Lemma burning_ship_palette_shape (print : R -> string) (n : nat) :
  List.length (BurningShip.palette print n) = (n + 1)%nat
  /\ array_get (BurningShip.palette print n) (Z.of_nat n) = Some "#000000"%string
  /\ (forall i, (i < n)%nat ->
        array_get (BurningShip.palette print n) (Z.of_nat i)
        = Some (let str := ("000000" ++ print (INR i * (256 * 256 * 256 / INR n)))%string in
                String "#" (substring str (String.length str - 7)
                              (String.length str - 1)))).
Proof.
  apply (palette_shape
           (fun i =>
              let str := ("000000" ++ print (INR i * (256 * 256 * 256 / INR n)))%string in
              String "#" (substring str (String.length str - 7)
                            (String.length str - 1))) n).
Qed.

(** X19: in the oldest revision every point gets a style that exists:
    [colors[count]] is read at an index between 1 and [max_iter] (0 only if
    [max_iter] is 0), so the first entry of the palette is never used, no
    style is [undefined], and a point that used all passes gets the black
    that ends the palette. *)
Theorem X19_oldest_pixel_styled (print : R -> string) (s : Mandelbrot.session)
    (x y : R) :
  Mandelbrot.colors s = BurningShip.palette print (Mandelbrot.max_iter s) ->
  exists k color,
    k = snd (BurningShip.escape (Mandelbrot.max_iter s)
               (Mandelbrot.pixel_constant s x y))
    /\ (k <= Mandelbrot.max_iter s)%nat
    /\ ((0 < Mandelbrot.max_iter s)%nat -> (1 <= k)%nat)
    /\ BurningShip.pixel s x y = Some color
    /\ array_get (Mandelbrot.colors s) (Z.of_nat k) = Some color
    /\ (k = Mandelbrot.max_iter s -> color = "#000000"%string).
Proof.
  intros Hcolors.
  set (n := Mandelbrot.max_iter s) in *.
  set (c := Mandelbrot.pixel_constant s x y).
  pose proof (burning_ship_escape_cached n c) as E.
  destruct (escape_exits BurningShip.eval n c) as [_ Hle].
  pose proof (escape_count_pos BurningShip.eval n c) as Hpos.
  destruct (burning_ship_palette_shape print n) as (_ & B & F).
  unfold BurningShip.pixel. fold n c. rewrite E, Hcolors. cbn [snd].
  set (k := count (escape BurningShip.eval n c)) in *.
  destruct (Nat.eq_dec k n) as [Hk|Hk].
  - exists k, "#000000"%string.
    split; [reflexivity|]. split; [exact Hle|]. split; [exact Hpos|].
    rewrite Hk. now repeat split.
  - pose proof (F k ltac:(lia)) as Fk.
    eexists k, _.
    split; [reflexivity|]. split; [exact Hle|]. split; [exact Hpos|].
    split; [exact Fk|]. split; [exact Fk|].
    intros Hk'. contradiction.
Qed.

Lemma X19_oldest_pixel_styled_witness :
  let s := BurningShip.graph_session (fun _ => "0"%string) 40 20 10 (-1) (5/2) (-1) 1 in
  exists k color,
    k = snd (BurningShip.escape (Mandelbrot.max_iter s)
               (Mandelbrot.pixel_constant s 3 (7/2)))
    /\ (k <= Mandelbrot.max_iter s)%nat
    /\ ((0 < Mandelbrot.max_iter s)%nat -> (1 <= k)%nat)
    /\ BurningShip.pixel s 3 (7/2) = Some color
    /\ array_get (Mandelbrot.colors s) (Z.of_nat k) = Some color
    /\ (k = Mandelbrot.max_iter s -> color = "#000000"%string).
Proof.
  intros s.
  apply (X19_oldest_pixel_styled (fun _ => "0"%string) s 3 (7/2)). reflexivity.
Defined.

Lemma oldest_pixel_defined (print : R -> string) (s : Mandelbrot.session) (x y : R) :
  Mandelbrot.colors s = BurningShip.palette print (Mandelbrot.max_iter s) ->
  exists color, BurningShip.pixel s x y = Some color.
Proof.
  intros Hcolors.
  set (n := Mandelbrot.max_iter s) in *.
  set (c := Mandelbrot.pixel_constant s x y).
  pose proof (burning_ship_escape_cached n c) as E.
  destruct (escape_exits BurningShip.eval n c) as [_ Hle].
  destruct (burning_ship_palette_shape print n) as (_ & B & F).
  unfold BurningShip.pixel. fold n c. rewrite E, Hcolors.
  destruct (Nat.eq_dec (count (escape BurningShip.eval n c)) n) as [Hk|Hk].
  - rewrite Hk. eexists. exact B.
  - eexists. apply F. lia.
Qed.

Lemma half_range_In (from len a : Z) :
  (2 * from <= a < 2 * from + 2 * len)%Z ->
  In (half a) (BurningShip.half_range from len).
Proof.
  intros Ha. unfold BurningShip.half_range. apply in_map_iff.
  exists (Z.to_nat (a - 2 * from)). split.
  - rewrite INR_IZR_INZ, Z2Nat.id by lia. unfold half.
    rewrite minus_IZR, mult_IZR. lra.
  - apply in_seq. lia.
Qed.

Lemma half_range_bounds (from len : Z) (v : R) :
  In v (BurningShip.half_range from len) ->
  IZR from <= v /\ v + / 2 <= IZR from + IZR len.
Proof.
  unfold BurningShip.half_range. intros Hin.
  apply in_map_iff in Hin as (k & <- & Hk). apply in_seq in Hk.
  pose proof (pos_INR k) as H0.
  assert (Hk' : (Z.of_nat k + 1 <= 2 * len)%Z) by lia.
  apply IZR_le in Hk'. rewrite plus_IZR, mult_IZR, <- INR_IZR_INZ in Hk'.
  lra.
Qed.

Lemma oldest_tile_pixels_In (s : Mandelbrot.session) (cur : cursor) (a b : Z) :
  (2 * xcurr cur <= a < 2 * xcurr cur + 2 * Mandelbrot.xd s)%Z ->
  (2 * ycurr cur <= b < 2 * ycurr cur + 2 * Mandelbrot.yd s)%Z ->
  In (half a, half b) (BurningShip.tile_pixels s cur).
Proof.
  intros Ha Hb. unfold BurningShip.tile_pixels. apply in_flat_map.
  exists (half a). split; [now apply half_range_In|].
  apply in_map. now apply half_range_In.
Qed.

Lemma flat_map_pairs_length (A B : Type) (l1 : list A) (l2 : list B) :
  List.length (flat_map (fun x => map (fun y => (x, y)) l2) l1)
  = (List.length l1 * List.length l2)%nat.
Proof.
  induction l1 as [|x l1 IH]; [reflexivity|].
  cbn [flat_map List.length]. rewrite List.length_app, length_map, IH. lia.
Qed.

Lemma oldest_tile_pixels_length (s : Mandelbrot.session) (cur : cursor) :
  List.length (BurningShip.tile_pixels s cur)
  = (Z.to_nat (2 * Mandelbrot.xd s) * Z.to_nat (2 * Mandelbrot.yd s))%nat.
Proof.
  unfold BurningShip.tile_pixels. rewrite flat_map_pairs_length.
  unfold BurningShip.half_range. now rewrite !length_map, !length_seq.
Qed.

Lemma oldest_tick_complete (s : Mandelbrot.session) (cur : cursor) :
  Mandelbrot.complete s cur = true ->
  BurningShip.tick s cur = (cur, [BurningShip.clearInterval]).
Proof.
  unfold Mandelbrot.complete, BurningShip.tick. now intros ->.
Qed.

Lemma oldest_run_complete (s : Mandelbrot.session) (n : nat) (cur : cursor) :
  Mandelbrot.complete s cur = true ->
  BurningShip.run s (S n) cur = (cur, [BurningShip.clearInterval]).
Proof.
  intros Hc. cbn [BurningShip.run].
  now rewrite (oldest_tick_complete s cur Hc), Hc.
Qed.

(** X20: a run of the callback of the oldest revision on a session that is
    not complete clears the tile under the cursor, fills [2 xd] times
    [2 yd] squares of side 0.5, four to a pixel, each inside the tile and
    each with the style of its point, and moves the cursor on by a tile: it
    cannot fail, so the cursor always advances. *)
Theorem X20_oldest_tick_paints_quarters (s : Mandelbrot.session) (cur : cursor) :
  Mandelbrot.complete s cur = false ->
  let tile := if (Mandelbrot.xdiff s <=? xcurr cur)%Z
              then {| xcurr := 0; ycurr := ycurr cur + Mandelbrot.yd s |}
              else cur in
  exists fills,
    BurningShip.tick s cur
    = (next_cursor (Mandelbrot.xdiff s) (Mandelbrot.ydiff s)
         (Mandelbrot.xd s) (Mandelbrot.yd s) cur,
       BurningShip.clearRect (xcurr tile) (ycurr tile)
         (Mandelbrot.xd s) (Mandelbrot.yd s) :: fills)
    /\ List.length fills
       = (Z.to_nat (2 * Mandelbrot.xd s) * Z.to_nat (2 * Mandelbrot.yd s))%nat
    /\ (forall e, In e fills ->
          exists x y,
            e = BurningShip.fillRect (BurningShip.pixel s x y) x y (/ 2) (/ 2)
            /\ IZR (xcurr tile) <= x
            /\ x + / 2 <= IZR (xcurr tile) + IZR (Mandelbrot.xd s)
            /\ IZR (ycurr tile) <= y
            /\ y + / 2 <= IZR (ycurr tile) + IZR (Mandelbrot.yd s))
    /\ (forall a b,
          (2 * xcurr tile <= a < 2 * xcurr tile + 2 * Mandelbrot.xd s)%Z ->
          (2 * ycurr tile <= b < 2 * ycurr tile + 2 * Mandelbrot.yd s)%Z ->
          quarter_painted fills a b).
Proof.
  intros Hc tile.
  exists (map (fun p => BurningShip.fillRect
                          (BurningShip.pixel s (fst p) (snd p)) (fst p) (snd p)
                          (/ 2) (/ 2))
            (BurningShip.tile_pixels s tile)).
  split; [|split; [|split]].
  - unfold BurningShip.tick, next_cursor. unfold Mandelbrot.complete in Hc.
    rewrite Hc. reflexivity.
  - rewrite length_map. apply oldest_tile_pixels_length.
  - intros e Hin. apply in_map_iff in Hin as ([x y] & <- & Hin).
    exists x, y. cbn [fst snd]. split; [reflexivity|].
    unfold BurningShip.tile_pixels in Hin.
    apply in_flat_map in Hin as (x' & Hx & Hin).
    apply in_map_iff in Hin as (y' & [= <- <-] & Hy).
    apply half_range_bounds in Hx, Hy. lra.
  - intros a b Ha Hb. exists (BurningShip.pixel s (half a) (half b)).
    apply in_map_iff. exists (half a, half b).
    split; [reflexivity | now apply oldest_tile_pixels_In].
Qed.

Lemma X20_oldest_tick_paints_quarters_witness :
  let s := BurningShip.graph_session (fun _ => "0"%string) 40 20 10 (-1) (5/2) (-1) 1 in
  exists fills,
    BurningShip.tick s {| xcurr := 40; ycurr := 3 |}
    = (next_cursor (Mandelbrot.xdiff s) (Mandelbrot.ydiff s)
         (Mandelbrot.xd s) (Mandelbrot.yd s) {| xcurr := 40; ycurr := 3 |},
       BurningShip.clearRect 0 (3 + Mandelbrot.yd s)
         (Mandelbrot.xd s) (Mandelbrot.yd s) :: fills)
    /\ List.length fills
       = (Z.to_nat (2 * Mandelbrot.xd s) * Z.to_nat (2 * Mandelbrot.yd s))%nat.
Proof.
  intros s.
  destruct (X20_oldest_tick_paints_quarters s {| xcurr := 40; ycurr := 3 |})
    as (fills & Et & Hl & _); [reflexivity|].
  exists fills. split; [exact Et | exact Hl].
Defined.

Section OldestSweep.

Variable s : Mandelbrot.session.

Local Abbreviation W := (Mandelbrot.xdiff s).
Local Abbreviation H := (Mandelbrot.ydiff s).
Local Abbreviation xd := (Mandelbrot.xd s).
Local Abbreviation yd := (Mandelbrot.yd s).

Hypothesis canvas_width : (0 < W)%Z.
Hypothesis canvas_height : (0 < H)%Z.
Hypothesis tile_width : (0 < xd)%Z.
Hypothesis tile_height : (0 < yd)%Z.

Hypothesis every_style :
  forall x y, exists color, BurningShip.pixel s x y = Some color.

Lemma oldest_fills_styled (cur : cursor) :
  forallb styled
    (map (fun p => BurningShip.fillRect
                     (BurningShip.pixel s (fst p) (snd p)) (fst p) (snd p)
                     (/ 2) (/ 2))
       (BurningShip.tile_pixels s cur)) = true.
Proof.
  apply forallb_forall. intros e Hin.
  apply in_map_iff in Hin as ([x y] & <- & _). cbn [fst snd].
  destruct (every_style x y) as (color & ->). reflexivity.
Qed.

Lemma oldest_fills_no_clearInterval (cur : cursor) :
  forallb (fun e => negb (is_clearInterval e))
    (map (fun p => BurningShip.fillRect
                     (BurningShip.pixel s (fst p) (snd p)) (fst p) (snd p)
                     (/ 2) (/ 2))
       (BurningShip.tile_pixels s cur)) = true.
Proof.
  apply forallb_forall. intros e Hin.
  apply in_map_iff in Hin as ([x y] & <- & _). reflexivity.
Qed.

(** From any cursor the session can reach, finitely many runs of the
    callback lead to the run that clears the timer; by then every square of
    the canvas that was still to come has been filled. *)
Lemma oldest_run_to_completion (k : nat) (cur : cursor) :
  (ticks_left s cur < Z.of_nat k)%Z -> cursor_ok s cur ->
  exists n effects,
    BurningShip.run s n cur = (fst (BurningShip.run s n cur),
                               effects ++ [BurningShip.clearInterval])%list
    /\ Mandelbrot.complete s (fst (BurningShip.run s n cur)) = true
    /\ forallb (fun e => negb (is_clearInterval e)) effects = true
    /\ forallb styled effects = true
    /\ (forall n', (n <= n')%nat -> BurningShip.run s n' cur = BurningShip.run s n cur)
    /\ (forall a b, remaining_half s cur a b -> quarter_painted effects a b).
Proof.
  revert cur. induction k as [|k IH]; intros cur Hk Hok.
  { destruct Hok as [Hx Hy]. unfold ticks_left in Hk. nia. }
  destruct (Mandelbrot.complete s cur) eqn:Hc.
  - exists 1%nat, []. rewrite (oldest_run_complete s 0 cur Hc). cbn [fst snd app].
    repeat split; try reflexivity; try assumption.
    + intros n' Hn'. destruct n' as [|n']; [lia|].
      apply (oldest_run_complete s n' cur Hc).
    + intros a b (Ha & Hb & Hr). unfold Mandelbrot.complete in Hc.
      apply andb_prop in Hc as [Hc1 Hc2].
      apply Z.leb_le in Hc1, Hc2. lia.
  - set (tile := if (W <=? xcurr cur)%Z
                 then {| xcurr := 0; ycurr := ycurr cur + yd |} else cur).
    set (cur' := {| xcurr := xcurr tile + xd; ycurr := ycurr tile |}).
    set (fills := map (fun p => BurningShip.fillRect
                                  (BurningShip.pixel s (fst p) (snd p))
                                  (fst p) (snd p) (/ 2) (/ 2))
                    (BurningShip.tile_pixels s tile)).
    assert (Et : BurningShip.tick s cur
                 = (cur', BurningShip.clearRect (xcurr tile) (ycurr tile) xd yd
                          :: fills)).
    { unfold BurningShip.tick. unfold Mandelbrot.complete in Hc. rewrite Hc.
      reflexivity. }
    assert (Ht : (0 <= xcurr tile < W /\ 0 <= ycurr tile < H + yd)%Z).
    { destruct Hok as [Hx Hy]. unfold tile.
      unfold Mandelbrot.complete in Hc.
      destruct (Z.leb_spec W (xcurr cur)) as [Hw|Hw]; cbn [xcurr ycurr].
      - rewrite andb_true_l in Hc. apply Z.leb_gt in Hc. lia.
      - lia. }
    assert (Hok' : cursor_ok s cur')
      by (unfold cursor_ok, cur'; cbn [xcurr ycurr]; lia).
    assert (Hless : (ticks_left s cur' < Z.of_nat k)%Z).
    { destruct Hok as [Hx Hy]. unfold ticks_left, cur' in *. cbn [xcurr ycurr].
      unfold tile in *.
      destruct (Z.leb_spec W (xcurr cur)) as [Hw|Hw]; cbn [xcurr ycurr] in *.
      - unfold Mandelbrot.complete in Hc. apply andb_false_iff in Hc as [Hc|Hc];
          apply Z.leb_gt in Hc; nia.
      - nia. }
    destruct (IH cur' Hless Hok') as (n & effects & Er & Cn & Nn & Sn & Tn & Pn).
    exists (S n),
      (BurningShip.clearRect (xcurr tile) (ycurr tile) xd yd :: fills ++ effects)%list.
    assert (Erun : forall j, BurningShip.run s (S j) cur
                             = (fst (BurningShip.run s j cur'),
                                (BurningShip.clearRect (xcurr tile) (ycurr tile) xd yd
                                 :: fills) ++ snd (BurningShip.run s j cur'))%list).
    { intros j. cbn [BurningShip.run]. rewrite Et, Hc.
      now destruct (BurningShip.run s j cur'). }
    rewrite Erun. cbn [fst snd].
    split; [|split; [|split; [|split; [|split]]]].
    + rewrite Er at 2. cbn [snd]. cbn [app]. now rewrite app_assoc.
    + exact Cn.
    + cbn [forallb is_clearInterval negb andb]. rewrite forallb_app.
      unfold fills. now rewrite oldest_fills_no_clearInterval, Nn.
    + cbn [forallb styled andb]. rewrite forallb_app.
      unfold fills. now rewrite oldest_fills_styled, Sn.
    + intros n' Hn'. destruct n' as [|n']; [lia|].
      rewrite Erun. now rewrite (Tn n') by lia.
    + intros a b (Ha & Hb & Hr).
      destruct (Z.lt_ge_cases a (2 * (xcurr tile + xd))) as [Hin|Hout].
      * destruct (Z.lt_ge_cases b (2 * (ycurr tile + yd))) as [Hin'|Hout'].
        -- exists (BurningShip.pixel s (half a) (half b)).
           right. apply in_or_app. left. unfold fills.
           apply in_map_iff. exists (half a, half b).
           split; [reflexivity|]. apply oldest_tile_pixels_In; unfold tile in *;
             destruct (Z.leb_spec W (xcurr cur)); cbn [xcurr ycurr] in *; lia.
        -- destruct (Pn a b) as (color & Hcol).
           { unfold remaining_half, cur'; cbn [xcurr ycurr]. lia. }
           exists color. right. apply in_or_app. now right.
      * destruct (Pn a b) as (color & Hcol).
        { unfold remaining_half, cur'; cbn [xcurr ycurr]. unfold tile in *.
          destruct (Z.leb_spec W (xcurr cur)); cbn [xcurr ycurr] in *; lia. }
        exists color. right. apply in_or_app. now right.
Qed.

End OldestSweep.

Lemma oldest_graph_session_tile (print : R -> string) (W H : Z) (n : nat)
    (x_min x_max y_min y_max : R) :
  let s := BurningShip.graph_session print W H n x_min x_max y_min y_max in
  Mandelbrot.xd s = ((W + 20) / 40)%Z /\ Mandelbrot.yd s = ((H + 10) / 20)%Z.
Proof.
  simpl. split.
  - apply (Math_round_div W 20). lia.
  - apply (Math_round_div H 10). lia.
Qed.

(** X21: the sweep of the oldest revision always ends.  On a canvas of at
    least 20 by 10 pixels, whatever the region, the bound and the way
    Numbers print, after finitely many runs of the callback the session is
    complete and the callback clears its own timer, once and as its last
    act; by then every square of half a pixel of the canvas has been
    filled, each with a style that is not [undefined]; later firings change
    nothing. *)
Theorem X21_oldest_sweep_completes (print : R -> string) (W H : Z) (max_iter : nat)
    (rxmin rxmax rymin rymax : R) :
  (20 <= W)%Z -> (10 <= H)%Z ->
  let s := BurningShip.graph_session print W H max_iter rxmin rxmax rymin rymax in
  exists ticks effects,
    BurningShip.run s ticks {| xcurr := 0; ycurr := 0 |}
    = (fst (BurningShip.run s ticks {| xcurr := 0; ycurr := 0 |}),
       effects ++ [BurningShip.clearInterval])%list
    /\ Mandelbrot.complete s
         (fst (BurningShip.run s ticks {| xcurr := 0; ycurr := 0 |})) = true
    /\ forallb (fun e => negb (is_clearInterval e)) effects = true
    /\ forallb styled effects = true
    /\ (forall ticks', (ticks <= ticks')%nat ->
          BurningShip.run s ticks' {| xcurr := 0; ycurr := 0 |}
          = BurningShip.run s ticks {| xcurr := 0; ycurr := 0 |})
    /\ (forall a b, (0 <= a < 2 * W)%Z -> (0 <= b < 2 * H)%Z ->
          quarter_painted effects a b).
Proof.
  intros HW HH s.
  destruct (oldest_graph_session_tile print W H max_iter rxmin rxmax rymin rymax)
    as [Ex Ey]. fold s in Ex, Ey.
  assert (Hxd : (0 < Mandelbrot.xd s)%Z)
    by (rewrite Ex; apply Z.div_str_pos; lia).
  assert (Hyd : (0 < Mandelbrot.yd s)%Z)
    by (rewrite Ey; apply Z.div_str_pos; lia).
  assert (HW' : (0 < Mandelbrot.xdiff s)%Z) by (simpl; lia).
  assert (HH' : (0 < Mandelbrot.ydiff s)%Z) by (simpl; lia).
  assert (Hok : cursor_ok s {| xcurr := 0; ycurr := 0 |})
    by (unfold cursor_ok; cbn [xcurr ycurr]; lia).
  destruct (oldest_run_to_completion s HW' HH' Hxd Hyd
              (fun x y => oldest_pixel_defined print s x y eq_refl)
              (S (Z.to_nat (ticks_left s {| xcurr := 0; ycurr := 0 |})))
              {| xcurr := 0; ycurr := 0 |})
    as (n & effects & Er & Cn & Nn & Sn & Tn & Pn); [lia | exact Hok |].
  exists n, effects.
  repeat split; try assumption.
  intros a b Ha Hb. apply Pn. unfold remaining_half. cbn [xcurr ycurr].
  change (Mandelbrot.xdiff s) with W. change (Mandelbrot.ydiff s) with H.
  destruct (Z.lt_ge_cases b (2 * (0 + Mandelbrot.yd s))); lia.
Qed.

Lemma X21_oldest_sweep_completes_witness :
  let s := BurningShip.graph_session (fun _ => "0"%string) 40 20 10 (-1) (5/2) (-1) 1 in
  exists ticks effects,
    BurningShip.run s ticks {| xcurr := 0; ycurr := 0 |}
    = (fst (BurningShip.run s ticks {| xcurr := 0; ycurr := 0 |}),
       effects ++ [BurningShip.clearInterval])%list
    /\ Mandelbrot.complete s
         (fst (BurningShip.run s ticks {| xcurr := 0; ycurr := 0 |})) = true
    /\ forallb (fun e => negb (is_clearInterval e)) effects = true
    /\ forallb styled effects = true
    /\ (forall ticks', (ticks <= ticks')%nat ->
          BurningShip.run s ticks' {| xcurr := 0; ycurr := 0 |}
          = BurningShip.run s ticks {| xcurr := 0; ycurr := 0 |})
    /\ (forall a b, (0 <= a < 2 * 40)%Z -> (0 <= b < 2 * 20)%Z ->
          quarter_painted effects a b).
Proof.
  apply (X21_oldest_sweep_completes (fun _ => "0"%string) 40 20 10 (-1) (5/2) (-1) 1);
    lia.
Defined.

(** ** Revision 1.0 on regions of moderate size *)

(** Every [fillRect] of the nested loops carries the colour of its point. *)
Lemma paint_fills_pixel (s : Mandelbrot.session) (pixels : list (Z * Z)) (e : effect) :
  In e (fst (Mandelbrot.paint s pixels)) ->
  exists color x y,
    e = fillRect color x y Mandelbrot.ptw Mandelbrot.ptw
    /\ Mandelbrot.pixel s x y = Normal color.
Proof.
  induction pixels as [|[x0 y0] rest IH]; simpl; [intros []|].
  destruct (Mandelbrot.pixel s x0 y0) as [color|] eqn:Ep; [|intros []].
  destruct (Mandelbrot.paint s rest) as [effects finished]. simpl in *.
  intros [<-|Hin].
  - exists color, x0, y0. now split.
  - now apply IH.
Qed.

Lemma tick_fills_pixel (s : Mandelbrot.session) (cur : cursor) (e : effect) :
  In e (snd (Mandelbrot.tick s cur)) ->
  is_clearRect e = true \/ e = informer_hide
  \/ exists color x y,
       e = fillRect color x y Mandelbrot.ptw Mandelbrot.ptw
       /\ Mandelbrot.pixel s x y = Normal color.
Proof.
  unfold Mandelbrot.tick.
  destruct ((Mandelbrot.xdiff s <=? xcurr cur) && (Mandelbrot.ydiff s <=? ycurr cur))%Z.
  - intros [<-|[]]. right. now left.
  - set (tile := if (Mandelbrot.xdiff s <=? xcurr cur)%Z
                 then {| xcurr := 0; ycurr := ycurr cur + Mandelbrot.yd s |} else cur).
    pose proof (paint_fills_pixel s (Mandelbrot.tile_pixels s tile)) as Hf.
    destruct (Mandelbrot.paint s (Mandelbrot.tile_pixels s tile)) as [fills finished].
    simpl. intros [<-|Hin]; [now left|].
    right. right. now apply Hf.
Qed.

Lemma run_fills_pixel (s : Mandelbrot.session) (n : nat) (cur : cursor) (e : effect) :
  In e (snd (Mandelbrot.run s n cur)) ->
  is_clearRect e = true \/ e = informer_hide
  \/ exists color x y,
       e = fillRect color x y Mandelbrot.ptw Mandelbrot.ptw
       /\ Mandelbrot.pixel s x y = Normal color.
Proof.
  revert cur. induction n as [|n IH]; intros cur; simpl; [intros []|].
  pose proof (tick_fills_pixel s cur e) as Ht.
  destruct (Mandelbrot.tick s cur) as [cur1 effects1].
  specialize (IH cur1).
  destruct (Mandelbrot.run s n cur1) as [cur2 effects2].
  simpl in *. intros Hin. apply in_app_or in Hin as [Hin|Hin]; auto.
Qed.

(** The constants of the points a session visits, also those of the row and
    the column beyond the canvas, for a region within [-3, 3] by [-3, 3]. *)
Lemma visited_constant_bound (W H : Z) (n : nat) (rxmin rxmax rymin rymax : R)
    (x y : Z) :
  (20 <= W)%Z -> (10 <= H)%Z ->
  -3 <= rxmin -> rxmin < rxmax -> rxmax <= 3 ->
  -3 <= rymin -> rymin < rymax -> rymax <= 3 ->
  let s := Mandelbrot.graph_session W H n rxmin rxmax rymin rymax in
  (0 <= x < W + Mandelbrot.xd s)%Z -> (0 <= y < H + 2 * Mandelbrot.yd s)%Z ->
  magnitude2 (Mandelbrot.pixel_constant s (IZR x) (IZR y)) <= 256.
Proof.
  intros HW HH Hx1 Hx2 Hx3 Hy1 Hy2 Hy3 s.
  destruct (graph_session_tile W H n rxmin rxmax rymin rymax) as [Ex Ey].
  fold s in Ex, Ey. rewrite Ex, Ey. intros Hx Hy.
  assert (Hxd : (40 * ((W + 20) / 40) <= W + 20)%Z)
    by (apply Z.mul_div_le; lia).
  assert (Hyd : (20 * ((H + 10) / 20) <= H + 10)%Z)
    by (apply Z.mul_div_le; lia).
  assert (Hxw : (20 * x <= 21 * W)%Z) by lia.
  assert (Hyh : (10 * y <= 12 * H)%Z) by lia.
  apply IZR_le in Hxw, Hyh. rewrite !mult_IZR in Hxw, Hyh.
  assert (HW0 : 0 < IZR W) by (apply IZR_lt; lia).
  assert (HH0 : 0 < IZR H) by (apply IZR_lt; lia).
  assert (Hx0 : 0 <= IZR x) by (apply IZR_le; lia).
  assert (Hy0 : 0 <= IZR y) by (apply IZR_le; lia).
  set (u := IZR x / IZR W). set (v := IZR y / IZR H).
  assert (Hu : 0 <= u <= 21 / 20).
  { unfold u. split.
    - apply Rmult_le_pos; [lra | left; now apply Rinv_0_lt_compat].
    - apply (Rmult_le_reg_r (IZR W)); [lra|].
      unfold Rdiv. rewrite Rmult_assoc, Rinv_l by lra. lra. }
  assert (Hv : 0 <= v <= 12 / 10).
  { unfold v. split.
    - apply Rmult_le_pos; [lra | left; now apply Rinv_0_lt_compat].
    - apply (Rmult_le_reg_r (IZR H)); [lra|].
      unfold Rdiv. rewrite Rmult_assoc, Rinv_l by lra. lra. }
  unfold Mandelbrot.pixel_constant, s, Mandelbrot.graph_session, magnitude2.
  cbn [Mandelbrot.xf Mandelbrot.yf Mandelbrot.xc Mandelbrot.yc imaginary real].
  replace ((rxmax - rxmin) / IZR W * IZR x - rxmax)
    with ((rxmax - rxmin) * u - rxmax) by (unfold u; field; lra).
  replace ((rymax - rymin) / IZR H * IZR y - rymax)
    with ((rymax - rymin) * v - rymax) by (unfold v; field; lra).
  set (a := (rxmax - rxmin) * u). set (b := (rymax - rymin) * v).
  assert (Ha : 0 <= a <= 63 / 10) by (unfold a; nra).
  assert (Hb : 0 <= b <= 72 / 10) by (unfold b; nra).
  assert (Hre : -3 <= a - rxmax <= 93 / 10) by lra.
  assert (Him : -3 <= b - rymax <= 102 / 10) by lra.
  nra.
Qed.

(** X22: in revision 1.0, on a canvas of at least 20 by 10 pixels and for a
    region within [-3, 3] by [-3, 3], no point ever throws: the sweep
    completes after finitely many runs of the callback, every pixel of the
    canvas has then been filled with a colour of the form [#rrggbb], and so
    has every other square the session drew, those of the row of tiles
    below the canvas included. *)
Theorem X22_moderate_region_completes (W H : Z) (max_iter : nat)
    (rxmin rxmax rymin rymax : R) :
  (20 <= W)%Z -> (10 <= H)%Z ->
  -3 <= rxmin -> rxmin < rxmax -> rxmax <= 3 ->
  -3 <= rymin -> rymin < rymax -> rymax <= 3 ->
  let s := Mandelbrot.graph_session W H max_iter rxmin rxmax rymin rymax in
  exists ticks,
    let cur := fst (Mandelbrot.run s ticks {| xcurr := 0; ycurr := 0 |}) in
    let effects := snd (Mandelbrot.run s ticks {| xcurr := 0; ycurr := 0 |}) in
    Mandelbrot.complete s cur = true
    /\ forallb canonical_fill effects = true
    /\ (forall x y, (0 <= x < W)%Z -> (0 <= y < H)%Z ->
          exists color,
            Mandelbrot.pixel s x y = Normal (Some color)
            /\ is_canonical_color color = true
            /\ In (fillRect (Some color) x y Mandelbrot.ptw Mandelbrot.ptw) effects).
Proof.
  intros HW HH Hx1 Hx2 Hx3 Hy1 Hy2 Hy3 s.
  destruct (graph_session_tile W H max_iter rxmin rxmax rymin rymax) as [Ex Ey].
  fold s in Ex, Ey.
  assert (Hxd : (0 < Mandelbrot.xd s)%Z) by (rewrite Ex; apply Z.div_str_pos; lia).
  assert (Hyd : (0 < Mandelbrot.yd s)%Z) by (rewrite Ey; apply Z.div_str_pos; lia).
  assert (HW' : (0 < Mandelbrot.xdiff s)%Z) by (simpl; lia).
  assert (HH' : (0 < Mandelbrot.ydiff s)%Z) by (simpl; lia).
  assert (Hdef : forall x y,
             (0 <= x < Mandelbrot.xdiff s + Mandelbrot.xd s)%Z ->
             (0 <= y < Mandelbrot.ydiff s + 2 * Mandelbrot.yd s)%Z ->
             exists color, Mandelbrot.pixel s x y = Normal (Some color)
                           /\ is_canonical_color color = true).
  { intros x y Hx Hy. apply pixel_defined; [reflexivity|].
    apply visited_constant_bound; assumption. }
  assert (Hok : cursor_ok s {| xcurr := 0; ycurr := 0 |})
    by (unfold cursor_ok; cbn [xcurr ycurr]; lia).
  destruct (run_to_completion s HW' HH' Hxd Hyd
              (fun x y Hx Hy =>
                 match Hdef x y Hx Hy with
                 | ex_intro _ color (conj E _) => ex_intro _ (Some color) E
                 end)
              (S (Z.to_nat (ticks_left s {| xcurr := 0; ycurr := 0 |})))
              {| xcurr := 0; ycurr := 0 |})
    as (n & Cn & Pn & Bn & _); [lia | exact Hok |].
  exists n. cbv zeta. split; [exact Cn|]. split.
  - apply forallb_forall. intros e Hin.
    pose proof (proj1 (Forall_forall _ _) Bn e Hin) as Hb.
    destruct (run_fills_pixel s n _ e Hin) as [Hc|[->|(color & x & y & -> & Ep)]];
      [destruct e; try discriminate; reflexivity | reflexivity |].
    unfold effect_within, Mandelbrot.ptw in Hb.
    destruct (Hdef x y) as (c & Ec & Hcan); [lia | lia |].
    rewrite Ec in Ep. injection Ep as <-. exact Hcan.
  - intros x y Hx Hy.
    destruct (Pn x y) as (color & Hin).
    { unfold remaining. cbn [xcurr ycurr].
      change (Mandelbrot.xdiff s) with W. change (Mandelbrot.ydiff s) with H.
      destruct (Z.lt_ge_cases y (0 + Mandelbrot.yd s)); lia. }
    destruct (Hdef x y) as (c & Ec & Hcan);
      [change (Mandelbrot.xdiff s) with W; lia
      | change (Mandelbrot.ydiff s) with H; lia |].
    destruct (run_fills_pixel s n _ _ Hin) as [Hc|[Hc|(color' & x' & y' & He & Ep)]];
      try discriminate.
    injection He as <- <- <-. rewrite Ec in Ep. injection Ep as <-.
    exists c. now repeat split.
Qed.

Lemma X22_moderate_region_completes_witness :
  let s := Mandelbrot.graph_session 400 200 100 (-1) (5/2) (-1) 1 in
  exists ticks,
    let cur := fst (Mandelbrot.run s ticks {| xcurr := 0; ycurr := 0 |}) in
    let effects := snd (Mandelbrot.run s ticks {| xcurr := 0; ycurr := 0 |}) in
    Mandelbrot.complete s cur = true
    /\ forallb canonical_fill effects = true
    /\ (forall x y, (0 <= x < 400)%Z -> (0 <= y < 200)%Z ->
          exists color,
            Mandelbrot.pixel s x y = Normal (Some color)
            /\ is_canonical_color color = true
            /\ In (fillRect (Some color) x y Mandelbrot.ptw Mandelbrot.ptw) effects).
Proof.
  apply (X22_moderate_region_completes 400 200 100 (-1) (5/2) (-1) 1);
    (lia || lra).
Defined.

(** ** The number of runs a sweep takes *)

Lemma cursor_after_last (W H xd yd : Z) (n : nat) (cur : cursor) :
  cursor_after W H xd yd (S n) cur
  = next_cursor W H xd yd (cursor_after W H xd yd n cur).
Proof.
  revert cur. induction n as [|n IH]; intros cur; [reflexivity|].
  change (cursor_after W H xd yd (S (S n)) cur)
    with (cursor_after W H xd yd (S n) (next_cursor W H xd yd cur)).
  rewrite IH. reflexivity.
Qed.

Lemma next_cursor_past (W H xd yd : Z) (cur : cursor) :
  past_canvas W H cur = true -> next_cursor W H xd yd cur = cur.
Proof.
  unfold past_canvas, next_cursor. now intros ->.
Qed.

Lemma cursor_after_past (W H xd yd : Z) (n : nat) (cur : cursor) :
  past_canvas W H cur = true -> cursor_after W H xd yd n cur = cur.
Proof.
  intros Hc. induction n as [|n IH]; [reflexivity|].
  rewrite cursor_after_last, IH. now apply next_cursor_past.
Qed.

Lemma cursor_after_add (W H xd yd : Z) (a b : nat) (cur : cursor) :
  cursor_after W H xd yd (a + b) cur
  = cursor_after W H xd yd b (cursor_after W H xd yd a cur).
Proof.
  revert cur. induction a as [|a IH]; intros cur; [reflexivity|].
  cbn [Nat.add cursor_after]. apply IH.
Qed.

Lemma tiles_across_spec (W xd : Z) :
  (0 < W)%Z -> (0 < xd)%Z ->
  (1 <= tiles_across W xd
   /\ (tiles_across W xd - 1) * xd < W <= tiles_across W xd * xd)%Z.
Proof.
  intros HW Hxd. unfold tiles_across.
  pose proof (Z.div_mod (W + xd - 1) xd ltac:(lia)) as E.
  pose proof (Z.mod_pos_bound (W + xd - 1) xd Hxd) as Hm.
  set (q := ((W + xd - 1) / xd)%Z) in *.
  set (r := ((W + xd - 1) mod xd)%Z) in *.
  assert (Hq : (1 <= q)%Z) by nia.
  split; [exact Hq | nia].
Qed.

Section SweepLength.

Variables W H xd yd : Z.

Hypothesis canvas_width : (0 < W)%Z.
Hypothesis canvas_height : (0 < H)%Z.
Hypothesis tile_width : (0 < xd)%Z.
Hypothesis tile_height : (0 < yd)%Z.

Local Abbreviation nx := (tiles_across W xd).
Local Abbreviation ny := (tiles_across H yd).

(** The cursor after [n + 1] runs: [n] counts the tiles painted before, row
    by row, [q] full rows and [r] tiles of the next. *)
Lemma cursor_after_tiles (n : nat) (q r : Z) :
  (0 <= r < nx)%Z -> (0 <= q <= ny)%Z -> Z.of_nat n = (q * nx + r)%Z ->
  cursor_after W H xd yd (S n) {| xcurr := 0; ycurr := 0 |}
  = {| xcurr := (r + 1) * xd; ycurr := q * yd |}.
Proof.
  destruct (tiles_across_spec W xd canvas_width tile_width) as (Hnx & Hx1 & Hx2).
  destruct (tiles_across_spec H yd canvas_height tile_height) as (Hny & Hy1 & Hy2).
  revert q r. induction n as [|n IH]; intros q r Hr Hq E.
  - assert (Hqn : (0 <= q * nx)%Z) by (apply Z.mul_nonneg_nonneg; lia).
    assert (r = 0%Z) by lia.
    assert (Hz : (q * nx = 0)%Z) by lia.
    apply Z.mul_eq_0 in Hz. assert (q = 0%Z) by lia. subst.
    cbn [cursor_after]. unfold next_cursor. cbn [xcurr ycurr].
    destruct (Z.leb_spec W 0) as [Hw|_]; [lia|]. cbn [andb xcurr ycurr].
    f_equal; lia.
  - rewrite cursor_after_last.
    destruct (Z.eq_dec r 0) as [->|Hr0].
    + assert (Hq1 : (1 <= q)%Z) by nia.
      rewrite (IH (q - 1)%Z (nx - 1)%Z) by nia.
      unfold next_cursor. cbn [xcurr ycurr].
      destruct (Z.leb_spec W ((nx - 1 + 1) * xd)) as [_|Hw]; [|nia].
      destruct (Z.leb_spec H ((q - 1) * yd)) as [Hh|_]; [nia|].
      cbn [andb xcurr ycurr]. f_equal; lia.
    + rewrite (IH q (r - 1)%Z) by nia.
      unfold next_cursor. cbn [xcurr ycurr].
      destruct (Z.leb_spec W ((r - 1 + 1) * xd)) as [Hw|_]; [nia|].
      cbn [andb xcurr ycurr]. f_equal; lia.
Qed.

(** The cursor is past the canvas after [sweep_ticks] runs, and not before. *)
Lemma past_canvas_iff (n : nat) :
  past_canvas W H (cursor_after W H xd yd n {| xcurr := 0; ycurr := 0 |}) = true
  <-> (sweep_ticks W H xd yd <= Z.of_nat n)%Z.
Proof.
  destruct (tiles_across_spec W xd canvas_width tile_width) as (Hnx & Hx1 & Hx2).
  destruct (tiles_across_spec H yd canvas_height tile_height) as (Hny & Hy1 & Hy2).
  unfold sweep_ticks.
  assert (Hend : cursor_after W H xd yd (Z.to_nat (nx * (ny + 1)))
                   {| xcurr := 0; ycurr := 0 |}
                 = {| xcurr := nx * xd; ycurr := ny * yd |}).
  { replace (Z.to_nat (nx * (ny + 1))) with (S (Z.to_nat (ny * nx + (nx - 1))))
      by nia.
    rewrite (cursor_after_tiles _ ny (nx - 1)%Z) by nia.
    f_equal; lia. }
  split.
  - intros Hp.
    destruct (Z.le_gt_cases (nx * (ny + 1)) (Z.of_nat n)) as [Hle|Hgt];
      [exact Hle | exfalso].
    destruct n as [|n].
    + cbn [cursor_after] in Hp. unfold past_canvas in Hp. cbn [xcurr ycurr] in Hp.
      destruct (Z.leb_spec W 0); [lia | discriminate].
    + pose proof (Z.div_mod (Z.of_nat n) nx ltac:(lia)) as E.
      pose proof (Z.mod_pos_bound (Z.of_nat n) nx ltac:(lia)) as Hm.
      set (q := (Z.of_nat n / nx)%Z) in *. set (r := (Z.of_nat n mod nx)%Z) in *.
      assert (Hq0 : (0 <= q)%Z) by (apply Z.div_pos; lia).
      assert (Hq : (q <= ny)%Z) by nia.
      rewrite (cursor_after_tiles n q r) in Hp by lia.
      unfold past_canvas in Hp. cbn [xcurr ycurr] in Hp.
      apply andb_prop in Hp as [Hp1 Hp2]. apply Z.leb_le in Hp1, Hp2.
      assert (Hr : (r + 1 = nx)%Z) by nia.
      assert (Hqn : (q = ny)%Z) by nia.
      nia.
  - intros Hle.
    replace n with (Z.to_nat (nx * (ny + 1)) + (n - Z.to_nat (nx * (ny + 1))))%nat
      by lia.
    rewrite cursor_after_add, Hend.
    rewrite cursor_after_past;
      unfold past_canvas; cbn [xcurr ycurr];
      (destruct (Z.leb_spec W (nx * xd)); [|lia]);
      (destruct (Z.leb_spec H (ny * yd)); [reflexivity | lia]).
Qed.

End SweepLength.

Lemma oldest_run_cursor (s : Mandelbrot.session) (n : nat) (cur : cursor) :
  fst (BurningShip.run s n cur)
  = cursor_after (Mandelbrot.xdiff s) (Mandelbrot.ydiff s)
      (Mandelbrot.xd s) (Mandelbrot.yd s) n cur.
Proof.
  revert cur. induction n as [|n IH]; intros cur; [reflexivity|].
  cbn [BurningShip.run cursor_after].
  destruct (Mandelbrot.complete s cur) eqn:Hc.
  - rewrite (oldest_tick_complete s cur Hc). cbn [fst].
    rewrite next_cursor_past by exact Hc.
    symmetry. now apply cursor_after_past.
  - assert (Et : fst (BurningShip.tick s cur)
                 = next_cursor (Mandelbrot.xdiff s) (Mandelbrot.ydiff s)
                     (Mandelbrot.xd s) (Mandelbrot.yd s) cur).
    { unfold BurningShip.tick, next_cursor. unfold Mandelbrot.complete in Hc.
      rewrite Hc. reflexivity. }
    destruct (BurningShip.tick s cur) as [cur1 effects1]. cbn [fst] in Et. subst cur1.
    specialize (IH (next_cursor (Mandelbrot.xdiff s) (Mandelbrot.ydiff s)
                      (Mandelbrot.xd s) (Mandelbrot.yd s) cur)).
    destruct (BurningShip.run s n _) as [cur2 effects2]. exact IH.
Qed.

(** The run that clears the timer is the first one that finds the cursor
    past the canvas. *)
Lemma oldest_run_clears (s : Mandelbrot.session) (n : nat) (cur : cursor) :
  In BurningShip.clearInterval (snd (BurningShip.run s (S n) cur))
  <-> past_canvas (Mandelbrot.xdiff s) (Mandelbrot.ydiff s)
        (cursor_after (Mandelbrot.xdiff s) (Mandelbrot.ydiff s)
           (Mandelbrot.xd s) (Mandelbrot.yd s) n cur) = true.
Proof.
  revert cur. induction n as [|n IH]; intros cur.
  - cbn [BurningShip.run cursor_after].
    destruct (Mandelbrot.complete s cur) eqn:Hc.
    + rewrite (oldest_tick_complete s cur Hc). cbn [snd].
      split; [intros _; exact Hc | intros _; now left].
    + unfold BurningShip.tick. unfold Mandelbrot.complete in Hc. rewrite Hc.
      cbn [snd app]. rewrite app_nil_r. unfold past_canvas. rewrite Hc.
      split; [|discriminate].
      intros [Hin|Hin]; [discriminate|].
      apply in_map_iff in Hin as (pt & Hpt & _). discriminate.
  - change (BurningShip.run s (S (S n)) cur)
      with (let (cur1, effects1) := BurningShip.tick s cur in
            if Mandelbrot.complete s cur then (cur1, effects1)
            else let (cur2, effects2) := BurningShip.run s (S n) cur1 in
                 (cur2, (effects1 ++ effects2)%list)).
    cbn [cursor_after].
    destruct (Mandelbrot.complete s cur) eqn:Hc.
    + rewrite (oldest_tick_complete s cur Hc). cbn [snd].
      rewrite next_cursor_past by exact Hc.
      rewrite cursor_after_past by exact Hc.
      split; [intros _; exact Hc | intros _; now left].
    + assert (Et : BurningShip.tick s cur
                   = (next_cursor (Mandelbrot.xdiff s) (Mandelbrot.ydiff s)
                        (Mandelbrot.xd s) (Mandelbrot.yd s) cur,
                      snd (BurningShip.tick s cur))
                     /\ ~ In BurningShip.clearInterval (snd (BurningShip.tick s cur))).
      { unfold BurningShip.tick, next_cursor. unfold Mandelbrot.complete in Hc.
        rewrite Hc. cbn [snd]. split; [reflexivity|].
        intros [Hin|Hin]; [discriminate|].
        apply in_map_iff in Hin as (pt & Hpt & _). discriminate. }
      destruct Et as [Et Hno]. rewrite Et.
      specialize (IH (next_cursor (Mandelbrot.xdiff s) (Mandelbrot.ydiff s)
                        (Mandelbrot.xd s) (Mandelbrot.yd s) cur)).
      destruct (BurningShip.run s (S n) _) as [cur2 effects2]. cbn [snd] in *.
      rewrite <- IH. split.
      * intros Hin. apply in_app_or in Hin as [Hin|Hin]; [contradiction | exact Hin].
      * intros Hin. apply in_or_app. now right.
Qed.

Lemma standard_canvas_ticks (W H : Z) :
  (0 < W)%Z -> (0 < H)%Z -> (W mod 40 = 0)%Z -> (H mod 20 = 0)%Z ->
  sweep_ticks W H ((W + 20) / 40) ((H + 10) / 20) = 840%Z.
Proof.
  intros HW HH Hw Hh.
  apply Z.mod_divide in Hw as [a ->]; [|lia].
  apply Z.mod_divide in Hh as [b ->]; [|lia].
  assert (Ea : ((a * 40 + 20) / 40 = a)%Z).
  { symmetry. apply (Z.div_unique _ _ a 20); lia. }
  assert (Eb : ((b * 20 + 10) / 20 = b)%Z).
  { symmetry. apply (Z.div_unique _ _ b 10); lia. }
  rewrite Ea, Eb. unfold sweep_ticks, tiles_across.
  assert (E40 : ((a * 40 + a - 1) / a = 40)%Z).
  { symmetry. apply (Z.div_unique _ _ 40 (a - 1)); lia. }
  assert (E20 : ((b * 20 + b - 1) / b = 20)%Z).
  { symmetry. apply (Z.div_unique _ _ 20 (b - 1)); lia. }
  rewrite E40, E20. reflexivity.
Qed.

(** X23: the length of a sweep of the oldest revision.  On a canvas of at
    least 20 by 10 pixels the session is complete after exactly
    [ceil(W/xd) * (ceil(H/yd) + 1)] runs of the callback, one row of tiles
    more than it takes to get to the bottom of the canvas, and the next run
    is the one that clears the timer; for a width that is a multiple of 40
    and a height that is a multiple of 20 that makes 840 runs, whatever the
    size. *)
Theorem X23_oldest_sweep_length (print : R -> string) (W H : Z) (max_iter : nat)
    (rxmin rxmax rymin rymax : R) (n : nat) :
  (20 <= W)%Z -> (10 <= H)%Z ->
  let s := BurningShip.graph_session print W H max_iter rxmin rxmax rymin rymax in
  let ticks := sweep_ticks W H (Mandelbrot.xd s) (Mandelbrot.yd s) in
  (Mandelbrot.complete s (fst (BurningShip.run s n {| xcurr := 0; ycurr := 0 |}))
   = true <-> (ticks <= Z.of_nat n)%Z)
  /\ (In BurningShip.clearInterval
        (snd (BurningShip.run s n {| xcurr := 0; ycurr := 0 |}))
      <-> (ticks + 1 <= Z.of_nat n)%Z)
  /\ ((W mod 40 = 0)%Z -> (H mod 20 = 0)%Z -> ticks = 840%Z).
Proof.
  intros HW HH s ticks.
  destruct (oldest_graph_session_tile print W H max_iter rxmin rxmax rymin rymax)
    as [Ex Ey]. fold s in Ex, Ey.
  assert (Hxd : (0 < Mandelbrot.xd s)%Z) by (rewrite Ex; apply Z.div_str_pos; lia).
  assert (Hyd : (0 < Mandelbrot.yd s)%Z) by (rewrite Ey; apply Z.div_str_pos; lia).
  assert (HW' : (0 < W)%Z) by lia. assert (HH' : (0 < H)%Z) by lia.
  pose proof (past_canvas_iff W H (Mandelbrot.xd s) (Mandelbrot.yd s)
                HW' HH' Hxd Hyd) as Hiff.
  split; [|split].
  - rewrite oldest_run_cursor. apply Hiff.
  - destruct n as [|n].
    + cbn [BurningShip.run snd]. split; [intros [] | intros Hle; exfalso].
      unfold ticks, sweep_ticks in Hle.
      destruct (tiles_across_spec W (Mandelbrot.xd s) HW' Hxd) as (Hnx & _).
      destruct (tiles_across_spec H (Mandelbrot.yd s) HH' Hyd) as (Hny & _).
      nia.
    + rewrite oldest_run_clears.
      change (Mandelbrot.xdiff s) with W. change (Mandelbrot.ydiff s) with H.
      rewrite Hiff. fold ticks. lia.
  - intros Hw Hh. unfold ticks. rewrite Ex, Ey.
    apply standard_canvas_ticks; assumption || lia.
Qed.

Lemma X23_oldest_sweep_length_witness :
  let s := BurningShip.graph_session (fun _ => "0"%string) 400 200 10 (-1) (5/2) (-1) 1 in
  let ticks := sweep_ticks 400 200 (Mandelbrot.xd s) (Mandelbrot.yd s) in
  (Mandelbrot.complete s (fst (BurningShip.run s 840 {| xcurr := 0; ycurr := 0 |}))
   = true <-> (ticks <= Z.of_nat 840)%Z)
  /\ (In BurningShip.clearInterval
        (snd (BurningShip.run s 840 {| xcurr := 0; ycurr := 0 |}))
      <-> (ticks + 1 <= Z.of_nat 840)%Z)
  /\ ((400 mod 40 = 0)%Z -> (200 mod 20 = 0)%Z -> ticks = 840%Z).
Proof.
  apply (X23_oldest_sweep_length (fun _ => "0"%string) 400 200 10 (-1) (5/2) (-1) 1 840);
    lia.
Defined.

Section SweepOfRevision1.

Variable s : Mandelbrot.session.

Hypothesis canvas_width : (0 < Mandelbrot.xdiff s)%Z.
Hypothesis canvas_height : (0 < Mandelbrot.ydiff s)%Z.
Hypothesis tile_width : (0 < Mandelbrot.xd s)%Z.
Hypothesis tile_height : (0 < Mandelbrot.yd s)%Z.

Hypothesis no_throw :
  forall x y,
    (0 <= x < Mandelbrot.xdiff s + Mandelbrot.xd s)%Z ->
    (0 <= y < Mandelbrot.ydiff s + 2 * Mandelbrot.yd s)%Z ->
    exists color, Mandelbrot.pixel s x y = Normal color.

(** A run on a cursor the session can reach moves it as [next_cursor]
    says, to a cursor the session can reach, and does not hide the informer
    unless the session is complete. *)
Lemma tick_next_cursor (cur : cursor) :
  cursor_ok s cur ->
  fst (Mandelbrot.tick s cur)
  = next_cursor (Mandelbrot.xdiff s) (Mandelbrot.ydiff s)
      (Mandelbrot.xd s) (Mandelbrot.yd s) cur
  /\ cursor_ok s (fst (Mandelbrot.tick s cur)).
Proof.
  intros Hok. destruct (Mandelbrot.complete s cur) eqn:Hc.
  - rewrite (tick_complete s cur Hc). cbn [fst].
    rewrite next_cursor_past by exact Hc. now split.
  - destruct (tick_paints_tile s canvas_width tile_height no_throw cur Hok Hc)
      as (fills & Et & Ht & _).
    rewrite Et. cbn [fst]. split.
    + unfold next_cursor. unfold Mandelbrot.complete in Hc. now rewrite Hc.
    + unfold cursor_ok. cbn [xcurr ycurr]. lia.
Qed.

Lemma run_next_cursor (n : nat) (cur : cursor) :
  cursor_ok s cur ->
  fst (Mandelbrot.run s n cur)
  = cursor_after (Mandelbrot.xdiff s) (Mandelbrot.ydiff s)
      (Mandelbrot.xd s) (Mandelbrot.yd s) n cur.
Proof.
  revert cur. induction n as [|n IH]; intros cur Hok; [reflexivity|].
  cbn [Mandelbrot.run cursor_after].
  destruct (tick_next_cursor cur Hok) as [Et Hok'].
  destruct (Mandelbrot.tick s cur) as [cur1 effects1]. cbn [fst] in *. subst cur1.
  specialize (IH _ Hok').
  destruct (Mandelbrot.run s n _) as [cur2 effects2]. exact IH.
Qed.

Lemma run_hides_iff (n : nat) (cur : cursor) :
  cursor_ok s cur ->
  In informer_hide (snd (Mandelbrot.run s (S n) cur))
  <-> past_canvas (Mandelbrot.xdiff s) (Mandelbrot.ydiff s)
        (cursor_after (Mandelbrot.xdiff s) (Mandelbrot.ydiff s)
           (Mandelbrot.xd s) (Mandelbrot.yd s) n cur) = true.
Proof.
  revert cur. induction n as [|n IH]; intros cur Hok.
  - cbn [Mandelbrot.run cursor_after].
    pose proof (tick_hides s cur) as Hh.
    pose proof (tick_complete s cur) as Hc.
    destruct (Mandelbrot.tick s cur) as [cur1 effects1]. cbn [snd] in *.
    rewrite app_nil_r. split; [exact Hh|].
    intros Hp. injection (Hc Hp) as _ ->. now left.
  - change (Mandelbrot.run s (S (S n)) cur)
      with (let (cur1, effects1) := Mandelbrot.tick s cur in
            let (cur2, effects2) := Mandelbrot.run s (S n) cur1 in
            (cur2, (effects1 ++ effects2)%list)).
    cbn [cursor_after].
    destruct (tick_next_cursor cur Hok) as [Et Hok'].
    pose proof (tick_hides s cur) as Hh.
    destruct (Mandelbrot.tick s cur) as [cur1 effects1]. cbn [fst snd] in *.
    subst cur1. specialize (IH _ Hok').
    destruct (Mandelbrot.run s (S n) _) as [cur2 effects2]. cbn [snd] in *.
    rewrite <- IH. split.
    + intros Hin. apply in_app_or in Hin as [Hin|Hin]; [|exact Hin].
      apply Hh in Hin. apply IH.
      rewrite next_cursor_past by exact Hin.
      now rewrite cursor_after_past by exact Hin.
    + intros Hin. apply in_or_app. now right.
Qed.

End SweepOfRevision1.

(** X24: the length of a sweep of revision 1.0.  On a canvas of at least
    20 by 10 pixels and for a region within [-3, 3] by [-3, 3], the session
    is complete after exactly [ceil(W/xd) * (ceil(H/yd) + 1)] runs of the
    callback and the run after these is the first to hide the informer; for
    a width that is a multiple of 40 and a height that is a multiple of 20
    that makes 840 runs, whatever the size. *)
Theorem X24_sweep_length (W H : Z) (max_iter : nat)
    (rxmin rxmax rymin rymax : R) (n : nat) :
  (20 <= W)%Z -> (10 <= H)%Z ->
  -3 <= rxmin -> rxmin < rxmax -> rxmax <= 3 ->
  -3 <= rymin -> rymin < rymax -> rymax <= 3 ->
  let s := Mandelbrot.graph_session W H max_iter rxmin rxmax rymin rymax in
  let ticks := sweep_ticks W H (Mandelbrot.xd s) (Mandelbrot.yd s) in
  (Mandelbrot.complete s (fst (Mandelbrot.run s n {| xcurr := 0; ycurr := 0 |}))
   = true <-> (ticks <= Z.of_nat n)%Z)
  /\ (In informer_hide (snd (Mandelbrot.run s n {| xcurr := 0; ycurr := 0 |}))
      <-> (ticks + 1 <= Z.of_nat n)%Z)
  /\ ((W mod 40 = 0)%Z -> (H mod 20 = 0)%Z -> ticks = 840%Z).
Proof.
  intros HW HH Hx1 Hx2 Hx3 Hy1 Hy2 Hy3 s ticks.
  destruct (graph_session_tile W H max_iter rxmin rxmax rymin rymax) as [Ex Ey].
  fold s in Ex, Ey.
  assert (Hxd : (0 < Mandelbrot.xd s)%Z) by (rewrite Ex; apply Z.div_str_pos; lia).
  assert (Hyd : (0 < Mandelbrot.yd s)%Z) by (rewrite Ey; apply Z.div_str_pos; lia).
  assert (HW' : (0 < Mandelbrot.xdiff s)%Z) by (simpl; lia).
  assert (HH' : (0 < Mandelbrot.ydiff s)%Z) by (simpl; lia).
  assert (Hdef : forall x y,
             (0 <= x < Mandelbrot.xdiff s + Mandelbrot.xd s)%Z ->
             (0 <= y < Mandelbrot.ydiff s + 2 * Mandelbrot.yd s)%Z ->
             exists color, Mandelbrot.pixel s x y = Normal color).
  { intros x y Hx Hy.
    destruct (pixel_defined s x y) as (color & E & _); [reflexivity | |].
    - apply visited_constant_bound; assumption.
    - now exists (Some color). }
  assert (Hok : cursor_ok s {| xcurr := 0; ycurr := 0 |})
    by (unfold cursor_ok; cbn [xcurr ycurr]; lia).
  pose proof (past_canvas_iff W H (Mandelbrot.xd s) (Mandelbrot.yd s)
                ltac:(lia) ltac:(lia) Hxd Hyd) as Hiff.
  split; [|split].
  - rewrite (run_next_cursor s HW' Hxd Hyd Hdef n _ Hok). apply Hiff.
  - destruct n as [|n].
    + cbn [Mandelbrot.run snd]. split; [intros [] | intros Hle; exfalso].
      unfold ticks, sweep_ticks in Hle.
      destruct (tiles_across_spec W (Mandelbrot.xd s) ltac:(lia) Hxd) as (Hnx & _).
      destruct (tiles_across_spec H (Mandelbrot.yd s) ltac:(lia) Hyd) as (Hny & _).
      nia.
    + rewrite (run_hides_iff s HW' Hxd Hyd Hdef n _ Hok).
      change (Mandelbrot.xdiff s) with W. change (Mandelbrot.ydiff s) with H.
      rewrite Hiff. fold ticks. lia.
  - intros Hw Hh. unfold ticks. rewrite Ex, Ey.
    apply standard_canvas_ticks; assumption || lia.
Qed.

Lemma X24_sweep_length_witness :
  let s := Mandelbrot.graph_session 400 200 100 (-1) (5/2) (-1) 1 in
  let ticks := sweep_ticks 400 200 (Mandelbrot.xd s) (Mandelbrot.yd s) in
  (Mandelbrot.complete s (fst (Mandelbrot.run s 840 {| xcurr := 0; ycurr := 0 |}))
   = true <-> (ticks <= Z.of_nat 840)%Z)
  /\ (In informer_hide (snd (Mandelbrot.run s 840 {| xcurr := 0; ycurr := 0 |}))
      <-> (ticks + 1 <= Z.of_nat 840)%Z)
  /\ ((400 mod 40 = 0)%Z -> (200 mod 20 = 0)%Z -> ticks = 840%Z).
Proof.
  apply (X24_sweep_length 400 200 100 (-1) (5/2) (-1) 1 840); (lia || lra).
Defined.

(** ** The palette of the earlier revisions *)

Lemma substring_from_0 (m : nat) (s : string) :
  (m <= String.length s)%nat ->
  exists post,
    s = (String.substring 0 m s ++ post)%string
    /\ String.length (String.substring 0 m s) = m.
Proof.
  revert s. induction m as [|m IH]; intros s Hm.
  - exists s. destruct s; now split.
  - destruct s as [|c s]; [simpl in Hm; lia|].
    destruct (IH s) as (post & E & L); [simpl in Hm; lia|].
    exists post. cbn [String.substring append String.length].
    split; [now rewrite <- E | now rewrite L].
Qed.

(** A substring that lies within the string, with what comes before it and
    what comes after. *)
Lemma substring_split (a m : nat) (s : string) :
  (a + m <= String.length s)%nat ->
  exists pre post,
    s = (pre ++ String.substring a m s ++ post)%string
    /\ String.length pre = a
    /\ String.length (String.substring a m s) = m.
Proof.
  revert s. induction a as [|a IH]; intros s Ha.
  - destruct (substring_from_0 m s Ha) as (post & E & L).
    exists EmptyString, post. now repeat split.
  - destruct s as [|c s]; [simpl in Ha; lia|].
    destruct (IH s) as (pre & post & E & Lp & L); [simpl in Ha; lia|].
    exists (String c pre), post.
    cbn [String.substring append String.length].
    split; [now rewrite <- E | split; [now rewrite Lp | exact L]].
Qed.

(** A number below [16^(k+1)] prints on [k + 1] digits at most. *)
Lemma toString16_digits_length_le (k fuel : nat) (n : Z) (acc : string) :
  (0 <= n < 16 ^ Z.of_nat (S k))%Z ->
  (String.length (toString16_digits fuel n acc) <= String.length acc + S k)%nat.
Proof.
  revert fuel n acc. induction k as [|k IH]; intros fuel n acc Hn.
  - destruct fuel as [|fuel]; cbn [toString16_digits]; [lia|].
    destruct (Z.ltb_spec n 16) as [_|H]; [simpl; lia|].
    change (16 ^ Z.of_nat 1)%Z with 16%Z in Hn. lia.
  - destruct fuel as [|fuel]; cbn [toString16_digits]; [lia|].
    destruct (Z.ltb_spec n 16) as [_|H]; [simpl; lia|].
    etransitivity; [apply IH|simpl; lia].
    split; [apply Z.div_pos; lia|].
    apply Z.div_lt_upper_bound; [lia|].
    replace (Z.of_nat (S (S k))) with (Z.succ (Z.of_nat (S k))) in Hn by lia.
    rewrite Z.pow_succ_r in Hn by lia. lia.
Qed.

(** X25: the palette of the two earlier revisions leaves out the last
    character of the number it prints.  Entry [i] is [#] and the six
    characters that come before the last one of ["000000"] followed by
    [(i*colorf).toString(16)]; when the number prints on six characters or
    fewer, as every whole number below 2^24 does, the first of the six is a
    padding [0], so the entry is at most [#0fffff]. *)
Theorem X25_hex_palette_drops_last_digit (print : R -> string) (n i : nat) :
  (i < n)%nat ->
  let p := print (INR i * (256 * 256 * 256 / INR n)) in
  (1 <= String.length p)%nat ->
  (exists pre six c,
      array_get (BurningShip.palette print n) (Z.of_nat i) = Some (String "#" six)
      /\ String.length six = 6%nat
      /\ ("000000" ++ p)%string = (pre ++ six ++ String c EmptyString)%string
      /\ ((String.length p <= 6)%nat -> exists rest, six = String "0" rest))
  /\ (forall v, (0 <= v < 16777216)%Z ->
        (1 <= String.length (toString16 v) <= 6)%nat).
Proof.
  intros Hi p Hp. split.
  - destruct (burning_ship_palette_shape print n) as (_ & _ & F).
    specialize (F i Hi). cbv zeta in F. fold p in F.
    set (str := ("000000" ++ p)%string) in *.
    assert (Hlen : String.length str = (6 + String.length p)%nat)
      by (unfold str; now rewrite string_length_app).
    unfold substring in F.
    rewrite Nat.min_l, Nat.max_r in F by lia.
    replace (String.length str - 1 - (String.length str - 7))%nat with 6%nat in F
      by lia.
    destruct (substring_split (String.length str - 7) 6 str) as (pre & post & E & Lp & L);
      [lia|].
    set (six := String.substring (String.length str - 7) 6 str) in *.
    assert (Lpost : String.length post = 1%nat).
    { apply (f_equal String.length) in E.
      rewrite !string_length_app, Lp, L in E. lia. }
    destruct post as [|c [|c' post]]; try (simpl in Lpost; lia).
    exists pre, six, c. split; [exact F|]. split; [exact L|]. split; [exact E|].
    intros Hp6.
    assert (Lp5 : (String.length pre <= 5)%nat) by lia.
    clear - E L Lp5. unfold str in E.
    destruct six as [|x rest]; [simpl in L; lia|].
    exists rest. f_equal.
    destruct pre as [|c1 [|c2 [|c3 [|c4 [|c5 [|c6 pre]]]]]];
      simpl in Lp5, E; try lia; now injection E.
  - intros v Hv. split; [apply toString16_length_pos|].
    unfold toString16.
    apply (toString16_digits_length_le 5 _ v EmptyString).
    change (16 ^ Z.of_nat 6)%Z with 16777216%Z. exact Hv.
Qed.

Lemma X25_hex_palette_drops_last_digit_witness :
  (exists pre six c,
      array_get (BurningShip.palette (fun _ => "ff0000"%string) 256) (Z.of_nat 255)
      = Some (String "#" six)
      /\ String.length six = 6%nat
      /\ ("000000" ++ "ff0000")%string = (pre ++ six ++ String c EmptyString)%string
      /\ ((String.length "ff0000" <= 6)%nat -> exists rest, six = String "0" rest))
  /\ (forall v, (0 <= v < 16777216)%Z ->
        (1 <= String.length (toString16 v) <= 6)%nat).
Proof.
  apply (X25_hex_palette_drops_last_digit (fun _ => "ff0000"%string) 256 255);
    simpl; lia.
Defined.

(** ** The middle revision *)

Lemma middle_pixel_throws (scope : string -> option BurningShip.interpolator)
    (s : Mandelbrot.session) (x y : R) :
  scope "lerpcolor"%string = None -> BurningShip.middle_pixel scope s x y = Throw.
Proof.
  intros Hs. unfold BurningShip.middle_pixel.
  destruct (BurningShip.escape _ _) as [z count]. now rewrite Hs.
Qed.

Lemma middle_paint_throws (scope : string -> option BurningShip.interpolator)
    (s : Mandelbrot.session) (pixels : list (R * R)) :
  scope "lerpcolor"%string = None ->
  BurningShip.middle_paint scope s pixels
  = ([], match pixels with [] => true | _ :: _ => false end).
Proof.
  intros Hs. destruct pixels as [|[x y] rest]; [reflexivity|].
  cbn [BurningShip.middle_paint]. now rewrite middle_pixel_throws.
Qed.

(** One run of the callback from a cursor in row 0: a [clearRect] and
    nothing else, and the cursor stays in row 0; in column 0 too, when the
    tiles have a height. *)
Lemma middle_tick_stalls (scope : string -> option BurningShip.interpolator)
    (s : Mandelbrot.session) (cur : cursor) :
  scope "lerpcolor"%string = None ->
  (0 < Mandelbrot.xdiff s)%Z -> (0 < Mandelbrot.ydiff s)%Z ->
  (0 <= Mandelbrot.xd s)%Z -> (0 <= Mandelbrot.yd s)%Z ->
  ycurr cur = 0%Z -> ((1 <= Mandelbrot.yd s)%Z -> xcurr cur = 0%Z) ->
  Mandelbrot.complete s cur = false
  /\ (exists x y, snd (BurningShip.middle_tick scope s cur)
                  = [BurningShip.clearRect x y (Mandelbrot.xd s) (Mandelbrot.yd s)])
  /\ ycurr (fst (BurningShip.middle_tick scope s cur)) = 0%Z
  /\ ((1 <= Mandelbrot.yd s)%Z ->
      xcurr (fst (BurningShip.middle_tick scope s cur)) = 0%Z).
Proof.
  intros Hs HW HH Hxd Hyd Hy Hx.
  assert (Hc : Mandelbrot.complete s cur = false).
  { unfold Mandelbrot.complete. rewrite Hy.
    destruct (Z.leb_spec (Mandelbrot.ydiff s) 0) as [H|_]; [lia|].
    apply andb_false_r. }
  split; [exact Hc|].
  unfold BurningShip.middle_tick.
  unfold Mandelbrot.complete in Hc. rewrite Hc.
  set (tile := if (Mandelbrot.xdiff s <=? xcurr cur)%Z
               then {| xcurr := 0; ycurr := ycurr cur + Mandelbrot.yd s |}
               else cur).
  rewrite (middle_paint_throws scope s _ Hs).
  assert (Ty : ycurr tile = 0%Z).
  { unfold tile. destruct (Z.leb_spec (Mandelbrot.xdiff s) (xcurr cur)) as [Hw|_];
      [|exact Hy].
    cbn [ycurr]. destruct (Z_le_gt_dec 1 (Mandelbrot.yd s)) as [H1|H0].
    - rewrite (Hx H1) in Hw. lia.
    - lia. }
  assert (Tx : (1 <= Mandelbrot.yd s)%Z -> tile = cur).
  { intros H1. unfold tile. rewrite (Hx H1).
    destruct (Z.leb_spec (Mandelbrot.xdiff s) 0) as [Hw|_]; [lia | reflexivity]. }
  cbn [fst snd].
  split; [now exists (xcurr tile), (ycurr tile)|].
  destruct (BurningShip.tile_pixels s tile) as [|p rest] eqn:Et.
  - cbn [xcurr ycurr]. split; [exact Ty|].
    intros H1. rewrite (Tx H1), (Hx H1).
    destruct (Z_le_gt_dec 1 (Mandelbrot.xd s)) as [Hx1|Hx0]; [|lia].
    exfalso.
    assert (Hin : In (half (2 * xcurr tile), half (2 * ycurr tile))
                     (BurningShip.tile_pixels s tile))
      by (apply oldest_tile_pixels_In; lia).
    rewrite Et in Hin. exact Hin.
  - split; [exact Ty|]. intros H1. rewrite (Tx H1). exact (Hx H1).
Qed.

Lemma middle_run_stalls (scope : string -> option BurningShip.interpolator)
    (s : Mandelbrot.session) (n : nat) (cur : cursor) :
  scope "lerpcolor"%string = None ->
  (0 < Mandelbrot.xdiff s)%Z -> (0 < Mandelbrot.ydiff s)%Z ->
  (0 <= Mandelbrot.xd s)%Z -> (0 <= Mandelbrot.yd s)%Z ->
  ycurr cur = 0%Z -> ((1 <= Mandelbrot.yd s)%Z -> xcurr cur = 0%Z) ->
  forallb only_clears (snd (BurningShip.middle_run scope s n cur)) = true
  /\ List.length (snd (BurningShip.middle_run scope s n cur)) = n
  /\ ycurr (fst (BurningShip.middle_run scope s n cur)) = 0%Z.
Proof.
  intros Hs HW HH Hxd Hyd. revert cur.
  induction n as [|n IH]; intros cur Hy Hx; [now repeat split|].
  destruct (middle_tick_stalls scope s cur Hs HW HH Hxd Hyd Hy Hx)
    as (Hc & (x & y & He) & Hy1 & Hx1).
  cbn [BurningShip.middle_run].
  destruct (BurningShip.middle_tick scope s cur) as [cur1 effects1].
  cbn [fst snd] in He, Hy1, Hx1. rewrite Hc.
  destruct (IH cur1 Hy1 Hx1) as (Ha & Hl & Hy2).
  destruct (BurningShip.middle_run scope s n cur1) as [cur2 effects2].
  cbn [fst snd] in *. subst effects1.
  split; [exact Ha|]. split; [cbn [app List.length]; now rewrite Hl | exact Hy2].
Qed.

(** X26: the middle revision never paints.  Its callback calls
    [lerpcolor], a name that [fractals.js] does not declare (its
    interpolator is [lerpColor]); on a page that binds the name nowhere
    else, every point throws before a style is assigned.  On a canvas of
    positive size the session then draws nothing, however often the timer
    fires: every run of the callback clears one rectangle, none fills a
    square, and the session is never complete, so that it never clears its
    timer. *)
Theorem X26_middle_revision_draws_nothing
    (scope : string -> option BurningShip.interpolator) (print : R -> string)
    (W H : Z) (max_iter : nat) (x0 x1 y0 y1 : R) (n : nat) :
  scope "lerpcolor"%string = None -> (0 < W)%Z -> (0 < H)%Z ->
  let s := BurningShip.graph_session print W H max_iter x0 x1 y0 y1 in
  let r := BurningShip.middle_run scope s n {| xcurr := 0; ycurr := 0 |} in
  (forall x y, BurningShip.middle_pixel scope s x y = Throw)
  /\ forallb only_clears (snd r) = true
  /\ List.length (snd r) = n
  /\ Mandelbrot.complete s (fst r) = false
  /\ BurningShip.fractals_js "lerpcolor" = None
  /\ BurningShip.fractals_js "lerpColor" = Some BurningShip.lerpColor_call.
Proof.
  intros Hs HW HH s r.
  destruct (oldest_graph_session_tile print W H max_iter x0 x1 y0 y1) as [Exd Eyd].
  fold s in Exd, Eyd.
  assert (Hxd : (0 <= Mandelbrot.xd s)%Z) by (rewrite Exd; apply Z.div_pos; lia).
  assert (Hyd : (0 <= Mandelbrot.yd s)%Z) by (rewrite Eyd; apply Z.div_pos; lia).
  destruct (middle_run_stalls scope s n {| xcurr := 0; ycurr := 0 |} Hs)
    as (Ha & Hl & Hy); try assumption; try reflexivity.
  fold r in Ha, Hl, Hy.
  split; [intros x y; now apply middle_pixel_throws|].
  split; [exact Ha|]. split; [exact Hl|].
  split; [|split; reflexivity].
  unfold Mandelbrot.complete. rewrite Hy.
  change (Mandelbrot.ydiff s) with H.
  destruct (Z.leb_spec H 0) as [Hle|_]; [lia|]. apply andb_false_r.
Qed.

Lemma X26_middle_revision_draws_nothing_witness :
  let s := BurningShip.graph_session (fun _ => "0"%string) 400 200 50
             (-5/2) 1 (-1) 1 in
  let r := BurningShip.middle_run BurningShip.fractals_js s 1000
             {| xcurr := 0; ycurr := 0 |} in
  (forall x y, BurningShip.middle_pixel BurningShip.fractals_js s x y = Throw)
  /\ forallb only_clears (snd r) = true
  /\ List.length (snd r) = 1000%nat
  /\ Mandelbrot.complete s (fst r) = false
  /\ BurningShip.fractals_js "lerpcolor" = None
  /\ BurningShip.fractals_js "lerpColor" = Some BurningShip.lerpColor_call.
Proof.
  apply (X26_middle_revision_draws_nothing BurningShip.fractals_js
           (fun _ => "0"%string) 400 200 50 (-5/2) 1 (-1) 1 1000);
    [reflexivity | lia | lia].
Defined.

(** ** Smooth colouring within the circle of radius 2 *)

(** With the constant within the circle of radius 2, the point at which
    the loop stops lies within radius sqrt 40. *)
Lemma escape_magnitude_40 (n : nat) (c : Complex) :
  magnitude2 c <= 4 -> m (escape Mandelbrot.eval n c) <= 40.
Proof.
  intros Hc.
  destruct (escape_walks_orbit Mandelbrot.eval n c) as (Hz & Hm & Hin).
  rewrite Hm, Hz.
  destruct (count (escape Mandelbrot.eval n c)) as [|k].
  - unfold orbit, magnitude2, origin; simpl. lra.
  - specialize (Hin k ltac:(lia)).
    change (orbit Mandelbrot.eval c (S k))
      with (Mandelbrot.eval (orbit Mandelbrot.eval c k) c).
    pose proof (magnitude2_eval_le (orbit Mandelbrot.eval c k) c) as Hle.
    assert (H0 : 0 <= magnitude2 (orbit Mandelbrot.eval c k)).
    { unfold magnitude2.
      pose proof (Rle_0_sqr (imaginary (orbit Mandelbrot.eval c k))).
      pose proof (Rle_0_sqr (real (orbit Mandelbrot.eval c k))).
      unfold Rsqr in *. lra. }
    nra.
Qed.

Lemma normalized_iteration_count_near (count : nat) (x : R) :
  4 <= x -> x < 256 ->
  INR count - 1 < normalized_iteration_count count x <= INR count + 1.
Proof.
  intros H4 H256. pose proof ln_2_pos as H2.
  destruct (smooth_logs_defined x H4) as (_ & H1 & Hnu).
  unfold Mandelbrot.l2 in *. unfold normalized_iteration_count.
  assert (Hln : ln x < 8 * ln 2).
  { replace (8 * ln 2) with (ln (2 ^ 8)) by (rewrite ln_pow_2; simpl; lra).
    apply ln_increasing; simpl; lra. }
  assert (Hq : ln x / 2 / ln 2 < 4).
  { apply (Rmult_lt_reg_r (ln 2)); [lra|].
    unfold Rdiv. rewrite Rmult_assoc, Rinv_l by lra. lra. }
  assert (Hl : ln (ln x / 2 / ln 2) < 2 * ln 2).
  { rewrite <- ln_4. apply ln_increasing; lra. }
  assert (Hnu2 : ln (ln x / 2 / ln 2) / ln 2 < 2).
  { apply (Rmult_lt_reg_r (ln 2)); [lra|].
    unfold Rdiv. rewrite Rmult_assoc, Rinv_l by lra. lra. }
  lra.
Qed.

(** X27: in revision 1.0, for a constant within the circle of radius 2 the
    smooth colouring stays next to the count.  When the loop stops with
    [count < max_iter - 1], then [4 <= m <= 40], the normalized count [it]
    lies in (count - 1, count + 1], the two entries read are among
    [colors[count - 1]] ... [colors[count + 2]], both exist, and the point
    gets a colour of the form [#rrggbb]. *)
Theorem X27_smooth_index_near_count (max_iter : nat) (c : Complex) :
  magnitude2 c <= 4 ->
  let st := escape Mandelbrot.eval max_iter c in
  (count st + 1 < max_iter)%nat ->
  let it := normalized_iteration_count (count st) (m st) in
  4 <= m st <= 40
  /\ INR (count st) - 1 < it <= INR (count st) + 1
  /\ (Z.of_nat (count st) - 1 <= Math_floor it <= Z.of_nat (count st) + 1)%Z
  /\ exists color color2,
       array_get (Mandelbrot.palette max_iter) (Math_floor it) = Some color
       /\ array_get (Mandelbrot.palette max_iter) (Math_floor it + 1) = Some color2
       /\ Mandelbrot.pixel_color (Mandelbrot.palette max_iter) max_iter
            (count st) (m st)
          = Normal (Some (Mandelbrot.linear_interpolate color color2 (Rmod1 it)))
       /\ is_canonical_color
            (Mandelbrot.linear_interpolate color color2 (Rmod1 it)) = true.
Proof.
  intros Hc st Hcount it.
  assert (H4 : 4 <= m st) by (apply escape_threshold; fold st; lia).
  assert (H40 : m st <= 40) by now apply escape_magnitude_40.
  assert (Hpos : (1 <= count st)%nat) by (apply escape_count_pos; lia).
  pose proof (normalized_iteration_count_near (count st) (m st) H4 ltac:(lra))
    as Hit. fold it in Hit.
  split; [lra|]. split; [exact Hit|]. split.
  - unfold Math_floor. pose proof (Zfloor_bound it) as [Hb1 Hb2].
    split.
    + apply Zfloor_lub. rewrite minus_IZR, <- INR_IZR_INZ. lra.
    + apply le_IZR. rewrite plus_IZR, <- INR_IZR_INZ. lra.
  - assert (Hbig : m st <= 4 ^ (2 ^ (count st + 1))%nat).
    { apply Rle_trans with (4 ^ 4); [simpl; lra|].
      apply Rle_pow; [lra|].
      replace (count st + 1)%nat with (S (S (count st - 1))) by lia.
      cbn [Nat.pow]. pose proof (Nat.pow_nonzero 2 (count st - 1)). lia. }
    destruct (smooth_color_defined max_iter (count st) (m st) Hcount H4 Hbig)
      as (_ & _ & color & color2 & E1 & E2 & E3 & E4).
    exists color, color2. now repeat split.
Qed.

Lemma X27_smooth_index_near_count_witness :
  let st := escape Mandelbrot.eval 50 {| imaginary := 0; real := 2 |} in
  let it := normalized_iteration_count (count st) (m st) in
  4 <= m st <= 40
  /\ INR (count st) - 1 < it <= INR (count st) + 1.
Proof.
  intros st it.
  assert (Hc : (count st + 1 < 50)%nat)
    by (unfold st; rewrite (proj1 (escape_two 49)); lia).
  destruct (X27_smooth_index_near_count 50 {| imaginary := 0; real := 2 |})
    as (H1 & H2 & _); [unfold magnitude2; simpl; lra | exact Hc |].
  split; [exact H1 | exact H2].
Defined.

(** ** The two maps side by side *)

(** For a real constant the orbit stays on the real axis, where the two
    maps agree. *)
Lemma real_axis_same_escape (n : nat) (c : Complex) :
  imaginary c = 0 ->
  escape BurningShip.eval n c = escape Mandelbrot.eval n c
  /\ imaginary (z (escape Mandelbrot.eval n c)) = 0.
Proof.
  intros Hc.
  assert (Hstep : forall u, imaginary u = 0 ->
            BurningShip.eval u c = Mandelbrot.eval u c
            /\ imaginary (Mandelbrot.eval u c) = 0).
  { intros u Hu. split.
    - unfold BurningShip.eval, Mandelbrot.eval, add, multiply; simpl.
      rewrite Hu, Rabs_R0. pose proof (Rabs_sqr_eq (real u)).
      apply complex_eq; simpl; lra.
    - unfold Mandelbrot.eval, add, multiply; simpl. rewrite Hu, Hc. ring. }
  assert (Hloop : forall fuel st, imaginary (z st) = 0 ->
            while_loop BurningShip.eval fuel n c st
            = while_loop Mandelbrot.eval fuel n c st
            /\ imaginary (z (while_loop Mandelbrot.eval fuel n c st)) = 0).
  { induction fuel as [|fuel IH]; intros st Hst; simpl; [now split|].
    destruct (Rlt_dec (m st) threshold); [|now split].
    destruct (count st <? n)%nat; [|now split].
    destruct (Hstep (z st) Hst) as [E E0]. rewrite E.
    apply IH. exact E0. }
  apply Hloop. reflexivity.
Qed.

(** X28: what the absolute values of the earlier revisions change.  The
    map of the earlier revisions is the map of revision 1.0 applied to the
    absolute values of the two parts; the two maps give the same real part,
    the imaginary part of the earlier one is never the smaller, and they
    agree where the two parts of [z] have no opposite signs.  For a real
    constant the orbit stays on the real axis, and the loops of the two
    maps stop in the same state. *)
Theorem X28_maps_agree (v c : Complex) (max_iter : nat) :
  BurningShip.eval v c
  = Mandelbrot.eval {| imaginary := Rabs (imaginary v); real := Rabs (real v) |} c
  /\ real (BurningShip.eval v c) = real (Mandelbrot.eval v c)
  /\ imaginary (Mandelbrot.eval v c) <= imaginary (BurningShip.eval v c)
  /\ ((0 <= real v /\ 0 <= imaginary v) \/ (real v <= 0 /\ imaginary v <= 0) ->
      BurningShip.eval v c = Mandelbrot.eval v c)
  /\ (imaginary c = 0 ->
      escape BurningShip.eval max_iter c = escape Mandelbrot.eval max_iter c
      /\ imaginary (z (escape Mandelbrot.eval max_iter c)) = 0).
Proof.
  assert (Hre : real (BurningShip.eval v c) = real (Mandelbrot.eval v c)).
  { unfold BurningShip.eval, Mandelbrot.eval, add, multiply; simpl.
    pose proof (Rabs_sqr_eq (real v)). pose proof (Rabs_sqr_eq (imaginary v)).
    lra. }
  assert (Him : imaginary (BurningShip.eval v c) - imaginary (Mandelbrot.eval v c)
                = 2 * (Rabs (real v * imaginary v) - real v * imaginary v)).
  { unfold BurningShip.eval, Mandelbrot.eval, add, multiply; simpl.
    rewrite Rabs_mult. ring. }
  split; [reflexivity|]. split; [exact Hre|]. split; [|split].
  - pose proof (Rle_abs (real v * imaginary v)). lra.
  - intros Hs.
    assert (H0 : 0 <= real v * imaginary v) by (destruct Hs; nra).
    rewrite Rabs_right in Him by lra.
    apply complex_eq; [exact Hre | lra].
  - apply real_axis_same_escape.
Qed.

(** ** Two sessions of revision 1.0 on one page *)

Lemma fire_found (h : Mandelbrot.host) (t : nat) (s : Mandelbrot.session) :
  Mandelbrot.find_timer h t = Some s ->
  Mandelbrot.fire h t
  = {| Mandelbrot.timers := Mandelbrot.timers h;
       Mandelbrot.next_timer := Mandelbrot.next_timer h;
       Mandelbrot.global_cursor := fst (Mandelbrot.tick s (Mandelbrot.global_cursor h));
       Mandelbrot.log :=
         (Mandelbrot.log h
          ++ map (fun e => (t, e))
               (snd (Mandelbrot.tick s (Mandelbrot.global_cursor h))))%list |}.
Proof.
  intros E. unfold Mandelbrot.fire. rewrite E.
  now destruct (Mandelbrot.tick s (Mandelbrot.global_cursor h)).
Qed.

(** A run of the callback of a moderate request moves a cursor within
    reach as [next_cursor] says. *)
Lemma moderate_tick (r : Mandelbrot.request) (cur : cursor) :
  moderate r -> cursor_ok (session_of r) cur ->
  fst (Mandelbrot.tick (session_of r) cur)
  = next_cursor (Mandelbrot.width r) (Mandelbrot.height r)
      ((Mandelbrot.width r + 20) / 40) ((Mandelbrot.height r + 10) / 20) cur
  /\ cursor_ok (session_of r) (fst (Mandelbrot.tick (session_of r) cur)).
Proof.
  intros (HW & HH & Hx1 & Hx2 & Hx3 & Hy1 & Hy2 & Hy3) Hok.
  destruct (graph_session_tile (Mandelbrot.width r) (Mandelbrot.height r)
              (Mandelbrot.req_max_iter r) (Mandelbrot.rxmin r) (Mandelbrot.rxmax r)
              (Mandelbrot.rymin r) (Mandelbrot.rymax r)) as [Ex Ey].
  fold (session_of r) in Ex, Ey.
  assert (Hxd : (0 < Mandelbrot.xd (session_of r))%Z)
    by (rewrite Ex; apply Z.div_str_pos; lia).
  assert (Hyd : (0 < Mandelbrot.yd (session_of r))%Z)
    by (rewrite Ey; apply Z.div_str_pos; lia).
  assert (HW' : (0 < Mandelbrot.xdiff (session_of r))%Z) by (simpl; lia).
  assert (Hdef : forall x y,
             (0 <= x < Mandelbrot.xdiff (session_of r) + Mandelbrot.xd (session_of r))%Z ->
             (0 <= y < Mandelbrot.ydiff (session_of r)
                       + 2 * Mandelbrot.yd (session_of r))%Z ->
             exists color, Mandelbrot.pixel (session_of r) x y = Normal color).
  { intros x y Hx Hy.
    destruct (pixel_defined (session_of r) x y) as (color & E & _); [reflexivity | |].
    - apply visited_constant_bound; assumption.
    - now exists (Some color). }
  destruct (tick_next_cursor (session_of r) HW' Hxd Hyd Hdef cur Hok) as [Et Hok'].
  split; [|exact Hok'].
  rewrite Et, Ex, Ey. reflexivity.
Qed.

Lemma cursor_ok_same_size (r1 r2 : Mandelbrot.request) (cur : cursor) :
  Mandelbrot.width r2 = Mandelbrot.width r1 ->
  Mandelbrot.height r2 = Mandelbrot.height r1 ->
  cursor_ok (session_of r2) cur <-> cursor_ok (session_of r1) cur.
Proof.
  intros EW EH. unfold cursor_ok, session_of.
  cbn [Mandelbrot.graph_session Mandelbrot.xdiff Mandelbrot.ydiff
       Mandelbrot.xd Mandelbrot.yd].
  rewrite EW, EH. reflexivity.
Qed.

(** X29: two sessions of revision 1.0 on one page share one cursor, since
    [var x = xcurr = 0] makes [xcurr] and [ycurr] global.  When [graph] has
    been called twice for canvases of one size, each run of either callback
    moves the one cursor on by a tile: after [k] runs in any order the
    cursor is where [k] runs of a single session would have left it, so
    each session paints only the tiles of its own runs, and both are
    complete after [sweep_ticks] runs in all. *)
Theorem X29_sessions_share_cursor (r1 r2 : Mandelbrot.request) (fired : list nat) :
  moderate r1 -> moderate r2 ->
  Mandelbrot.width r2 = Mandelbrot.width r1 ->
  Mandelbrot.height r2 = Mandelbrot.height r1 ->
  Forall (fun t => t = 0%nat \/ t = 1%nat) fired ->
  let W := Mandelbrot.width r1 in
  let H := Mandelbrot.height r1 in
  let h := fst (Mandelbrot.graph (fst (Mandelbrot.graph idle r1)) r2) in
  let h' := Mandelbrot.steps h (map Mandelbrot.Fire fired) in
  Mandelbrot.find_timer h' 0 = Some (session_of r1)
  /\ Mandelbrot.find_timer h' 1 = Some (session_of r2)
  /\ Mandelbrot.global_cursor h'
     = cursor_after W H ((W + 20) / 40) ((H + 10) / 20) (List.length fired)
         {| xcurr := 0; ycurr := 0 |}
  /\ (Mandelbrot.complete (session_of r1) (Mandelbrot.global_cursor h') = true
      <-> (sweep_ticks W H ((W + 20) / 40) ((H + 10) / 20)
           <= Z.of_nat (List.length fired))%Z).
Proof.
  intros M1 M2 EW EH Hfired W H h h'.
  set (xd := ((W + 20) / 40)%Z). set (yd := ((H + 10) / 20)%Z).
  assert (Inv : forall fired k h0,
             Forall (fun t => t = 0%nat \/ t = 1%nat) fired ->
             Mandelbrot.timers h0 = [(1%nat, session_of r2); (0%nat, session_of r1)] ->
             Mandelbrot.global_cursor h0
             = cursor_after W H xd yd k {| xcurr := 0; ycurr := 0 |} ->
             cursor_ok (session_of r1) (Mandelbrot.global_cursor h0) ->
             Mandelbrot.timers (Mandelbrot.steps h0 (map Mandelbrot.Fire fired))
             = [(1%nat, session_of r2); (0%nat, session_of r1)]
             /\ Mandelbrot.global_cursor
                  (Mandelbrot.steps h0 (map Mandelbrot.Fire fired))
                = cursor_after W H xd yd (k + List.length fired)
                    {| xcurr := 0; ycurr := 0 |}).
  { clear Hfired h'. induction fired0 as [|t ts IH]; intros k h0 Hts Ht Hcur Hok.
    - cbn [map Mandelbrot.steps fold_left List.length]. rewrite Nat.add_0_r.
      now split.
    - inversion Hts as [|? ? Ht01 Hts']; subst.
      cbn [map List.length]. unfold Mandelbrot.steps. cbn [fold_left].
      fold (Mandelbrot.steps (Mandelbrot.step h0 (Mandelbrot.Fire t))
              (map Mandelbrot.Fire ts)).
      replace (k + S (List.length ts))%nat with (S k + List.length ts)%nat by lia.
      cbn [Mandelbrot.step].
      assert (Hok2 : cursor_ok (session_of r2) (Mandelbrot.global_cursor h0))
        by (apply (cursor_ok_same_size r1 r2 _ EW EH); exact Hok).
      assert (Hstep : exists s, Mandelbrot.find_timer h0 t = Some s
                /\ fst (Mandelbrot.tick s (Mandelbrot.global_cursor h0))
                   = next_cursor W H xd yd (Mandelbrot.global_cursor h0)
                /\ cursor_ok (session_of r1)
                     (fst (Mandelbrot.tick s (Mandelbrot.global_cursor h0)))).
      { destruct Ht01 as [-> | ->].
        - exists (session_of r1). split.
          + unfold Mandelbrot.find_timer. rewrite Ht. reflexivity.
          + apply (moderate_tick r1 _ M1 Hok).
        - exists (session_of r2). split.
          + unfold Mandelbrot.find_timer. rewrite Ht. reflexivity.
          + destruct (moderate_tick r2 _ M2 Hok2) as [E Hok'].
            rewrite EW, EH in E. split; [exact E|].
            apply (cursor_ok_same_size r1 r2 _ EW EH). exact Hok'. }
      destruct Hstep as (s & Ef & Et & Hok').
      rewrite (fire_found h0 t s Ef).
      apply IH; [exact Hts' | exact Ht | | exact Hok'].
      cbn [Mandelbrot.global_cursor]. rewrite Et, Hcur.
      symmetry. apply cursor_after_last. }
  destruct M1 as (HW & HH & M1').
  assert (Hok0 : cursor_ok (session_of r1) {| xcurr := 0; ycurr := 0 |}).
  { destruct (graph_session_tile (Mandelbrot.width r1) (Mandelbrot.height r1)
                (Mandelbrot.req_max_iter r1) (Mandelbrot.rxmin r1)
                (Mandelbrot.rxmax r1) (Mandelbrot.rymin r1) (Mandelbrot.rymax r1))
      as [Ex Ey].
    fold (session_of r1) in Ex, Ey. unfold cursor_ok. rewrite Ex, Ey.
    cbn [xcurr ycurr].
    change (Mandelbrot.xdiff (session_of r1)) with (Mandelbrot.width r1).
    change (Mandelbrot.ydiff (session_of r1)) with (Mandelbrot.height r1).
    pose proof (Z.div_pos (Mandelbrot.width r1 + 20) 40 ltac:(lia) ltac:(lia)).
    pose proof (Z.div_pos (Mandelbrot.height r1 + 10) 20 ltac:(lia) ltac:(lia)).
    lia. }
  destruct (Inv fired 0%nat h Hfired) as [Ht Hc];
    [reflexivity | reflexivity | exact Hok0 |].
  fold h' in Ht, Hc. cbn [Nat.add] in Hc.
  split; [unfold Mandelbrot.find_timer; rewrite Ht; reflexivity|].
  split; [unfold Mandelbrot.find_timer; rewrite Ht; reflexivity|].
  split; [exact Hc|].
  rewrite Hc.
  assert (Hxd : (0 < xd)%Z) by (apply Z.div_str_pos; unfold W; lia).
  assert (Hyd : (0 < yd)%Z) by (apply Z.div_str_pos; unfold H; lia).
  apply (past_canvas_iff W H xd yd ltac:(unfold W; lia) ltac:(unfold H; lia) Hxd Hyd).
Qed.

Lemma X29_sessions_share_cursor_witness :
  let r1 := {| Mandelbrot.width := 400; Mandelbrot.height := 200;
               Mandelbrot.req_max_iter := 50;
               Mandelbrot.rxmin := -1; Mandelbrot.rxmax := 5/2;
               Mandelbrot.rymin := -1; Mandelbrot.rymax := 1 |} in
  let r2 := {| Mandelbrot.width := 400; Mandelbrot.height := 200;
               Mandelbrot.req_max_iter := 200;
               Mandelbrot.rxmin := 0; Mandelbrot.rxmax := 1;
               Mandelbrot.rymin := 0; Mandelbrot.rymax := 1 |} in
  let h := fst (Mandelbrot.graph (fst (Mandelbrot.graph idle r1)) r2) in
  let h' := Mandelbrot.steps h (map Mandelbrot.Fire [0; 1; 1; 0; 1]%nat) in
  Mandelbrot.global_cursor h'
  = cursor_after 400 200 ((400 + 20) / 40) ((200 + 10) / 20) 5
      {| xcurr := 0; ycurr := 0 |}.
Proof.
  intros r1 r2 h h'.
  apply (X29_sessions_share_cursor r1 r2 [0; 1; 1; 0; 1]%nat).
  - unfold moderate, r1; simpl. repeat split; (lia || lra).
  - unfold moderate, r2; simpl. repeat split; (lia || lra).
  - reflexivity.
  - reflexivity.
  - repeat (apply Forall_cons; [(now left) || (now right)|]). apply Forall_nil.
Defined.

(** ** The real segment of the set *)

(** For a real constant in (-2, 1/4] the orbit stays within the fixed point
    [(1 + sqrt (1 - 4 c)) / 2], which is below 2. *)
Lemma real_segment_bounded (n : nat) (x : R) :
  -2 < x -> x <= / 4 ->
  let st := escape Mandelbrot.eval n {| imaginary := 0; real := x |} in
  m st < 4 /\ count st = n.
Proof.
  intros Hlo Hhi st.
  set (c := {| imaginary := 0; real := x |}) in *.
  set (t := sqrt (1 - 4 * x)).
  assert (Ht0 : 0 <= t) by apply sqrt_pos.
  assert (Htt : t * t = 1 - 4 * x) by (apply sqrt_sqrt; lra).
  set (beta := (1 + t) / 2).
  assert (Hb2 : beta < 2) by (unfold beta; nra).
  assert (Hb0 : / 2 <= beta) by (unfold beta; lra).
  assert (Hfix : beta * beta + x = beta) by (unfold beta; nra).
  set (J := fun st : loop_state =>
              imaginary (z st) = 0 /\ - beta <= real (z st) <= beta
              /\ m st = magnitude2 (z st)).
  assert (HJ : J st).
  { unfold st, escape. apply while_loop_invariant.
    - intros s0 (Him & Hre & _) _ _. unfold J; cbn [z m].
      unfold Mandelbrot.eval, add, multiply, c; cbn [imaginary real].
      rewrite Him. split; [ring|]. split; [|reflexivity].
      split; nra.
    - unfold J; cbn [z m]. unfold origin, magnitude2; cbn [imaginary real].
      split; [reflexivity|]. split; lra. }
  destruct HJ as (Him & Hre & Hm).
  assert (Hm4 : m st < 4).
  { rewrite Hm. unfold magnitude2. rewrite Him. nra. }
  split; [exact Hm4|].
  destruct (escape_exits Mandelbrot.eval n c) as [Hexit Hle]. fold st in Hexit, Hle.
  destruct (Nat.lt_ge_cases (count st) n) as [Hlt|Hge]; [|lia].
  exfalso. apply Hexit. split; [exact Hm4 | exact Hlt].
Qed.

(** X30: the real segment (-2, 1/4] belongs to the set the program draws,
    under either map: for a real constant in it the loop uses all
    [max_iter] passes with [m < 4] throughout, and revision 1.0 paints the
    point black. *)
Theorem X30_real_segment_in_set (max_iter : nat) (x : R) :
  -2 < x -> x <= / 4 ->
  let c := {| imaginary := 0; real := x |} in
  count (escape Mandelbrot.eval max_iter c) = max_iter
  /\ m (escape Mandelbrot.eval max_iter c) < 4
  /\ snd (BurningShip.escape max_iter c) = max_iter
  /\ Mandelbrot.pixel_color (Mandelbrot.palette max_iter) max_iter
       (count (escape Mandelbrot.eval max_iter c))
       (m (escape Mandelbrot.eval max_iter c))
     = Normal (Some "#000000"%string).
Proof.
  intros Hlo Hhi c.
  destruct (real_segment_bounded max_iter x Hlo Hhi) as [Hm Hc]. fold c in Hm, Hc.
  split; [exact Hc|]. split; [exact Hm|]. split.
  - rewrite burning_ship_escape_cached. cbn [snd].
    rewrite (proj1 (real_axis_same_escape max_iter c eq_refl)). exact Hc.
  - rewrite Hc. rewrite pixel_color_plain by lia. now rewrite palette_black.
Qed.

Lemma X30_real_segment_in_set_witness :
  let c := {| imaginary := 0; real := -1 |} in
  count (escape Mandelbrot.eval 1000 c) = 1000%nat
  /\ m (escape Mandelbrot.eval 1000 c) < 4
  /\ snd (BurningShip.escape 1000 c) = 1000%nat
  /\ Mandelbrot.pixel_color (Mandelbrot.palette 1000) 1000
       (count (escape Mandelbrot.eval 1000 c))
       (m (escape Mandelbrot.eval 1000 c))
     = Normal (Some "#000000"%string).
Proof.
  apply (X30_real_segment_in_set 1000 (-1)); lra.
Defined.
